(** * The streaming gateway of polyaxon ([streams/api.py])

    A shallow embedding of the four websocket endpoints ([job_resources],
    [experiment_resources], [job_logs], [experiment_logs]) and of the two
    server listeners, followed by the properties of the streaming
    specification that they satisfy or break.

    Python objects that are shared between sessions (the [SocketManager] and
    [Consumer] instances stored in the application's dictionaries and captured
    by the running handlers) live in an explicit store and are named by
    references, so that aliasing is visible.  Each [while True] loop is
    embedded as the function of one iteration; everything the iteration reads
    from outside the process (database rows, broker messages, cache
    snapshots, the fate of each send) is gathered in a [CycleEnv]. *)

From stdpp Require Import gmap strings list sorting pretty.
From Stdlib Require Import ZArith Ascii.

#[local] Set Warnings "-clear-no-such-hyp".
Local Open Scope Z_scope.

(** ** Module constants *)

Definition SOCKET_SLEEP : Z := 2.
Definition MAX_RETRIES : Z := 7.
Definition RESOURCES_CHECK : Z := 7.
Definition CHECK_DELAY : Z := 5.

(** ** Exceptions and results *)

(** The exceptions that leave a handler: the two [sanic.exceptions] classes
    the module mentions, with their message, and the two built-in ones that a
    lookup by a path segment can raise and that no [except] clause of the
    module names. *)
Inductive Exception :=
  | NotFound (message : string)
  | Forbidden (message : string)
  | ValueError
  | OverflowError.

Inductive result (A : Type) :=
  | Ok (a : A)
  | Raise (e : Exception).
Arguments Ok {A} a.
Arguments Raise {A} e.

#[global] Instance result_ret : MRet result := λ A a, Ok a.
#[global] Instance result_bind : MBind result := λ A B f m,
  match m with
  | Ok a => f a
  | Raise e => Raise e
  end.

(** ** Database rows

    [is_running] and [is_done] are properties of the models (declared outside
    this module); a row carries their value at the time it was loaded. *)

Record User := { user_id : nat; user_username : string }.

Record Project := {
  project_id : nat;
  project_name : string;
  project_user__username : string
}.

Record Experiment := {
  experiment_id : nat;
  experiment_project : nat;
  experiment_uuid_hex : string;
  experiment_unique_name : string;
  experiment_is_running : bool;
  experiment_is_done : bool
}.

Record ExperimentJob := {
  job_id : nat;
  job_experiment : nat;
  job_uuid_hex : string;
  job_role : string;
  job_is_running : bool;
  job_is_done : bool
}.

(** The tables the handlers query, and the permission oracle
    [libs.permissions.projects.has_project_permissions]. *)
Record DB := {
  Project_objects : list Project;
  Experiment_objects : list Experiment;
  ExperimentJob_objects : list ExperimentJob;
  has_project_permissions : User → Project → string → bool
}.

(** The two names of [polyaxon.settings] used to build a consumer. *)
Record Settings := {
  RoutingKeys_LOGS_SIDECARS : string;
  CeleryQueues_STREAM_LOGS_SIDECARS : string
}.

(** ** Shared objects *)

Definition conn := nat.
Definition ref := nat.
Bind Scope nat_scope with conn ref.

(** Modelled from the spec: [streams.socket_manager.SocketManager] is the
    BroadcastGroup of section 4.1, a set of connection handles [ws]. *)
Record SocketManager := { sm_ws : gset conn }.

(** Modelled from the spec: [streams.consumers.Consumer] is the LogBridge of
    section 4.2: a broker subscription ([run] starts it, [stop] releases it)
    together with the set [ws] of the connections it serves. *)
Record Consumer := {
  routing_key : string;
  queue : string;
  c_ws : gset conn;
  c_running : bool
}.

(** The attributes of the [Sanic] application.  The last field is the
    attribute that [notify_server_stopped] assigns under the name
    [experiment_resources_ws_manger]; it is absent until then. *)
Record App := {
  job_resources_ws_mangers : gmap string ref;
  experiment_resources_ws_mangers : gmap string ref;
  job_logs_consumers : gmap string ref;
  experiment_logs_consumers : gmap string ref;
  experiment_resources_ws_manger : option (gmap string ref)
}.

(** Modelled from the spec: [libs.redis_db.RedisToStream] is the MetricsCache
    of section 6; per stream kind, the set of keys marked as monitored. *)
Record RedisToStream := {
  monitored_job_resources : gset string;
  monitored_experiment_resources : gset string;
  monitored_job_logs : gset string;
  monitored_experiment_logs : gset string
}.

Inductive EventType :=
  | EXPERIMENT_LOGS_VIEWED
  | EXPERIMENT_RESOURCES_VIEWED
  | EXPERIMENT_JOB_LOGS_VIEWED
  | EXPERIMENT_JOB_RESOURCES_VIEWED.

Record AuditRecord := {
  event_type : EventType;
  instance_uuid : string;
  actor_id : nat
}.

(** One element of [experiment_resources]'s list [jobs]. *)
Record JobEntry := { entry_uuid : string; entry_name : string }.

(** What a handler asked the metrics cache for. *)
Inductive CacheRead :=
  | ReadJob (job job_name : string)
  | ReadExperiment (jobs : list JobEntry).

(** Everything a handler can change: the application's tables, the two
    stores of shared objects, the cache marks, the audit trail, the payloads
    handed to the transport, in order, and the questions put to the metrics
    cache, in order. *)
Record World := {
  app : App;
  socket_managers : list SocketManager;
  consumers : list Consumer;
  redis : RedisToStream;
  audit : list AuditRecord;
  sent : list (conn * string);
  cache_reads : list CacheRead
}.

Definition with_app (f : App → App) (w : World) : World :=
  {| app := f (app w); socket_managers := socket_managers w;
     consumers := consumers w; redis := redis w; audit := audit w;
     sent := sent w; cache_reads := cache_reads w |}.

Definition with_socket_managers
    (f : list SocketManager → list SocketManager) (w : World) : World :=
  {| app := app w; socket_managers := f (socket_managers w);
     consumers := consumers w; redis := redis w; audit := audit w;
     sent := sent w; cache_reads := cache_reads w |}.

Definition with_consumers (f : list Consumer → list Consumer) (w : World)
    : World :=
  {| app := app w; socket_managers := socket_managers w;
     consumers := f (consumers w); redis := redis w; audit := audit w;
     sent := sent w; cache_reads := cache_reads w |}.

Definition with_redis (f : RedisToStream → RedisToStream) (w : World)
    : World :=
  {| app := app w; socket_managers := socket_managers w;
     consumers := consumers w; redis := f (redis w); audit := audit w;
     sent := sent w; cache_reads := cache_reads w |}.

(** [auditor.record(event_type=..., instance=..., actor_id=...)] *)
Definition auditor_record (e : EventType) (uuid : string) (actor : nat)
    (w : World) : World :=
  {| app := app w; socket_managers := socket_managers w;
     consumers := consumers w; redis := redis w;
     audit := audit w ++ [ {| event_type := e; instance_uuid := uuid;
                             actor_id := actor |} ];
     sent := sent w; cache_reads := cache_reads w |}.

(** A successful [await ws.send(payload)]. *)
Definition ws_send (ws : conn) (payload : string) (w : World) : World :=
  {| app := app w; socket_managers := socket_managers w;
     consumers := consumers w; redis := redis w; audit := audit w;
     sent := sent w ++ [(ws, payload)]; cache_reads := cache_reads w |}.

(** A call of [RedisToStream.get_latest_..._resources]. *)
Definition cache_read (q : CacheRead) (w : World) : World :=
  {| app := app w; socket_managers := socket_managers w;
     consumers := consumers w; redis := redis w; audit := audit w;
     sent := sent w; cache_reads := cache_reads w ++ [q] |}.

(** *** [SocketManager] methods *)

Definition manager_ws (m : ref) (w : World) : gset conn :=
  from_option sm_ws ∅ (socket_managers w !! m).

(** [ws_manager.ws = ...] *)
Definition manager_set_ws (m : ref) (s : gset conn) (w : World) : World :=
  with_socket_managers (λ h, <[m := {| sm_ws := s |}]> h) w.

(** [SocketManager()] : a fresh object, with no connection. *)
Definition SocketManager_new (w : World) : ref * World :=
  (length (socket_managers w),
   with_socket_managers (λ h, h ++ [ {| sm_ws := ∅ |} ]) w).

(** Modelled from the spec: [add(conn)] inserts a connection (idempotent). *)
Definition manager_add_socket (m : ref) (ws : conn) (w : World) : World :=
  manager_set_ws m ({[ws]} ∪ manager_ws m w) w.

(** Modelled from the spec: [remove(conns)] deletes zero or more connections,
    with no error if absent.  The resource handlers pass one handle. *)
Definition manager_remove_sockets (m : ref) (ws : gset conn) (w : World)
    : World :=
  manager_set_ws m (manager_ws m w ∖ ws) w.

(** *** [Consumer] methods *)

Definition consumer_ws (c : ref) (w : World) : gset conn :=
  from_option c_ws ∅ (consumers w !! c).

Definition consumer_running (c : ref) (w : World) : bool :=
  from_option c_running false (consumers w !! c).

Definition consumer_alter (f : Consumer → Consumer) (c : ref) (w : World)
    : World :=
  with_consumers (λ h, alter f c h) w.

(** [consumer.ws = ...] *)
Definition consumer_set_ws (c : ref) (s : gset conn) (w : World) : World :=
  consumer_alter (λ o, {| routing_key := routing_key o; queue := queue o;
                          c_ws := s; c_running := c_running o |}) c w.

(** [Consumer(routing_key=..., queue=...)] : a fresh object, not yet
    running, with no connection. *)
Definition Consumer_new (rk q : string) (w : World) : ref * World :=
  (length (consumers w),
   with_consumers (λ h, h ++ [ {| routing_key := rk; queue := q;
                                  c_ws := ∅; c_running := false |} ]) w).

(** Modelled from the spec: [start()] activates the broker subscription. *)
Definition consumer_run (c : ref) (w : World) : World :=
  consumer_alter (λ o, {| routing_key := routing_key o; queue := queue o;
                          c_ws := c_ws o; c_running := true |}) c w.

(** Modelled from the spec: [stop()] releases the broker subscription. *)
Definition consumer_stop (c : ref) (w : World) : World :=
  consumer_alter (λ o, {| routing_key := routing_key o; queue := queue o;
                          c_ws := c_ws o; c_running := false |}) c w.

(** Modelled from the spec: [add(conn)] of section 4.1, on the group of the
    consumer [streams.consumers.Consumer]. *)
Definition consumer_add_socket (c : ref) (ws : conn) (w : World) : World :=
  consumer_set_ws c ({[ws]} ∪ consumer_ws c w) w.

(** Modelled from the spec: [remove(conns)] of section 4.1, on the group of
    the consumer: the connections in [ws] leave, absent ones are ignored. *)
Definition consumer_remove_sockets (c : ref) (ws : gset conn) (w : World)
    : World :=
  consumer_set_ws c (consumer_ws c w ∖ ws) w.

(** ** Resolution helpers *)

(** [Project.objects.get(name=..., user__username=...)]; [None] stands for
    [DoesNotExist]. *)
Definition Project_objects_get (db : DB) (name username : string)
    : option Project :=
  find (λ p, bool_decide (project_name p = name
                          ∧ project_user__username p = username))
       (Project_objects db).

(** *** Path segments as primary keys

    The routes declare [<experiment_id>] and [<job_id>] without a type: the
    handlers receive the two segments as strings and hand them to
    [objects.get(id=...)] as they are.  The integer field of the primary key
    reads the string with [int()], which raises [ValueError] on a string
    that is not a numeral; the database adapter then refuses to bind an
    integer outside the signed 64-bit range, with [OverflowError].  Neither
    is a [DoesNotExist] or a [ValidationError], so neither is caught. *)

(** The white space that [int()] strips from both ends of an ASCII string. *)
Definition is_space (c : ascii) : bool :=
  bool_decide (c ∈ [" "%char; "009"%char; "010"%char; "011"%char;
                    "012"%char; "013"%char]).

Definition digit (c : ascii) : option Z :=
  let n := Z.of_N (N_of_ascii c) in
  if bool_decide (48 ≤ n ≤ 57) then Some (n - 48) else None.

(** Where [int()] stands in a numeral: behind the sign, behind a digit,
    behind an underscore, or in the white space that follows the digits. *)
Inductive IntState :=
  | AfterSign
  | AfterDigit
  | AfterUnderscore
  | Trailing.

(** The digits of a decimal numeral, with single underscores between
    digits, up to the end of the string. *)
Fixpoint int_digits (state : IntState) (acc : Z) (s : string) : option Z :=
  match s with
  | EmptyString =>
      match state with
      | AfterDigit | Trailing => Some acc
      | AfterSign | AfterUnderscore => None
      end
  | String c s' =>
      match state, digit c with
      | Trailing, _ =>
          if is_space c then int_digits Trailing acc s' else None
      | _, Some d => int_digits AfterDigit (10 * acc + d) s'
      | AfterDigit, None =>
          if bool_decide (c = "_"%char) then int_digits AfterUnderscore acc s'
          else if is_space c then int_digits Trailing acc s'
          else None
      | _, None => None
      end
  end.

Fixpoint lstrip (s : string) : string :=
  match s with
  | String c s' => if is_space c then lstrip s' else s
  | EmptyString => s
  end.

(** [int(s)] in base ten, on a string of ASCII characters; [None] stands
    for [ValueError]. *)
Definition int (s : string) : option Z :=
  match lstrip s with
  | String "+" s' => int_digits AfterSign 0 s'
  | String "-" s' => Z.opp <$> int_digits AfterSign 0 s'
  | s' => int_digits AfterSign 0 s'
  end.

(** The value that a lookup [id=segment] compares the primary keys with. *)
Definition lookup_id (segment : string) : result Z :=
  match int segment with
  | None => Raise ValueError
  | Some id =>
      if bool_decide (- 2 ^ 63 ≤ id < 2 ^ 63) then Ok id
      else Raise OverflowError
  end.

(** [Experiment.objects.get(project=..., id=...)]: [Ok None] stands for
    [DoesNotExist].  A primary key is an integer, so the lookup raises no
    [ValidationError]. *)
Definition Experiment_objects_get (db : DB) (project : Project) (id : string)
    : result (option Experiment) :=
  id ← lookup_id id;
  Ok (find (λ e, bool_decide (experiment_project e = project_id project
                              ∧ Z.of_nat (experiment_id e) = id))
           (Experiment_objects db)).

(** [ExperimentJob.objects.get(experiment=..., id=...)] *)
Definition ExperimentJob_objects_get (db : DB) (experiment : Experiment)
    (id : string) : result (option ExperimentJob) :=
  id ← lookup_id id;
  Ok (find (λ j, bool_decide (job_experiment j = experiment_id experiment
                              ∧ Z.of_nat (job_id j) = id))
           (ExperimentJob_objects db)).

Definition _get_project (db : DB) (username project_name' : string)
    : result Project :=
  match Project_objects_get db project_name' username with
  | Some project => Ok project
  | None => Raise (NotFound "Project was not found")
  end.

Definition _get_experiment (db : DB) (project : Project)
    (experiment_id' : string) : result Experiment :=
  row ← Experiment_objects_get db project experiment_id';
  match row with
  | Some experiment => Ok experiment
  | None => Raise (NotFound "Experiment was not found")
  end.

Definition _get_job (db : DB) (experiment : Experiment) (job_id' : string)
    : result ExperimentJob :=
  row ← ExperimentJob_objects_get db experiment job_id';
  match row with
  | None => Raise (NotFound "Experiment was not found")
  | Some job =>
      if negb (job_is_running job)
      then Raise (NotFound "Job was not running")
      else Ok job
  end.

Definition _get_running_experiment (db : DB) (project : Project)
    (experiment_id' : string) : result Experiment :=
  experiment ← _get_experiment db project experiment_id';
  if negb (experiment_is_running experiment)
  then Raise (NotFound "Experiment was not running")
  else Ok experiment.

(** ** The cache and the per-cycle environment *)

(** What one iteration of a handler's loop observes from outside the
    process: the database as it is now, the cache's answers, the messages the
    consumer hands over, whether the [i]-th send of the iteration to a given
    connection raises [ConnectionClosed], and the handler's own
    [ws._connection_lost] flag. *)
Record CycleEnv := {
  env_db : DB;
  latest_job_resources : string → string → option string;
  latest_experiment_resources : list JobEntry → option string;
  get_messages : list string;
  ConnectionClosed : nat → conn → bool;
  _connection_lost : bool
}.

(** [if x:] on an optional string. *)
Definition truthy (x : option string) : bool :=
  match x with
  | Some s => negb (bool_decide (s = ""))
  | None => false
  end.

(** How an iteration ends: at [asyncio.sleep] with the handler's locals, at a
    [return], or with the [DoesNotExist] that [refresh_from_db] raises for a
    row that is gone and that nothing catches. *)
Inductive Outcome (S : Type) :=
  | Sleep (s : S)
  | Return
  | Uncaught.
Arguments Sleep {S} s.
Arguments Return {S}.
Arguments Uncaught {S}.

Definition refresh_job_from_db (db : DB) (job : ExperimentJob)
    : option ExperimentJob :=
  find (λ j, bool_decide (job_id j = job_id job)) (ExperimentJob_objects db).

Definition refresh_experiment_from_db (db : DB) (experiment : Experiment)
    : option Experiment :=
  find (λ e, bool_decide (experiment_id e = experiment_id experiment))
       (Experiment_objects db).

(** *** Field updates of [App] and [RedisToStream] *)

Definition set_job_resources_ws_mangers (m : gmap string ref) (a : App) : App :=
  {| job_resources_ws_mangers := m;
     experiment_resources_ws_mangers := experiment_resources_ws_mangers a;
     job_logs_consumers := job_logs_consumers a;
     experiment_logs_consumers := experiment_logs_consumers a;
     experiment_resources_ws_manger := experiment_resources_ws_manger a |}.

Definition set_experiment_resources_ws_mangers (m : gmap string ref) (a : App)
    : App :=
  {| job_resources_ws_mangers := job_resources_ws_mangers a;
     experiment_resources_ws_mangers := m;
     job_logs_consumers := job_logs_consumers a;
     experiment_logs_consumers := experiment_logs_consumers a;
     experiment_resources_ws_manger := experiment_resources_ws_manger a |}.

Definition set_job_logs_consumers (m : gmap string ref) (a : App) : App :=
  {| job_resources_ws_mangers := job_resources_ws_mangers a;
     experiment_resources_ws_mangers := experiment_resources_ws_mangers a;
     job_logs_consumers := m;
     experiment_logs_consumers := experiment_logs_consumers a;
     experiment_resources_ws_manger := experiment_resources_ws_manger a |}.

Definition set_experiment_logs_consumers (m : gmap string ref) (a : App) : App :=
  {| job_resources_ws_mangers := job_resources_ws_mangers a;
     experiment_resources_ws_mangers := experiment_resources_ws_mangers a;
     job_logs_consumers := job_logs_consumers a;
     experiment_logs_consumers := m;
     experiment_resources_ws_manger := experiment_resources_ws_manger a |}.

Definition set_experiment_resources_ws_manger (m : gmap string ref) (a : App)
    : App :=
  {| job_resources_ws_mangers := job_resources_ws_mangers a;
     experiment_resources_ws_mangers := experiment_resources_ws_mangers a;
     job_logs_consumers := job_logs_consumers a;
     experiment_logs_consumers := experiment_logs_consumers a;
     experiment_resources_ws_manger := Some m |}.

(** Modelled from the spec: the methods [monitor_...] and [remove_...] of
    [libs.redis_db.RedisToStream] are [markMonitored] and [unmarkMonitored]
    of section 6, one pair per stream kind. *)
Definition monitor_job_resources (job_uuid : string) (r : RedisToStream)
    : RedisToStream :=
  {| monitored_job_resources := {[job_uuid]} ∪ monitored_job_resources r;
     monitored_experiment_resources := monitored_experiment_resources r;
     monitored_job_logs := monitored_job_logs r;
     monitored_experiment_logs := monitored_experiment_logs r |}.

Definition remove_job_resources (job_uuid : string) (r : RedisToStream)
    : RedisToStream :=
  {| monitored_job_resources := monitored_job_resources r ∖ {[job_uuid]};
     monitored_experiment_resources := monitored_experiment_resources r;
     monitored_job_logs := monitored_job_logs r;
     monitored_experiment_logs := monitored_experiment_logs r |}.

Definition monitor_experiment_resources (experiment_uuid : string)
    (r : RedisToStream) : RedisToStream :=
  {| monitored_job_resources := monitored_job_resources r;
     monitored_experiment_resources :=
       {[experiment_uuid]} ∪ monitored_experiment_resources r;
     monitored_job_logs := monitored_job_logs r;
     monitored_experiment_logs := monitored_experiment_logs r |}.

Definition remove_experiment_resources (experiment_uuid : string)
    (r : RedisToStream) : RedisToStream :=
  {| monitored_job_resources := monitored_job_resources r;
     monitored_experiment_resources :=
       monitored_experiment_resources r ∖ {[experiment_uuid]};
     monitored_job_logs := monitored_job_logs r;
     monitored_experiment_logs := monitored_experiment_logs r |}.

Definition monitor_job_logs (job_uuid : string) (r : RedisToStream)
    : RedisToStream :=
  {| monitored_job_resources := monitored_job_resources r;
     monitored_experiment_resources := monitored_experiment_resources r;
     monitored_job_logs := {[job_uuid]} ∪ monitored_job_logs r;
     monitored_experiment_logs := monitored_experiment_logs r |}.

Definition remove_job_logs (job_uuid : string) (r : RedisToStream)
    : RedisToStream :=
  {| monitored_job_resources := monitored_job_resources r;
     monitored_experiment_resources := monitored_experiment_resources r;
     monitored_job_logs := monitored_job_logs r ∖ {[job_uuid]};
     monitored_experiment_logs := monitored_experiment_logs r |}.

Definition monitor_experiment_logs (experiment_uuid : string)
    (r : RedisToStream) : RedisToStream :=
  {| monitored_job_resources := monitored_job_resources r;
     monitored_experiment_resources := monitored_experiment_resources r;
     monitored_job_logs := monitored_job_logs r;
     monitored_experiment_logs :=
       {[experiment_uuid]} ∪ monitored_experiment_logs r |}.

Definition remove_experiment_logs (experiment_uuid : string)
    (r : RedisToStream) : RedisToStream :=
  {| monitored_job_resources := monitored_job_resources r;
     monitored_experiment_resources := monitored_experiment_resources r;
     monitored_job_logs := monitored_job_logs r;
     monitored_experiment_logs :=
       monitored_experiment_logs r ∖ {[experiment_uuid]} |}.

(** [if not RedisToStream.is_monitored_x(k): RedisToStream.monitor_x(k)] *)
Definition ensure_monitored (is_monitored : RedisToStream → gset string)
    (monitor : string → RedisToStream → RedisToStream) (k : string)
    (w : World) : World :=
  if negb (bool_decide (k ∈ is_monitored (redis w)))
  then with_redis (monitor k) w
  else w.

(** ** [job_resources] *)

(** The request as the handler sees it once [authorized()] has stored the
    authenticated user on [request.app.user]. *)
Record Request := { request_app_user : User }.

(** The handler's locals that survive an iteration of its loop. *)
Record JobResourcesSession := {
  jr_ws : conn;
  jr_job : ExperimentJob;
  jr_job_uuid : string;
  jr_job_name : string;
  jr_ws_manager : ref;
  jr_should_check : Z
}.

(** The closure [handle_job_disconnected_ws] of a [job_resources] call. *)
Definition handle_job_disconnected_ws (s : JobResourcesSession) (ws : conn)
    (w : World) : World :=
  let w := manager_remove_sockets (jr_ws_manager s) {[ws]} w in
  if bool_decide (manager_ws (jr_ws_manager s) w = ∅)
  then
    let w := with_redis (remove_job_resources (jr_job_uuid s)) w in
    with_app (λ a, set_job_resources_ws_mangers
                     (delete (jr_job_uuid s) (job_resources_ws_mangers a)) a) w
  else w.

(** From the first line of the handler to [should_check = 0]. *)
Definition job_resources_setup (db : DB) (request : Request) (ws : conn)
    (username project_name' : string) (experiment_id' job_id' : string)
    (w : World) : result (World * JobResourcesSession) :=
  project ← _get_project db username project_name';
  (* the exception is built and dropped: there is no [raise] *)
  let _ := if negb (has_project_permissions db (request_app_user request)
                      project "GET")
           then Some (Forbidden "You don't have access to this project")
           else None in
  experiment ← _get_running_experiment db project experiment_id';
  job ← _get_job db experiment job_id';
  let job_uuid := job_uuid_hex job in
  let job_name := job_role job +:+ "." +:+ pretty (job_id job) in
  let w := auditor_record EXPERIMENT_JOB_RESOURCES_VIEWED job_uuid
             (user_id (request_app_user request)) w in
  let w := ensure_monitored monitored_job_resources monitor_job_resources
             job_uuid w in
  let '(ws_manager, w) :=
    match job_resources_ws_mangers (app w) !! job_uuid with
    | Some ws_manager => (ws_manager, w)
    | None =>
        let '(ws_manager, w) := SocketManager_new w in
        (ws_manager,
         with_app (λ a, set_job_resources_ws_mangers
                          (<[job_uuid := ws_manager]>
                             (job_resources_ws_mangers a)) a) w)
    end in
  let w := manager_add_socket ws_manager ws w in
  Ok (w, {| jr_ws := ws; jr_job := job; jr_job_uuid := job_uuid;
            jr_job_name := job_name; jr_ws_manager := ws_manager;
            jr_should_check := 0 |}).

(** The end of an iteration: [if resources: ... send ...], then the
    [_connection_lost] test, then [asyncio.sleep]. *)
Definition job_resources_deliver (env : CycleEnv) (s : JobResourcesSession)
    (resources : option string) (job : ExperimentJob) (should_check : Z)
    (w : World) : World * Outcome JobResourcesSession :=
  let ws := jr_ws s in
  let closing (w : World) :=
    if _connection_lost env
    then (handle_job_disconnected_ws s ws w, Return)
    else (w, Sleep {| jr_ws := ws; jr_job := job;
                      jr_job_uuid := jr_job_uuid s;
                      jr_job_name := jr_job_name s;
                      jr_ws_manager := jr_ws_manager s;
                      jr_should_check := should_check |}) in
  if truthy resources
  then
    if ConnectionClosed env 0 ws
    then (handle_job_disconnected_ws s ws w, Return)
    else closing (ws_send ws (default "" resources) w)
  else closing w.

(** One iteration of the [while True] loop of [job_resources]. *)
Definition job_resources_cycle (env : CycleEnv) (s : JobResourcesSession)
    (w : World) : World * Outcome JobResourcesSession :=
  let resources := latest_job_resources env (jr_job_uuid s) (jr_job_name s) in
  let w := cache_read (ReadJob (jr_job_uuid s) (jr_job_name s)) w in
  let should_check := jr_should_check s + 1 in
  if bool_decide (should_check > RESOURCES_CHECK)
  then
    match refresh_job_from_db (env_db env) (jr_job s) with
    | None => (w, Uncaught)
    | Some job =>
        if job_is_done job
        then
          let w := manager_set_ws (jr_ws_manager s) ∅ w in
          (handle_job_disconnected_ws s (jr_ws s) w, Return)
        else
          job_resources_deliver env s resources job
            (should_check - CHECK_DELAY) w
    end
  else job_resources_deliver env s resources (jr_job s) should_check w.

(** ** [experiment_resources] *)

Record ExperimentResourcesSession := {
  er_ws : conn;
  er_experiment : Experiment;
  er_experiment_uuid : string;
  er_ws_manager : ref;
  er_jobs : list JobEntry;
  er_should_check : Z
}.

Definition handle_experiment_disconnected_ws (s : ExperimentResourcesSession)
    (ws : conn) (w : World) : World :=
  let w := manager_remove_sockets (er_ws_manager s) {[ws]} w in
  if bool_decide (manager_ws (er_ws_manager s) w = ∅)
  then
    let w := with_redis (remove_experiment_resources (er_experiment_uuid s)) w in
    with_app (λ a, set_experiment_resources_ws_mangers
                     (delete (er_experiment_uuid s)
                        (experiment_resources_ws_mangers a)) a) w
  else w.

(** [experiment.jobs.values('uuid', 'role', 'id')], each row rewritten to
    its [uuid] and its [name]. *)
Definition experiment_jobs (db : DB) (experiment : Experiment)
    : list JobEntry :=
  (λ job, {| entry_uuid := job_uuid_hex job;
             entry_name := job_role job +:+ "." +:+ pretty (job_id job) |})
  <$> filter (λ job, job_experiment job = experiment_id experiment)
        (ExperimentJob_objects db).

Definition experiment_resources_setup (db : DB) (request : Request) (ws : conn)
    (username project_name' : string) (experiment_id' : string)
    (w : World) : result (World * ExperimentResourcesSession) :=
  project ← _get_project db username project_name';
  let _ := if negb (has_project_permissions db (request_app_user request)
                      project "GET")
           then Some (Forbidden "You don't have access to this project")
           else None in
  experiment ← _get_running_experiment db project experiment_id';
  let experiment_uuid := experiment_uuid_hex experiment in
  let w := auditor_record EXPERIMENT_RESOURCES_VIEWED experiment_uuid
             (user_id (request_app_user request)) w in
  let w := ensure_monitored monitored_experiment_resources
             monitor_experiment_resources experiment_uuid w in
  let '(ws_manager, w) :=
    match experiment_resources_ws_mangers (app w) !! experiment_uuid with
    | Some ws_manager => (ws_manager, w)
    | None =>
        let '(ws_manager, w) := SocketManager_new w in
        (ws_manager,
         with_app (λ a, set_experiment_resources_ws_mangers
                          (<[experiment_uuid := ws_manager]>
                             (experiment_resources_ws_mangers a)) a) w)
    end in
  let jobs := experiment_jobs db experiment in
  let w := manager_add_socket ws_manager ws w in
  Ok (w, {| er_ws := ws; er_experiment := experiment;
            er_experiment_uuid := experiment_uuid;
            er_ws_manager := ws_manager; er_jobs := jobs;
            er_should_check := 0 |}).

Definition experiment_resources_deliver (env : CycleEnv)
    (s : ExperimentResourcesSession) (resources : option string)
    (experiment : Experiment) (should_check : Z) (w : World)
    : World * Outcome ExperimentResourcesSession :=
  let ws := er_ws s in
  let closing (w : World) :=
    if _connection_lost env
    then (handle_experiment_disconnected_ws s ws w, Return)
    else (w, Sleep {| er_ws := ws; er_experiment := experiment;
                      er_experiment_uuid := er_experiment_uuid s;
                      er_ws_manager := er_ws_manager s;
                      er_jobs := er_jobs s;
                      er_should_check := should_check |}) in
  if truthy resources
  then
    if ConnectionClosed env 0 ws
    then (handle_experiment_disconnected_ws s ws w, Return)
    else closing (ws_send ws (default "" resources) w)
  else closing w.

(** One iteration of the [while True] loop of [experiment_resources]. *)
Definition experiment_resources_cycle (env : CycleEnv)
    (s : ExperimentResourcesSession) (w : World)
    : World * Outcome ExperimentResourcesSession :=
  let resources := latest_experiment_resources env (er_jobs s) in
  let w := cache_read (ReadExperiment (er_jobs s)) w in
  let should_check := er_should_check s + 1 in
  if bool_decide (should_check > RESOURCES_CHECK)
  then
    match refresh_experiment_from_db (env_db env) (er_experiment s) with
    | None => (w, Uncaught)
    | Some experiment =>
        if experiment_is_done experiment
        then
          let w := manager_set_ws (er_ws_manager s) ∅ w in
          (handle_experiment_disconnected_ws s (er_ws s) w, Return)
        else
          experiment_resources_deliver env s resources experiment
            (should_check - CHECK_DELAY) w
    end
  else experiment_resources_deliver env s resources (er_experiment s)
         should_check w.

(** ** [job_logs] *)

Record JobLogsSession := {
  jl_ws : conn;
  jl_job : ExperimentJob;
  jl_job_uuid : string;
  jl_consumer : ref;
  jl_should_quite : bool;
  jl_num_message_retries : Z
}.

(** The inner loop [for _ws in consumer.ws: try: await _ws.send(message)
    except ConnectionClosed: disconnected_ws.add(_ws)], for the [i]-th
    message of the iteration: the world after the sends that went through,
    and [disconnected_ws].  The members are visited in the order of
    [elements]; no other handler runs during the pass. *)
Definition send_to_all (env : CycleEnv) (i : nat) (message : string)
    (members : list conn) (w : World) : World * gset conn :=
  foldl (λ '(w, disconnected_ws) _ws,
           if ConnectionClosed env i _ws
           then (w, {[_ws]} ∪ disconnected_ws)
           else (ws_send _ws message w, disconnected_ws))
        (w, ∅) members.

(** The body of [for message in consumer.get_messages()], after
    [num_message_retries = 0]. *)
Definition fan_out (env : CycleEnv) (consumer : ref) (i : nat)
    (message : string) (w : World) : World :=
  let '(w, disconnected_ws) :=
    send_to_all env i message (elements (consumer_ws consumer w)) w in
  consumer_remove_sockets consumer disconnected_ws w.

(** [for message in consumer.get_messages(): ...], threading
    [num_message_retries]. *)
Fixpoint drain (env : CycleEnv) (consumer : ref) (i : nat)
    (messages : list string) (num_message_retries : Z) (w : World)
    : Z * World :=
  match messages with
  | [] => (num_message_retries, w)
  | message :: messages =>
      drain env consumer (S i) messages 0 (fan_out env consumer i message w)
  end.

Definition job_logs_setup (settings : Settings) (db : DB) (request : Request)
    (ws : conn) (username project_name' : string)
    (experiment_id' job_id' : string) (w : World)
    : result (World * JobLogsSession) :=
  project ← _get_project db username project_name';
  let _ := if negb (has_project_permissions db (request_app_user request)
                      project "GET")
           then Some (Forbidden "You don't have access to this project")
           else None in
  experiment ← _get_running_experiment db project experiment_id';
  job ← _get_job db experiment job_id';
  let job_uuid := job_uuid_hex job in
  let w := auditor_record EXPERIMENT_JOB_LOGS_VIEWED job_uuid
             (user_id (request_app_user request)) w in
  let w := ensure_monitored monitored_job_logs monitor_job_logs job_uuid w in
  let '(consumer, w) :=
    match job_logs_consumers (app w) !! job_uuid with
    | Some consumer => (consumer, w)
    | None =>
        let '(consumer, w) :=
          Consumer_new
            (RoutingKeys_LOGS_SIDECARS settings +:+ "."
               +:+ experiment_uuid_hex experiment +:+ "." +:+ job_uuid)
            (CeleryQueues_STREAM_LOGS_SIDECARS settings +:+ "." +:+ job_uuid)
            w in
        let w := with_app (λ a, set_job_logs_consumers
                                  (<[job_uuid := consumer]>
                                     (job_logs_consumers a)) a) w in
        (consumer, consumer_run consumer w)
    end in
  let w := consumer_add_socket consumer ws w in
  Ok (w, {| jl_ws := ws; jl_job := job; jl_job_uuid := job_uuid;
            jl_consumer := consumer; jl_should_quite := false;
            jl_num_message_retries := 0 |}).

(** The end of an iteration of [job_logs], from the [_connection_lost] test
    on. *)
Definition job_logs_closing (env : CycleEnv) (s : JobLogsSession)
    (job : ExperimentJob) (num_message_retries : Z) (w : World)
    : World * Outcome JobLogsSession :=
  let consumer := jl_consumer s in
  let '(w, should_quite) :=
    if _connection_lost env
    then (consumer_remove_sockets consumer {[jl_ws s]} w, true)
    else (w, jl_should_quite s) in
  let '(w, should_quite) :=
    if bool_decide (consumer_ws consumer w = ∅)
    then (with_redis (remove_job_logs (jl_job_uuid s)) w, true)
    else (w, should_quite) in
  if should_quite
  then (w, Return)
  else (w, Sleep {| jl_ws := jl_ws s; jl_job := job;
                    jl_job_uuid := jl_job_uuid s; jl_consumer := consumer;
                    jl_should_quite := should_quite;
                    jl_num_message_retries := num_message_retries |}).

(** One iteration of the [while True] loop of [job_logs]. *)
Definition job_logs_cycle (env : CycleEnv) (s : JobLogsSession) (w : World)
    : World * Outcome JobLogsSession :=
  let consumer := jl_consumer s in
  let num_message_retries := jl_num_message_retries s + 1 in
  let '(num_message_retries, w) :=
    drain env consumer 0 (get_messages env) num_message_retries w in
  if bool_decide (num_message_retries > MAX_RETRIES)
  then
    match refresh_job_from_db (env_db env) (jl_job s) with
    | None => (w, Uncaught)
    | Some job =>
        if job_is_done job
        then job_logs_closing env s job num_message_retries
               (consumer_set_ws consumer ∅ w)
        else job_logs_closing env s job (num_message_retries - CHECK_DELAY) w
    end
  else job_logs_closing env s (jl_job s) num_message_retries w.

(** ** [experiment_logs] *)

Record ExperimentLogsSession := {
  el_ws : conn;
  el_experiment : Experiment;
  el_experiment_uuid : string;
  el_consumer : ref;
  el_should_quite : bool;
  el_num_message_retries : Z
}.

Definition experiment_logs_setup (settings : Settings) (db : DB)
    (request : Request) (ws : conn) (username project_name' : string)
    (experiment_id' : string) (w : World)
    : result (World * ExperimentLogsSession) :=
  project ← _get_project db username project_name';
  let _ := if negb (has_project_permissions db (request_app_user request)
                      project "GET")
           then Some (Forbidden "You don't have access to this project")
           else None in
  experiment ← _get_running_experiment db project experiment_id';
  let experiment_uuid := experiment_uuid_hex experiment in
  let w := auditor_record EXPERIMENT_LOGS_VIEWED experiment_uuid
             (user_id (request_app_user request)) w in
  let w := ensure_monitored monitored_experiment_logs monitor_experiment_logs
             experiment_uuid w in
  let '(consumer, w) :=
    match experiment_logs_consumers (app w) !! experiment_uuid with
    | Some consumer => (consumer, w)
    | None =>
        let '(consumer, w) :=
          Consumer_new
            (RoutingKeys_LOGS_SIDECARS settings +:+ "." +:+ experiment_uuid
               +:+ ".*")
            (CeleryQueues_STREAM_LOGS_SIDECARS settings +:+ "."
               +:+ experiment_uuid)
            w in
        let w := with_app (λ a, set_experiment_logs_consumers
                                  (<[experiment_uuid := consumer]>
                                     (experiment_logs_consumers a)) a) w in
        (consumer, consumer_run consumer w)
    end in
  let w := consumer_add_socket consumer ws w in
  Ok (w, {| el_ws := ws; el_experiment := experiment;
            el_experiment_uuid := experiment_uuid; el_consumer := consumer;
            el_should_quite := false; el_num_message_retries := 0 |}).

Definition experiment_logs_closing (env : CycleEnv)
    (s : ExperimentLogsSession) (experiment : Experiment)
    (num_message_retries : Z) (w : World)
    : World * Outcome ExperimentLogsSession :=
  let consumer := el_consumer s in
  let '(w, should_quite) :=
    if _connection_lost env
    then (consumer_remove_sockets consumer {[el_ws s]} w, true)
    else (w, el_should_quite s) in
  let '(w, should_quite) :=
    if bool_decide (consumer_ws consumer w = ∅)
    then (with_redis (remove_experiment_logs (el_experiment_uuid s)) w, true)
    else (w, should_quite) in
  if should_quite
  then (w, Return)
  else (w, Sleep {| el_ws := el_ws s; el_experiment := experiment;
                    el_experiment_uuid := el_experiment_uuid s;
                    el_consumer := consumer;
                    el_should_quite := should_quite;
                    el_num_message_retries := num_message_retries |}).

(** One iteration of the [while True] loop of [experiment_logs]. *)
Definition experiment_logs_cycle (env : CycleEnv) (s : ExperimentLogsSession)
    (w : World) : World * Outcome ExperimentLogsSession :=
  let consumer := el_consumer s in
  let num_message_retries := el_num_message_retries s + 1 in
  let '(num_message_retries, w) :=
    drain env consumer 0 (get_messages env) num_message_retries w in
  if bool_decide (num_message_retries > MAX_RETRIES)
  then
    match refresh_experiment_from_db (env_db env) (el_experiment s) with
    | None => (w, Uncaught)
    | Some experiment =>
        if experiment_is_done experiment
        then experiment_logs_closing env s experiment num_message_retries
               (consumer_set_ws consumer ∅ w)
        else experiment_logs_closing env s experiment
               (num_message_retries - CHECK_DELAY) w
    end
  else experiment_logs_closing env s (el_experiment s) num_message_retries w.

(** ** The server listeners *)

(** [notify_server_started]: the four tables, empty. *)
Definition notify_server_started (w : World) : World :=
  with_app (λ a,
    {| job_resources_ws_mangers := ∅;
       experiment_resources_ws_mangers := ∅;
       job_logs_consumers := ∅;
       experiment_logs_consumers := ∅;
       experiment_resources_ws_manger := experiment_resources_ws_manger a |}) w.

(** [consumer = app.job_logs_consumers.pop(consumer_key, None);
    consumer.stop()] *)
Definition stop_job_logs_consumer (w : World) (consumer_key : string)
    : World :=
  match job_logs_consumers (app w) !! consumer_key with
  | Some consumer =>
      consumer_stop consumer
        (with_app (λ a, set_job_logs_consumers
                          (delete consumer_key (job_logs_consumers a)) a) w)
  | None => w
  end.

Definition stop_experiment_logs_consumer (w : World) (consumer_key : string)
    : World :=
  match experiment_logs_consumers (app w) !! consumer_key with
  | Some consumer =>
      consumer_stop consumer
        (with_app (λ a, set_experiment_logs_consumers
                          (delete consumer_key (experiment_logs_consumers a))
                          a) w)
  | None => w
  end.

(** [notify_server_stopped]: two assignments, then the two loops over
    [list(....keys())]. *)
Definition notify_server_stopped (w : World) : World :=
  let w := with_app (set_job_resources_ws_mangers ∅) w in
  let w := with_app (set_experiment_resources_ws_manger ∅) w in
  let consumer_keys := (map_to_list (job_logs_consumers (app w))).*1 in
  let w := foldl stop_job_logs_consumer w consumer_keys in
  let consumer_keys := (map_to_list (experiment_logs_consumers (app w))).*1 in
  foldl stop_experiment_logs_consumer w consumer_keys.

(** ** A small deployment, used to run the handlers *)

Module Fixture.

Definition alice : User := {| user_id := 1; user_username := "alice" |}.
Definition mallory : User := {| user_id := 2; user_username := "mallory" |}.

Definition mnist : Project :=
  {| project_id := 1; project_name := "mnist";
     project_user__username := "alice" |}.

Definition e10 (is_running is_done : bool) : Experiment :=
  {| experiment_id := 10; experiment_project := 1;
     experiment_uuid_hex := "e10"; experiment_unique_name := "alice.mnist.10";
     experiment_is_running := is_running; experiment_is_done := is_done |}.

Definition j100 (is_running is_done : bool) : ExperimentJob :=
  {| job_id := 100; job_experiment := 10; job_uuid_hex := "j100";
     job_role := "master"; job_is_running := is_running;
     job_is_done := is_done |}.

Definition j101 : ExperimentJob :=
  {| job_id := 101; job_experiment := 10; job_uuid_hex := "j101";
     job_role := "worker"; job_is_running := true; job_is_done := false |}.

(** Only the owner may read the project. *)
Definition owner_only (u : User) (p : Project) (method : string) : bool :=
  bool_decide (user_username u = project_user__username p).

(** Everything is running. *)
Definition db_running : DB :=
  {| Project_objects := [mnist];
     Experiment_objects := [e10 true false];
     ExperimentJob_objects := [j100 true false];
     has_project_permissions := owner_only |}.

(** The experiment and its job have finished. *)
Definition db_done : DB :=
  {| Project_objects := [mnist];
     Experiment_objects := [e10 false true];
     ExperimentJob_objects := [j100 false true];
     has_project_permissions := owner_only |}.

(** The experiment runs, its job has finished. *)
Definition db_job_done : DB :=
  {| Project_objects := [mnist];
     Experiment_objects := [e10 true false];
     ExperimentJob_objects := [j100 false true];
     has_project_permissions := owner_only |}.

(** A second job has joined the running experiment. *)
Definition db_two_jobs : DB :=
  {| Project_objects := [mnist];
     Experiment_objects := [e10 true false];
     ExperimentJob_objects := [j100 true false; j101];
     has_project_permissions := owner_only |}.

Definition settings : Settings :=
  {| RoutingKeys_LOGS_SIDECARS := "logs.sidecars";
     CeleryQueues_STREAM_LOGS_SIDECARS := "stream.logs.sidecars" |}.

Definition as_alice : Request := {| request_app_user := alice |}.
Definition as_mallory : Request := {| request_app_user := mallory |}.

Definition blank : World :=
  {| app := {| job_resources_ws_mangers := ∅;
               experiment_resources_ws_mangers := ∅;
               job_logs_consumers := ∅;
               experiment_logs_consumers := ∅;
               experiment_resources_ws_manger := None |};
     socket_managers := []; consumers := [];
     redis := {| monitored_job_resources := ∅;
                 monitored_experiment_resources := ∅;
                 monitored_job_logs := ∅;
                 monitored_experiment_logs := ∅ |};
     audit := []; sent := []; cache_reads := [] |}.

(** The server, just started. *)
Definition started : World := notify_server_started blank.

(** An iteration's environment: the database, the cache's snapshot (the
    same for every key), the drained messages, the connections whose peer
    is gone, and the handler's [_connection_lost]. *)
Definition cycle (db : DB) (snapshot : option string)
    (messages : list string) (gone : list conn) (lost : bool) : CycleEnv :=
  {| env_db := db;
     latest_job_resources := λ _ _, snapshot;
     latest_experiment_resources := λ _, snapshot;
     get_messages := messages;
     ConnectionClosed := λ _ c, bool_decide (c ∈ gone);
     _connection_lost := lost |}.

End Fixture.


(** ** Running a handler for several iterations *)

Fixpoint job_resources_run (envs : list CycleEnv) (s : JobResourcesSession)
    (w : World) : World * Outcome JobResourcesSession :=
  match envs with
  | [] => (w, Sleep s)
  | env :: envs =>
      match job_resources_cycle env s w with
      | (w, Sleep s) => job_resources_run envs s w
      | stopped => stopped
      end
  end.

Fixpoint experiment_resources_run (envs : list CycleEnv)
    (s : ExperimentResourcesSession) (w : World)
    : World * Outcome ExperimentResourcesSession :=
  match envs with
  | [] => (w, Sleep s)
  | env :: envs =>
      match experiment_resources_cycle env s w with
      | (w, Sleep s) => experiment_resources_run envs s w
      | stopped => stopped
      end
  end.

(** ** The gateway: the world and the handlers that are asleep

    Handlers are cooperative tasks on one event loop.  A handler's setup has
    no suspension point, so it is one step; an iteration of a loop is taken
    as one step as well. *)

Inductive Session :=
  | JobResources (s : JobResourcesSession)
  | ExperimentResources (s : ExperimentResourcesSession)
  | JobLogs (s : JobLogsSession)
  | ExperimentLogs (s : ExperimentLogsSession).

Record Gateway := {
  world : World;
  sessions : gmap conn Session
}.

Inductive Event :=
  | ConnectJobResources (db : DB) (request : Request) (ws : conn)
      (username project_name' : string) (experiment_id' job_id' : string)
  | ConnectExperimentResources (db : DB) (request : Request) (ws : conn)
      (username project_name' : string) (experiment_id' : string)
  | ConnectJobLogs (settings : Settings) (db : DB) (request : Request)
      (ws : conn) (username project_name' : string)
      (experiment_id' job_id' : string)
  | ConnectExperimentLogs (settings : Settings) (db : DB) (request : Request)
      (ws : conn) (username project_name' : string) (experiment_id' : string)
  | Wake (ws : conn) (env : CycleEnv).

(** A handler that got through its setup goes to sleep on its connection; a
    handler that raised leaves the gateway as it found it. *)
Definition accept {S : Type} (inj : S → Session) (ws : conn) (g : Gateway)
    (r : result (World * S)) : Gateway :=
  match r with
  | Ok (w, s) => {| world := w; sessions := <[ws := inj s]> (sessions g) |}
  | Raise _ => g
  end.

(** A handler that reached [asyncio.sleep] stays; one that returned or
    died is gone. *)
Definition settle {S : Type} (inj : S → Session) (ws : conn) (g : Gateway)
    (r : World * Outcome S) : Gateway :=
  match r.2 with
  | Sleep s => {| world := r.1; sessions := <[ws := inj s]> (sessions g) |}
  | Return | Uncaught =>
      {| world := r.1; sessions := delete ws (sessions g) |}
  end.

Definition connection_of (ev : Event) : conn :=
  match ev with
  | ConnectJobResources _ _ ws _ _ _ _
  | ConnectExperimentResources _ _ ws _ _ _
  | ConnectJobLogs _ _ _ ws _ _ _ _
  | ConnectExperimentLogs _ _ _ ws _ _ _
  | Wake ws _ => ws
  end.

(** One step of the gateway.  A connection handle belongs to one handler:
    a connect on a handle that is in use is not an event of the system. *)
Definition step (g : Gateway) (ev : Event) : Gateway :=
  match ev with
  | Wake ws env =>
      match sessions g !! ws with
      | Some (JobResources s) =>
          settle JobResources ws g (job_resources_cycle env s (world g))
      | Some (ExperimentResources s) =>
          settle ExperimentResources ws g
            (experiment_resources_cycle env s (world g))
      | Some (JobLogs s) =>
          settle JobLogs ws g (job_logs_cycle env s (world g))
      | Some (ExperimentLogs s) =>
          settle ExperimentLogs ws g (experiment_logs_cycle env s (world g))
      | None => g
      end
  | _ =>
      if bool_decide (is_Some (sessions g !! connection_of ev)) then g
      else
        match ev with
        | ConnectJobResources db request ws u p e j =>
            accept JobResources ws g
              (job_resources_setup db request ws u p e j (world g))
        | ConnectExperimentResources db request ws u p e =>
            accept ExperimentResources ws g
              (experiment_resources_setup db request ws u p e (world g))
        | ConnectJobLogs settings db request ws u p e j =>
            accept JobLogs ws g
              (job_logs_setup settings db request ws u p e j (world g))
        | ConnectExperimentLogs settings db request ws u p e =>
            accept ExperimentLogs ws g
              (experiment_logs_setup settings db request ws u p e (world g))
        | Wake _ _ => g
        end
  end.

Definition run (g : Gateway) (evs : list Event) : Gateway := foldl step g evs.

(** The four kinds of stream, the table of each, and what a sleeping
    handler holds: its kind, its key and the shared object it captured. *)
Inductive Kind :=
  | JOB_RESOURCES
  | EXPERIMENT_RESOURCES
  | JOB_LOGS
  | EXPERIMENT_LOGS.

#[global] Instance Kind_eq_dec : EqDecision Kind.
Proof. solve_decision. Defined.

Definition table (k : Kind) (a : App) : gmap string ref :=
  match k with
  | JOB_RESOURCES => job_resources_ws_mangers a
  | EXPERIMENT_RESOURCES => experiment_resources_ws_mangers a
  | JOB_LOGS => job_logs_consumers a
  | EXPERIMENT_LOGS => experiment_logs_consumers a
  end.


Definition key_of (x : Session) : string :=
  match x with
  | JobResources s => jr_job_uuid s
  | ExperimentResources s => er_experiment_uuid s
  | JobLogs s => jl_job_uuid s
  | ExperimentLogs s => el_experiment_uuid s
  end.



(** ** Scenarios on the small deployment *)

Module Scenario.
Import Fixture.

(** The gateway at server start: no handler yet. *)
Definition boot : Gateway := {| world := started; sessions := ∅ |}.

Definition logs_of_j100 (ws : conn) : Event :=
  ConnectJobLogs settings db_running as_alice ws "alice" "mnist" "10" "100".
Definition logs_of_e10 (ws : conn) : Event :=
  ConnectExperimentLogs settings db_running as_alice ws "alice" "mnist" "10".
Definition resources_of_j100 (ws : conn) : Event :=
  ConnectJobResources db_running as_alice ws "alice" "mnist" "10" "100".
Definition resources_of_e10 (ws : conn) : Event :=
  ConnectExperimentResources db_running as_alice ws "alice" "mnist" "10".

(** The locals of the handler serving connection [ws] on the logs of job
    [j100], with the given retry counter. *)
Definition job_logs_locals (ws : conn) (retries : Z) : JobLogsSession :=
  {| jl_ws := ws; jl_job := j100 true false; jl_job_uuid := "j100";
     jl_consumer := 0; jl_should_quite := false;
     jl_num_message_retries := retries |}.

Definition experiment_logs_locals (ws : conn) (retries : Z)
    : ExperimentLogsSession :=
  {| el_ws := ws; el_experiment := e10 true false;
     el_experiment_uuid := "e10"; el_consumer := 0;
     el_should_quite := false; el_num_message_retries := retries |}.

Definition job_resources_locals (ws : conn) (should_check : Z)
    : JobResourcesSession :=
  {| jr_ws := ws; jr_job := j100 true false; jr_job_uuid := "j100";
     jr_job_name := "master.100"; jr_ws_manager := 0;
     jr_should_check := should_check |}.

Definition experiment_resources_locals (ws : conn) (should_check : Z)
    : ExperimentResourcesSession :=
  {| er_ws := ws; er_experiment := e10 true false;
     er_experiment_uuid := "e10"; er_ws_manager := 0;
     er_jobs := [ {| entry_uuid := "j100"; entry_name := "master.100" |} ];
     er_should_check := should_check |}.

(** Two viewers on the logs of [j100], two on its resources. *)
Definition two_log_viewers : Gateway :=
  run boot [logs_of_j100 5; logs_of_j100 6].
Definition two_resource_viewers : Gateway :=
  run boot [resources_of_j100 5; resources_of_j100 6].

(** The only viewer of the logs of [j100] is there, then has left. *)
Definition one_log_viewer : Gateway := run boot [logs_of_j100 5].
Definition last_log_viewer_leaves : World * Outcome JobLogsSession :=
  job_logs_cycle (cycle db_running None [] [] true) (job_logs_locals 5 0)
    (world one_log_viewer).
Definition last_log_viewer_left : Gateway :=
  run boot [logs_of_j100 5; Wake 5 (cycle db_running None [] [] true)].

(** An iteration in which the cache has a snapshot and the peers in
    [gone] have closed, on the given database. *)
Definition with_snapshot (db : DB) (gone : list conn) : CycleEnv :=
  cycle db (Some "cpu=1") [] gone false.


(** One viewer on each of the four streams. *)
Definition four_streams : Gateway :=
  run boot [logs_of_j100 5; logs_of_e10 6; resources_of_j100 7;
            resources_of_e10 8].

End Scenario.

(** ** Vocabulary of the properties *)

(** Whether two exceptions are of the same class.  The class is what an
    [except] clause selects by, and what the response to the client goes
    by: [NotFound] is answered with status 404 whatever its message. *)
Definition same_class (e1 e2 : Exception) : bool :=
  match e1, e2 with
  | NotFound _, NotFound _
  | Forbidden _, Forbidden _
  | ValueError, ValueError
  | OverflowError, OverflowError => true
  | _, _ => false
  end.

(** The counter that the liveness check of a log handler reads: one more
    than before when the drain was empty, zero when it was not. *)
Definition retries_after_drain (env : CycleEnv) (before : Z) : Z :=
  if get_messages env is [] then before + 1 else 0.

(** The counter a resource handler carries into its next iteration, and
    whether the iteration re-reads the status: neither looks at what the
    cache returned. *)
Definition should_check_after (before : Z) : Z :=
  if bool_decide (before + 1 > RESOURCES_CHECK)
  then before + 1 - CHECK_DELAY
  else before + 1.

(** From [w] to [w'] only group memberships of consumers, cache marks and
    the transport's log have changed: the tables, the socket managers, the
    audit trail, the number of consumers and the state of each subscription
    are as before. *)
Definition log_footprint (w w' : World) : Prop :=
  app w' = app w
  ∧ socket_managers w' = socket_managers w
  ∧ audit w' = audit w
  ∧ cache_reads w' = cache_reads w
  ∧ length (consumers w') = length (consumers w)
  ∧ ∀ c, consumer_running c w' = consumer_running c w.

(** Whether the liveness check of this iteration finds the row done. *)
Definition job_found_done (env : CycleEnv) (s : JobResourcesSession) : bool :=
  bool_decide (jr_should_check s + 1 > RESOURCES_CHECK)
  && from_option job_is_done false
       (refresh_job_from_db (env_db env) (jr_job s)).

Definition experiment_found_done (env : CycleEnv)
    (s : ExperimentResourcesSession) : bool :=
  bool_decide (er_should_check s + 1 > RESOURCES_CHECK)
  && from_option experiment_is_done false
       (refresh_experiment_from_db (env_db env) (er_experiment s)).







(** Entries are kept, members are kept, the store of socket managers does
    not shrink. *)
Definition grows (w w' : World) : Prop :=
  (∀ K k r, table K (app w) !! k = Some r → table K (app w') !! k = Some r)
  ∧ (∀ m ws, ws ∈ manager_ws m w → ws ∈ manager_ws m w')
  ∧ (length (socket_managers w) ≤ length (socket_managers w'))%nat.

(** ** Vocabulary of the further properties *)

(** The cache marks of a stream kind. *)
Definition monitored (K : Kind) (r : RedisToStream) : gset string :=
  match K with
  | JOB_RESOURCES => monitored_job_resources r
  | EXPERIMENT_RESOURCES => monitored_experiment_resources r
  | JOB_LOGS => monitored_job_logs r
  | EXPERIMENT_LOGS => monitored_experiment_logs r
  end.

(** What the setup of a handler of kind [K] leaves behind, besides the
    shared object: one more audit record, the key marked in the cache of
    its kind, nothing sent and nothing asked of the cache. *)
Definition setup_effects (K : Kind) (e : EventType) (k : string)
    (actor : nat) (w w' : World) : Prop :=
  audit w' = audit w ++ [ {| event_type := e; instance_uuid := k;
                             actor_id := actor |} ]
  ∧ (∀ K', monitored K' (redis w')
           = if decide (K' = K) then {[k]} ∪ monitored K' (redis w)
             else monitored K' (redis w))
  ∧ sent w' = sent w
  ∧ cache_reads w' = cache_reads w.

(** Each of the four handlers, called with these arguments, raises [e] in
    its setup, and the connect leaves the gateway as it was: no audit
    record, no mark, no shared object, no table entry, no sleeping
    handler. *)
Definition refused_with (settings : Settings) (db : DB) (request : Request)
    (ws : conn) (username project_name' : string)
    (experiment_id' job_id' : string) (g : Gateway) (e : Exception) : Prop :=
  job_resources_setup db request ws username project_name' experiment_id'
    job_id' (world g) = Raise e
  ∧ experiment_resources_setup db request ws username project_name'
      experiment_id' (world g) = Raise e
  ∧ job_logs_setup settings db request ws username project_name'
      experiment_id' job_id' (world g) = Raise e
  ∧ experiment_logs_setup settings db request ws username project_name'
      experiment_id' (world g) = Raise e
  ∧ step g (ConnectJobResources db request ws username project_name'
              experiment_id' job_id') = g
  ∧ step g (ConnectExperimentResources db request ws username
              project_name' experiment_id') = g
  ∧ step g (ConnectJobLogs settings db request ws username project_name'
              experiment_id' job_id') = g
  ∧ step g (ConnectExperimentLogs settings db request ws username
              project_name' experiment_id') = g.

(** The counter a resource handler holds after [n] iterations of its loop:
    it climbs to 7, and from the eighth iteration on cycles through
    3, 4, 5, 6, 7. *)
Definition should_check_at (n : nat) : Z :=
  if decide (n ≤ 7)%nat then Z.of_nat n
  else 3 + (Z.of_nat n - 8) `mod` 5.

(** The payloads handed to the transport for the connection [ws], in the
    order of the sends. *)
Definition received (ws : conn) (l : list (conn * string)) : list string :=
  (filter (λ x, x.1 = ws) l).*2.

(** From [w] to [w1] nothing has changed but the two tables of log
    consumers and the state of subscriptions, and no subscription has been
    started. *)
Definition stop_footprint (w w1 : World) : Prop :=
  job_resources_ws_mangers (app w1) = job_resources_ws_mangers (app w)
  ∧ experiment_resources_ws_mangers (app w1)
    = experiment_resources_ws_mangers (app w)
  ∧ experiment_resources_ws_manger (app w1)
    = experiment_resources_ws_manger (app w)
  ∧ socket_managers w1 = socket_managers w
  ∧ redis w1 = redis w
  ∧ (∀ c, consumer_ws c w1 = consumer_ws c w)
  ∧ (∀ c, consumer_running c w1 = true → consumer_running c w = true).

(** The audit event a connect stands for, and its actor; an iteration
    stands for none. *)
Definition viewed (ev : Event) : option (EventType * nat) :=
  match ev with
  | ConnectJobResources _ request _ _ _ _ _ =>
      Some (EXPERIMENT_JOB_RESOURCES_VIEWED,
            user_id (request_app_user request))
  | ConnectExperimentResources _ request _ _ _ _ =>
      Some (EXPERIMENT_RESOURCES_VIEWED, user_id (request_app_user request))
  | ConnectJobLogs _ _ request _ _ _ _ _ =>
      Some (EXPERIMENT_JOB_LOGS_VIEWED, user_id (request_app_user request))
  | ConnectExperimentLogs _ _ request _ _ _ _ =>
      Some (EXPERIMENT_LOGS_VIEWED, user_id (request_app_user request))
  | Wake _ _ => None
  end.

(** * [db/models/plugins.py]: numbering of plugin jobs

    [TensorboardJob] and [NotebookJob] override [save] with the same body,
    each on the table of its own class.  The fields of an instance that
    [save] and [unique_name] use: the primary key ([None] until the instance
    is first saved), the project, the field [sequence] of the base model
    ([None] until set) and, standing for the columns [save] does not look
    at, the compiled configuration. *)

Inductive PluginClass :=
  | TensorboardJob
  | NotebookJob.

Record PluginJob := {
  plugin_pk : option nat;
  plugin_project : Project;
  plugin_sequence : option nat;
  plugin_config : string
}.

Definition plugin_set_pk (pk : option nat) (job : PluginJob) : PluginJob :=
  {| plugin_pk := pk; plugin_project := plugin_project job;
     plugin_sequence := plugin_sequence job;
     plugin_config := plugin_config job |}.

Definition plugin_set_sequence (sequence : option nat) (job : PluginJob) :
    PluginJob :=
  {| plugin_pk := plugin_pk job; plugin_project := plugin_project job;
     plugin_sequence := sequence; plugin_config := plugin_config job |}.

Definition plugin_set_config (config : string) (job : PluginJob) : PluginJob :=
  {| plugin_pk := plugin_pk job; plugin_project := plugin_project job;
     plugin_sequence := plugin_sequence job; plugin_config := config |}.

(** The table of one class: its rows in the order of their primary keys (the
    order [.last()] uses on a queryset without an ordering of its own), and
    the next key of the table's key sequence. *)
Record PluginTable := {
  plugin_rows : list PluginJob;
  plugin_next_pk : nat
}.

Definition no_plugin_jobs : PluginTable :=
  {| plugin_rows := []; plugin_next_pk := 1 |}.

Inductive SaveError :=
  | TypeError
  | IntegrityError.

(** [objects.filter(project=project)]: the rows whose foreign key is the
    project's primary key. *)
Definition objects_filter (project : Project) (t : PluginTable) :
    list PluginJob :=
  filter (λ row, project_id (plugin_project row) = project_id project)
         (plugin_rows t).

(** [objects.filter(pk=pk).first()] *)
Definition objects_get (pk : nat) (t : PluginTable) : option PluginJob :=
  head (filter (λ row, plugin_pk row = Some pk) (plugin_rows t)).

Definition pk_after (pk : nat) (row : PluginJob) : bool :=
  match plugin_pk row with
  | Some q => bool_decide (pk < q)%nat
  | None => false
  end.

(** The place of a new row among rows in the order of their keys. *)
Fixpoint insert_by_pk (pk : nat) (job : PluginJob) (rows : list PluginJob) :
    list PluginJob :=
  match rows with
  | [] => [job]
  | row :: rows' =>
      if pk_after pk row
      then job :: row :: rows'
      else row :: insert_by_pk pk job rows'
  end.

(** [models.Model.save]: the column [sequence] takes no NULL, so an instance
    without a sequence is refused with [IntegrityError]; an instance without
    a primary key is inserted under the next key of the sequence; an instance
    with one replaces the row of that key, and is inserted under it when
    there is no such row. *)
Definition Model_save (job : PluginJob) (t : PluginTable) :
    SaveError + PluginJob * PluginTable :=
  match plugin_sequence job, plugin_pk job with
  | None, _ => inl IntegrityError
  | Some _, None =>
      let pk := plugin_next_pk t in
      if objects_get pk t is Some _ then inl IntegrityError
      else
        let job := plugin_set_pk (Some pk) job in
        inr (job, {| plugin_rows := insert_by_pk pk job (plugin_rows t);
                     plugin_next_pk := S pk |})
  | Some _, Some pk =>
      if objects_get pk t is Some _
      then
        inr (job,
             {| plugin_rows :=
                  (λ row, if decide (plugin_pk row = Some pk) then job
                          else row) <$> plugin_rows t;
                plugin_next_pk := plugin_next_pk t |})
      else
        inr (job, {| plugin_rows := insert_by_pk pk job (plugin_rows t);
                     plugin_next_pk := plugin_next_pk t |})
  end.

(** [TensorboardJob.save] and [NotebookJob.save].  An instance of a model is
    true, so [if last:] asks whether the project has a row; [last.sequence +
    1] raises [TypeError] on a row without a sequence. *)
Definition plugin_save (job : PluginJob) (t : PluginTable) :
    SaveError + PluginJob * PluginTable :=
  match plugin_pk job with
  | None =>
      let last := last (objects_filter (plugin_project job) t) in
      let job := plugin_set_sequence (Some 1%nat) job in
      match last with
      | Some last =>
          match plugin_sequence last with
          | Some n => Model_save (plugin_set_sequence (Some (n + 1)%nat) job) t
          | None => inl TypeError
          end
      | None => Model_save job t
      end
  | Some _ => Model_save job t
  end.

(** ['{}'.format(self.sequence)] *)
Definition format_sequence (sequence : option nat) : string :=
  match sequence with
  | Some n => pretty n
  | None => "None"
  end.

(** The property [unique_name] of the two classes.  [project.unique_name] is
    a property of the project model, declared outside this module. *)
Definition unique_name (project_unique_name : Project → string)
    (K : PluginClass) (job : PluginJob) : string :=
  project_unique_name (plugin_project job)
  +:+ match K with
      | TensorboardJob => ".tensorboards."
      | NotebookJob => ".notebooks."
      end
  +:+ format_sequence (plugin_sequence job).

(** What a caller does to the table of a class: create a job in a project
    ([Class(project=..., config=...).save()]), load a row, change its
    configuration and save it again, and delete a row. *)
Inductive PluginOp :=
  | CreatePlugin (project : Project) (config : string)
  | UpdatePlugin (pk : nat) (config : string)
  | DeletePlugin (pk : nat).

Definition plugin_delete (pk : nat) (t : PluginTable) : PluginTable :=
  {| plugin_rows := filter (λ row, plugin_pk row ≠ Some pk) (plugin_rows t);
     plugin_next_pk := plugin_next_pk t |}.

Definition plugin_create (project : Project) (config : string)
    (t : PluginTable) : SaveError + PluginJob * PluginTable :=
  plugin_save {| plugin_pk := None; plugin_project := project;
                 plugin_sequence := None; plugin_config := config |} t.

(** An operation that raises leaves the table as it was. *)
Definition plugin_step (t : PluginTable) (op : PluginOp) : PluginTable :=
  match op with
  | CreatePlugin project config =>
      match plugin_create project config t with
      | inr (_, t') => t'
      | inl _ => t
      end
  | UpdatePlugin pk config =>
      match objects_get pk t with
      | Some row =>
          match plugin_save (plugin_set_config config row) t with
          | inr (_, t') => t'
          | inl _ => t
          end
      | None => t
      end
  | DeletePlugin pk => plugin_delete pk t
  end.

Definition plugin_history (ops : list PluginOp) : PluginTable :=
  foldl plugin_step no_plugin_jobs ops.

(** The rows of a table are numbered when they stand in the order of their
    keys, all below the next key, and within a project in the order of their
    sequences, which start at one. *)
Definition plugin_before (a b : PluginJob) : Prop :=
  (∃ p q, plugin_pk a = Some p ∧ plugin_pk b = Some q ∧ (p < q)%nat) ∧
  (project_id (plugin_project a) = project_id (plugin_project b) →
   ∃ m n, plugin_sequence a = Some m ∧ plugin_sequence b = Some n ∧
          (m < n)%nat).

Definition plugin_stored (next_pk : nat) (row : PluginJob) : Prop :=
  (∃ p, plugin_pk row = Some p ∧ (p < next_pk)%nat) ∧
  (∃ n, plugin_sequence row = Some n ∧ (1 ≤ n)%nat).

Definition numbered (t : PluginTable) : Prop :=
  StronglySorted plugin_before (plugin_rows t) ∧
  Forall (plugin_stored (plugin_next_pk t)) (plugin_rows t).

(** * Properties *)

Import Fixture Scenario.

(** ** Rejections at setup *)

(** C1.  A viewer without GET permission on the project is not rejected: the
    handlers build the [Forbidden] exception and do not raise it.  In the
    running deployment, where only the owner may read the project, each of
    the four handlers, called by mallory on alice's project, gets through
    its setup: the view is recorded in the audit trail, the shared object for
    the key is built and registered, and mallory's connection is a member of
    its group. *)
Theorem forbidden_viewer_is_attached :
  has_project_permissions db_running mallory mnist "GET" = false
  ∧ (∃ w s,
       job_resources_setup db_running as_mallory 5 "alice" "mnist" "10" "100"
         started = Ok (w, s)
       ∧ audit w = [ {| event_type := EXPERIMENT_JOB_RESOURCES_VIEWED;
                        instance_uuid := "j100"; actor_id := 2 |} ]
       ∧ job_resources_ws_mangers (app w) !! "j100" = Some (jr_ws_manager s)
       ∧ manager_ws (jr_ws_manager s) w = {[5%nat]})
  ∧ (∃ w s,
       experiment_resources_setup db_running as_mallory 5 "alice" "mnist" "10"
         started = Ok (w, s)
       ∧ audit w = [ {| event_type := EXPERIMENT_RESOURCES_VIEWED;
                        instance_uuid := "e10"; actor_id := 2 |} ]
       ∧ experiment_resources_ws_mangers (app w) !! "e10"
         = Some (er_ws_manager s)
       ∧ manager_ws (er_ws_manager s) w = {[5%nat]})
  ∧ (∃ w s,
       job_logs_setup settings db_running as_mallory 5 "alice" "mnist" "10" "100"
         started = Ok (w, s)
       ∧ audit w = [ {| event_type := EXPERIMENT_JOB_LOGS_VIEWED;
                        instance_uuid := "j100"; actor_id := 2 |} ]
       ∧ job_logs_consumers (app w) !! "j100" = Some (jl_consumer s)
       ∧ consumer_running (jl_consumer s) w = true
       ∧ consumer_ws (jl_consumer s) w = {[5%nat]})
  ∧ (∃ w s,
       experiment_logs_setup settings db_running as_mallory 5 "alice" "mnist"
         "10" started = Ok (w, s)
       ∧ audit w = [ {| event_type := EXPERIMENT_LOGS_VIEWED;
                        instance_uuid := "e10"; actor_id := 2 |} ]
       ∧ experiment_logs_consumers (app w) !! "e10" = Some (el_consumer s)
       ∧ consumer_running (el_consumer s) w = true
       ∧ consumer_ws (el_consumer s) w = {[5%nat]}).
Proof.
  split; [reflexivity|].
  repeat split; eexists _, _; (split; [vm_compute; reflexivity|]);
    repeat split; by vm_compute.
Qed.

Lemma bind_Ok {A B} (f : A → result B) (a : A) : (Ok a ≫= f) = f a.
Proof. reflexivity. Qed.

(** C8, as stated, fails: on the small deployment, a stream on the
    experiment that has finished, a stream on the job that has finished and
    a stream on an experiment that is not there are refused with [NotFound]
    all three.  It is false that the first two are of another class of
    error than the third. *)
Lemma not_running_is_refused_like_an_unknown_experiment :
  job_logs_setup settings db_done as_alice 5 "alice" "mnist" "10" "100" started
  = Raise (NotFound "Experiment was not running")
  ∧ job_logs_setup settings db_job_done as_alice 5 "alice" "mnist" "10" "100"
      started
    = Raise (NotFound "Job was not running")
  ∧ job_logs_setup settings db_running as_alice 5 "alice" "mnist" "11" "100"
      started
    = Raise (NotFound "Experiment was not found")
  ∧ ¬ (same_class (NotFound "Experiment was not running")
         (NotFound "Experiment was not found") = false
       ∨ same_class (NotFound "Job was not running")
           (NotFound "Experiment was not found") = false).
Proof.
  split; [by vm_compute|]. split; [by vm_compute|]. split; [by vm_compute|].
  intros [H|H]; discriminate H.
Qed.

(** C8.  A live stream on an experiment that exists and is not running is
    refused by each handler with [NotFound "Experiment was not running"], and
    on a job that exists and is not running, in a running experiment, with
    [NotFound "Job was not running"].  The exception is of the class that an
    unknown experiment or job is refused with, [NotFound "Experiment was not
    found"], and differs from it by its message only.  The refused connect
    changes nothing in the gateway: no audit record, no shared object, no
    table entry, no sleeping handler. *)
Theorem not_running_is_rejected_with_its_own_message
    (settings : Settings) (db : DB) (request : Request) (ws : conn)
    (username project_name' : string) (experiment_id' job_id' : string)
    (g : Gateway) (project : Project) (experiment : Experiment) :
  Project_objects_get db project_name' username = Some project →
  Experiment_objects_get db project experiment_id' = Ok (Some experiment) →
  (experiment_is_running experiment = false →
     let e := NotFound "Experiment was not running" in
     job_resources_setup db request ws username project_name' experiment_id'
       job_id' (world g) = Raise e
     ∧ experiment_resources_setup db request ws username project_name'
         experiment_id' (world g) = Raise e
     ∧ job_logs_setup settings db request ws username project_name'
         experiment_id' job_id' (world g) = Raise e
     ∧ experiment_logs_setup settings db request ws username project_name'
         experiment_id' (world g) = Raise e
     ∧ e ≠ NotFound "Experiment was not found"
     ∧ step g (ConnectJobResources db request ws username project_name'
                 experiment_id' job_id') = g
     ∧ step g (ConnectExperimentResources db request ws username
                 project_name' experiment_id') = g
     ∧ step g (ConnectJobLogs settings db request ws username project_name'
                 experiment_id' job_id') = g
     ∧ step g (ConnectExperimentLogs settings db request ws username
                 project_name' experiment_id') = g)
  ∧ (experiment_is_running experiment = true →
     ∀ job, ExperimentJob_objects_get db experiment job_id' = Ok (Some job) →
     job_is_running job = false →
     let e := NotFound "Job was not running" in
     job_resources_setup db request ws username project_name' experiment_id'
       job_id' (world g) = Raise e
     ∧ job_logs_setup settings db request ws username project_name'
         experiment_id' job_id' (world g) = Raise e
     ∧ e ≠ NotFound "Experiment was not found"
     ∧ step g (ConnectJobResources db request ws username project_name'
                 experiment_id' job_id') = g
     ∧ step g (ConnectJobLogs settings db request ws username project_name'
                 experiment_id' job_id') = g)
  ∧ (experiment_is_running experiment = true →
     ExperimentJob_objects_get db experiment job_id' = Ok None →
     let e := NotFound "Experiment was not found" in
     job_resources_setup db request ws username project_name' experiment_id'
       job_id' (world g) = Raise e
     ∧ job_logs_setup settings db request ws username project_name'
         experiment_id' job_id' (world g) = Raise e).
Proof.
  intros Hp He.
  assert (Hrun : ∀ b, experiment_is_running experiment = b →
            _get_running_experiment db project experiment_id'
            = if b then Ok experiment
              else Raise (NotFound "Experiment was not running")).
  { intros b <-. unfold _get_running_experiment, _get_experiment.
    rewrite He. simpl. by destruct (experiment_is_running experiment). }
  split; [|split].
  - intros Hr e.
    assert (H1 : job_resources_setup db request ws username project_name'
                   experiment_id' job_id' (world g) = Raise e).
    { unfold job_resources_setup, _get_project. rewrite Hp, bind_Ok.
      by rewrite (Hrun _ Hr). }
    assert (H2 : experiment_resources_setup db request ws username
                   project_name' experiment_id' (world g) = Raise e).
    { unfold experiment_resources_setup, _get_project. rewrite Hp, bind_Ok.
      by rewrite (Hrun _ Hr). }
    assert (H3 : job_logs_setup settings db request ws username project_name'
                   experiment_id' job_id' (world g) = Raise e).
    { unfold job_logs_setup, _get_project. rewrite Hp, bind_Ok.
      by rewrite (Hrun _ Hr). }
    assert (H4 : experiment_logs_setup settings db request ws username
                   project_name' experiment_id' (world g) = Raise e).
    { unfold experiment_logs_setup, _get_project. rewrite Hp, bind_Ok.
      by rewrite (Hrun _ Hr). }
    repeat split; try done; unfold step; simpl; case_bool_decide; try done.
    + by rewrite H1.
    + by rewrite H2.
    + by rewrite H3.
    + by rewrite H4.
  - intros Hr job Hj Hjr e.
    assert (H1 : job_resources_setup db request ws username project_name'
                   experiment_id' job_id' (world g) = Raise e).
    { unfold job_resources_setup, _get_project. rewrite Hp, bind_Ok.
      rewrite (Hrun _ Hr), bind_Ok. unfold _get_job. by rewrite Hj, bind_Ok, Hjr. }
    assert (H3 : job_logs_setup settings db request ws username project_name'
                   experiment_id' job_id' (world g) = Raise e).
    { unfold job_logs_setup, _get_project. rewrite Hp, bind_Ok.
      rewrite (Hrun _ Hr), bind_Ok. unfold _get_job. by rewrite Hj, bind_Ok, Hjr. }
    repeat split; try done; unfold step; simpl; case_bool_decide; try done.
    + by rewrite H1.
    + by rewrite H3.
  - intros Hr Hj e. split.
    + unfold job_resources_setup, _get_project. rewrite Hp, bind_Ok.
      rewrite (Hrun _ Hr), bind_Ok. unfold _get_job. by rewrite Hj.
    + unfold job_logs_setup, _get_project. rewrite Hp, bind_Ok.
      rewrite (Hrun _ Hr), bind_Ok. unfold _get_job. by rewrite Hj.
Qed.

Lemma not_running_is_rejected_with_its_own_message_witness :
  job_logs_setup settings db_done as_alice 5 "alice" "mnist" "10" "100" started
  = Raise (NotFound "Experiment was not running")
  ∧ job_logs_setup settings db_job_done as_alice 5 "alice" "mnist" "10" "100"
      started
    = Raise (NotFound "Job was not running").
Proof.
  split.
  - pose proof (not_running_is_rejected_with_its_own_message settings db_done as_alice 5
                  "alice" "mnist" "10" "100"
                  {| world := started; sessions := ∅ |} mnist (e10 false true)
                  eq_refl eq_refl) as [H _].
    exact (proj1 (proj2 (proj2 (H eq_refl)))).
  - pose proof (not_running_is_rejected_with_its_own_message settings db_job_done
                  as_alice 5 "alice" "mnist" "10" "100"
                  {| world := started; sessions := ∅ |} mnist (e10 true false)
                  eq_refl eq_refl) as [_ [H _]].
    exact (proj1 (proj2 (H eq_refl (j100 false true) eq_refl eq_refl))).
Defined.

(** ** The retry counter of the log handlers *)

Lemma consumer_ws_alter (f : Consumer → Consumer) (c c' : ref) (w : World) :
  (∀ o, c_ws (f o) = c_ws o) →
  consumer_ws c' (consumer_alter f c w) = consumer_ws c' w.
Proof.
  intros Hf. unfold consumer_ws, consumer_alter. simpl.
  destruct (decide (c = c')) as [->|Hne].
  - rewrite list_lookup_alter_eq. destruct (_ !! _); simpl; [apply Hf|done].
  - by rewrite list_lookup_alter_ne.
Qed.

Lemma consumer_ws_set_ws (c : ref) (s : gset conn) (w : World) :
  consumer_ws c (consumer_set_ws c s w)
  = if consumers w !! c is Some _ then s else ∅.
Proof.
  unfold consumer_ws, consumer_set_ws, consumer_alter. simpl.
  rewrite list_lookup_alter_eq. by destruct (_ !! _).
Qed.

Lemma consumer_ws_set_ws_empty (c : ref) (w : World) :
  consumer_ws c (consumer_set_ws c ∅ w) = ∅.
Proof. rewrite consumer_ws_set_ws. by destruct (_ !! _). Qed.

Lemma consumer_ws_remove_sockets (c : ref) (d : gset conn) (w : World) :
  consumer_ws c (consumer_remove_sockets c d w) = consumer_ws c w ∖ d.
Proof.
  unfold consumer_remove_sockets. rewrite consumer_ws_set_ws.
  unfold consumer_ws. destruct (_ !! _); simpl; [done|].
  apply set_eq. intros x. rewrite elem_of_difference, elem_of_empty. tauto.
Qed.

Lemma consumer_ws_with_redis (c : ref) f (w : World) :
  consumer_ws c (with_redis f w) = consumer_ws c w.
Proof. reflexivity. Qed.

Lemma drain_counter env c i messages n w :
  (drain env c i messages n w).1 = if messages is [] then n else 0.
Proof.
  destruct messages as [|m messages]; [done|]. simpl.
  generalize (fan_out env c i m w) (S i). clear.
  induction messages as [|m' messages IH]; intros w i; [done|]. simpl. apply IH.
Qed.

(** How an iteration of [job_logs] ends, given what is left to do after the
    liveness check. *)
Lemma job_logs_closing_spec env s job n w :
  let c := jl_consumer s in
  let w1 := if _connection_lost env
            then consumer_remove_sockets c {[jl_ws s]} w else w in
  let empty := bool_decide (consumer_ws c w1 = ∅) in
  job_logs_closing env s job n w
  = (if empty then with_redis (remove_job_logs (jl_job_uuid s)) w1 else w1,
     if _connection_lost env || jl_should_quite s || empty then Return
     else Sleep {| jl_ws := jl_ws s; jl_job := job;
                   jl_job_uuid := jl_job_uuid s; jl_consumer := c;
                   jl_should_quite := false;
                   jl_num_message_retries := n |}).
Proof.
  unfold job_logs_closing. simpl.
  destruct (_connection_lost env); simpl.
  - by case_bool_decide.
  - case_bool_decide; simpl; [by rewrite orb_true_r|].
    rewrite orb_false_r. by destruct (jl_should_quite s).
Qed.

Lemma experiment_logs_closing_spec env s experiment n w :
  let c := el_consumer s in
  let w1 := if _connection_lost env
            then consumer_remove_sockets c {[el_ws s]} w else w in
  let empty := bool_decide (consumer_ws c w1 = ∅) in
  experiment_logs_closing env s experiment n w
  = (if empty then with_redis (remove_experiment_logs (el_experiment_uuid s)) w1
     else w1,
     if _connection_lost env || el_should_quite s || empty then Return
     else Sleep {| el_ws := el_ws s; el_experiment := experiment;
                   el_experiment_uuid := el_experiment_uuid s;
                   el_consumer := c; el_should_quite := false;
                   el_num_message_retries := n |}).
Proof.
  unfold experiment_logs_closing. simpl.
  destruct (_connection_lost env); simpl.
  - by case_bool_decide.
  - case_bool_decide; simpl; [by rewrite orb_true_r|].
    rewrite orb_false_r. by destruct (el_should_quite s).
Qed.

Lemma job_logs_cycle_unfold env s w :
  let n := retries_after_drain env (jl_num_message_retries s) in
  let w1 := (drain env (jl_consumer s) 0 (get_messages env)
               (jl_num_message_retries s + 1) w).2 in
  job_logs_cycle env s w
  = if bool_decide (n > MAX_RETRIES)
    then match refresh_job_from_db (env_db env) (jl_job s) with
         | None => (w1, Uncaught)
         | Some job =>
             if job_is_done job
             then job_logs_closing env s job n
                    (consumer_set_ws (jl_consumer s) ∅ w1)
             else job_logs_closing env s job (n - CHECK_DELAY) w1
         end
    else job_logs_closing env s (jl_job s) n w1.
Proof.
  unfold job_logs_cycle, retries_after_drain. simpl.
  pose proof (drain_counter env (jl_consumer s) 0 (get_messages env)
                (jl_num_message_retries s + 1) w) as Hn.
  destruct (drain _ _ _ _ _ _) as [n w1]. simpl in *. by subst n.
Qed.

Lemma experiment_logs_cycle_unfold env s w :
  let n := retries_after_drain env (el_num_message_retries s) in
  let w1 := (drain env (el_consumer s) 0 (get_messages env)
               (el_num_message_retries s + 1) w).2 in
  experiment_logs_cycle env s w
  = if bool_decide (n > MAX_RETRIES)
    then match refresh_experiment_from_db (env_db env) (el_experiment s) with
         | None => (w1, Uncaught)
         | Some experiment =>
             if experiment_is_done experiment
             then experiment_logs_closing env s experiment n
                    (consumer_set_ws (el_consumer s) ∅ w1)
             else experiment_logs_closing env s experiment
                    (n - CHECK_DELAY) w1
         end
    else experiment_logs_closing env s (el_experiment s) n w1.
Proof.
  unfold experiment_logs_cycle, retries_after_drain. simpl.
  pose proof (drain_counter env (el_consumer s) 0 (get_messages env)
                (el_num_message_retries s + 1) w) as Hn.
  destruct (drain _ _ _ _ _ _) as [n w1]. simpl in *. by subst n.
Qed.

Lemma force_closed_group_stays_empty c d w0 :
  consumer_ws c
    (if d is Some ws then consumer_remove_sockets c {[ws]}
                            (consumer_set_ws c ∅ w0)
     else consumer_set_ws c ∅ w0) = ∅.
Proof.
  destruct d; [rewrite consumer_ws_remove_sockets|];
    rewrite consumer_ws_set_ws_empty; [|done].
  apply set_eq. intros x. rewrite elem_of_difference, elem_of_empty. tauto.
Qed.



(** ** The fan-out of a log message *)

(** One pass over the members: only [sent] changes, by one entry per member
    whose send went through, in the order of the pass; the members whose
    send raised are what the pass adds to [disconnected_ws]. *)
Lemma send_to_all_spec env i message (members : list conn) (w : World)
    (d : gset conn) :
  let pass := foldl (λ '(w, disconnected_ws) (_ws : conn),
                       if ConnectionClosed env i _ws
                       then (w, {[_ws]} ∪ disconnected_ws)
                       else (ws_send _ws message w, disconnected_ws)
                       : World * gset conn)
                    (w, d) members in
  app pass.1 = app w
  ∧ socket_managers pass.1 = socket_managers w
  ∧ consumers pass.1 = consumers w
  ∧ redis pass.1 = redis w
  ∧ audit pass.1 = audit w
  ∧ cache_reads pass.1 = cache_reads w
  ∧ sent pass.1
    = sent w ++ ((λ ws, (ws, message))
                 <$> filter (λ ws, ConnectionClosed env i ws = false) members)
  ∧ pass.2
    = d ∪ list_to_set
            (filter (λ ws, ConnectionClosed env i ws = true) members).
Proof.
  revert w d. induction members as [|x members IH]; intros w d; simpl.
  - repeat split; [by rewrite app_nil_r|set_solver].
  - destruct (ConnectionClosed env i x) eqn:Hx.
    + specialize (IH w ({[x]} ∪ d)). simpl in IH.
      destruct IH as (?&?&?&?&?&?&Hs&Hd).
      rewrite filter_cons_False by congruence.
      rewrite filter_cons_True by done.
      repeat split; try done. rewrite Hd. set_solver.
    + specialize (IH (ws_send x message w) d). simpl in IH.
      destruct IH as (?&?&?&?&?&?&Hs&Hd).
      rewrite filter_cons_True by done.
      rewrite filter_cons_False by congruence.
      repeat split; try done. rewrite Hs. simpl. by rewrite <- app_assoc.
Qed.

(** C7.  In the fan-out of one message to the group of a consumer, the pass
    over the members changes no membership; it sends the message, once, to
    every member whose send does not raise [ConnectionClosed], whatever
    happened to the members before it in the pass; the members whose send
    raised are collected, and are removed from the group together, after
    the pass. *)
Theorem fan_out_isolates_failures (env : CycleEnv) (consumer : ref) (i : nat)
    (message : string) (w : World) :
  let members := consumer_ws consumer w in
  let failed := filter (λ ws, ConnectionClosed env i ws = true) members in
  let pass := send_to_all env i message (elements members) w in
  consumers pass.1 = consumers w
  ∧ pass.2 = failed
  ∧ sent pass.1
    = sent w ++ ((λ ws, (ws, message))
                 <$> filter (λ ws, ConnectionClosed env i ws = false)
                       (elements members))
  ∧ fan_out env consumer i message w
    = consumer_remove_sockets consumer failed pass.1
  ∧ (∀ ws, ws ∈ members → ConnectionClosed env i ws = false →
           (ws, message) ∈ sent (fan_out env consumer i message w))
  ∧ consumer_ws consumer (fan_out env consumer i message w)
    = members ∖ failed.
Proof.
  intros members failed pass.
  destruct (send_to_all_spec env i message (elements members) w ∅)
    as (Ha & Hm & Hc & Hr & Hau & Hcr & Hs & Hd).
  fold (send_to_all env i message (elements members) w) in *.
  fold pass in Ha, Hm, Hc, Hr, Hau, Hcr, Hs, Hd.
  assert (Hfailed : pass.2 = failed).
  { rewrite Hd. apply set_eq. intros x. unfold failed.
    rewrite elem_of_union, elem_of_list_to_set, list_elem_of_filter,
      elem_of_filter, elem_of_elements. set_solver. }
  assert (Hfan : fan_out env consumer i message w
                 = consumer_remove_sockets consumer failed pass.1).
  { unfold fan_out. fold members. fold pass. rewrite <- Hfailed.
    by destruct pass. }
  split; [done|]. split; [done|]. split; [done|]. split; [done|]. split.
  - intros ws Hin Hok. rewrite Hfan.
    unfold consumer_remove_sockets, consumer_set_ws, consumer_alter. simpl.
    rewrite Hs. apply elem_of_app. right.
    apply (list_elem_of_fmap_2 (λ ws, (ws, message))).
    apply list_elem_of_filter. split; [done|]. by apply elem_of_elements.
  - rewrite Hfan, consumer_ws_remove_sockets.
    unfold consumer_ws. by rewrite Hc.
Qed.

Lemma fan_out_isolates_failures_witness :
  (6%nat, "line1")
  ∈ sent (fan_out (cycle db_running None ["line1"] [5%nat] false)
            0 0 "line1" (world two_log_viewers))
  ∧ consumer_ws 0 (fan_out (cycle db_running None ["line1"] [5%nat] false)
                     0 0 "line1" (world two_log_viewers)) = {[6%nat]}.
Proof.
  destruct (fan_out_isolates_failures
              (cycle db_running None ["line1"] [5%nat] false) 0 0 "line1"
              (world two_log_viewers)) as (_ & _ & _ & _ & Hsent & Hws).
  split.
  - apply Hsent; by vm_compute.
  - rewrite Hws. by vm_compute.
Defined.

(** ** What an iteration of a log handler can touch *)

Lemma log_footprint_refl w : log_footprint w w.
Proof. by repeat split. Qed.

Lemma log_footprint_trans w1 w2 w3 :
  log_footprint w1 w2 → log_footprint w2 w3 → log_footprint w1 w3.
Proof.
  intros (?&?&?&?&?&Hr) (?&?&?&?&?&Hr'). repeat split;
    first [congruence | intros c; by rewrite Hr', Hr].
Qed.

Lemma log_footprint_set_ws c s w : log_footprint w (consumer_set_ws c s w).
Proof.
  repeat split; simpl; [apply length_alter|].
  intros c'. unfold consumer_running. simpl.
  destruct (decide (c = c')) as [->|Hne].
  - rewrite list_lookup_alter_eq. by destruct (_ !! _).
  - by rewrite list_lookup_alter_ne.
Qed.

Lemma log_footprint_with_redis f w : log_footprint w (with_redis f w).
Proof. by repeat split. Qed.

Lemma log_footprint_send_to_all env i message members w :
  log_footprint w (send_to_all env i message members w).1.
Proof.
  destruct (send_to_all_spec env i message members w ∅)
    as (Ha & Hm & Hc & _ & Hau & Hcr & _ & _).
  repeat split; try done; unfold send_to_all; [by rewrite Hc|].
  intros c. unfold consumer_running. by rewrite Hc.
Qed.

Lemma log_footprint_fan_out env c i message w :
  log_footprint w (fan_out env c i message w).
Proof.
  unfold fan_out.
  pose proof (log_footprint_send_to_all env i message
                (elements (consumer_ws c w)) w) as H.
  destruct (send_to_all _ _ _ _ _) as [w1 d]. simpl in H.
  eapply log_footprint_trans; [exact H|]. apply log_footprint_set_ws.
Qed.

Lemma log_footprint_drain env c i messages n w :
  log_footprint w (drain env c i messages n w).2.
Proof.
  revert i n w. induction messages as [|m messages IH]; intros i n w; simpl.
  - apply log_footprint_refl.
  - eapply log_footprint_trans; [apply log_footprint_fan_out|apply IH].
Qed.

Lemma log_footprint_job_logs_closing env s job n w :
  log_footprint w (job_logs_closing env s job n w).1.
Proof.
  rewrite job_logs_closing_spec. simpl.
  destruct (_connection_lost env); case_bool_decide;
    eauto using log_footprint_trans, log_footprint_set_ws,
      log_footprint_with_redis, log_footprint_refl.
Qed.

Lemma log_footprint_experiment_logs_closing env s experiment n w :
  log_footprint w (experiment_logs_closing env s experiment n w).1.
Proof.
  rewrite experiment_logs_closing_spec. simpl.
  destruct (_connection_lost env); case_bool_decide;
    eauto using log_footprint_trans, log_footprint_set_ws,
      log_footprint_with_redis, log_footprint_refl.
Qed.

Lemma log_footprint_job_logs_cycle env s w :
  log_footprint w (job_logs_cycle env s w).1.
Proof.
  rewrite job_logs_cycle_unfold. simpl.
  pose proof (log_footprint_drain env (jl_consumer s) 0 (get_messages env)
                (jl_num_message_retries s + 1) w) as Hd.
  repeat case_match;
    eauto using log_footprint_trans, log_footprint_set_ws,
      log_footprint_job_logs_closing.
Qed.

Lemma log_footprint_experiment_logs_cycle env s w :
  log_footprint w (experiment_logs_cycle env s w).1.
Proof.
  rewrite experiment_logs_cycle_unfold. simpl.
  pose proof (log_footprint_drain env (el_consumer s) 0 (get_messages env)
                (el_num_message_retries s + 1) w) as Hd.
  repeat case_match;
    eauto using log_footprint_trans, log_footprint_set_ws,
      log_footprint_experiment_logs_closing.
Qed.

(** How an iteration of a log handler ends when it is not cut short by an
    uncaught exception: with the handler's connection out of the group when
    [_connection_lost] was set, and, when the group is empty, with the key
    unmarked in the cache and the handler gone. *)
Lemma job_logs_closing_end env s job n w :
  let r := job_logs_closing env s job n w in
  (_connection_lost env = true →
     r.2 = Return ∧ jl_ws s ∉ consumer_ws (jl_consumer s) r.1)
  ∧ (consumer_ws (jl_consumer s) r.1 = ∅ →
     r.2 = Return ∧ jl_job_uuid s ∉ monitored_job_logs (redis r.1)).
Proof.
  simpl. rewrite job_logs_closing_spec. simpl. split.
  - intros ->. simpl. split; [done|].
    case_bool_decide; rewrite ?consumer_ws_with_redis,
      consumer_ws_remove_sockets; set_solver.
  - case_bool_decide as He; simpl.
    + intros _. rewrite !orb_true_r. split; [done|]. set_solver.
    + intros He'. by destruct He.
Qed.

Lemma experiment_logs_closing_end env s experiment n w :
  let r := experiment_logs_closing env s experiment n w in
  (_connection_lost env = true →
     r.2 = Return ∧ el_ws s ∉ consumer_ws (el_consumer s) r.1)
  ∧ (consumer_ws (el_consumer s) r.1 = ∅ →
     r.2 = Return
     ∧ el_experiment_uuid s ∉ monitored_experiment_logs (redis r.1)).
Proof.
  simpl. rewrite experiment_logs_closing_spec. simpl. split.
  - intros ->. simpl. split; [done|].
    case_bool_decide; rewrite ?consumer_ws_with_redis,
      consumer_ws_remove_sockets; set_solver.
  - case_bool_decide as He; simpl.
    + intros _. rewrite !orb_true_r. split; [done|]. set_solver.
    + intros He'. by destruct He.
Qed.

(** C2, as the handlers have it.  An iteration of a log handler never
    changes a table and never stops a consumer.  When it is not cut short by
    an uncaught exception: if [_connection_lost] is set the handler takes its
    own connection out of the group and returns, and if the group is empty
    at the end of the iteration the handler unmarks the key in the cache and
    returns.  The consumer stays subscribed and registered. *)
Theorem emptied_log_group_is_unmarked_not_released (env : CycleEnv) :
  (∀ (s : JobLogsSession) (w : World),
     let r := job_logs_cycle env s w in
     app r.1 = app w
     ∧ (∀ c, consumer_running c r.1 = consumer_running c w)
     ∧ (r.2 ≠ Uncaught →
        (_connection_lost env = true →
           r.2 = Return ∧ jl_ws s ∉ consumer_ws (jl_consumer s) r.1)
        ∧ (consumer_ws (jl_consumer s) r.1 = ∅ →
           r.2 = Return ∧ jl_job_uuid s ∉ monitored_job_logs (redis r.1))))
  ∧ (∀ (s : ExperimentLogsSession) (w : World),
     let r := experiment_logs_cycle env s w in
     app r.1 = app w
     ∧ (∀ c, consumer_running c r.1 = consumer_running c w)
     ∧ (r.2 ≠ Uncaught →
        (_connection_lost env = true →
           r.2 = Return ∧ el_ws s ∉ consumer_ws (el_consumer s) r.1)
        ∧ (consumer_ws (el_consumer s) r.1 = ∅ →
           r.2 = Return
           ∧ el_experiment_uuid s
               ∉ monitored_experiment_logs (redis r.1)))).
Proof.
  split.
  - intros s w r.
    destruct (log_footprint_job_logs_cycle env s w) as (Ha&_&_&_&_&Hr).
    split; [done|]. split; [done|]. subst r.
    rewrite job_logs_cycle_unfold. simpl.
    repeat case_match; try done; intros _; apply job_logs_closing_end.
  - intros s w r.
    destruct (log_footprint_experiment_logs_cycle env s w) as (Ha&_&_&_&_&Hr).
    split; [done|]. split; [done|]. subst r.
    rewrite experiment_logs_cycle_unfold. simpl.
    repeat case_match; try done; intros _; apply experiment_logs_closing_end.
Qed.

Lemma emptied_log_group_is_unmarked_not_released_witness :
  last_log_viewer_leaves.2 = Return
  ∧ ("j100" ∉ monitored_job_logs (redis (last_log_viewer_leaves.1)))
  ∧ app (last_log_viewer_leaves.1) = app (world one_log_viewer).
Proof.
  destruct (emptied_log_group_is_unmarked_not_released
              (cycle db_running None [] [] true)) as [Hjob _].
  destruct (Hjob (job_logs_locals 5 0) (world one_log_viewer))
    as (Happ & _ & Hend).
  destruct Hend as [Hlost Hempty]; [by vm_compute|].
  split; [exact (proj1 (Hlost eq_refl))|]. split; [|exact Happ].
  apply Hempty. by vm_compute.
Defined.

(** C2, as stated, fails: the only viewer of the logs of [j100] connects
    and then loses its connection.  After the iteration that notices it the
    handler is gone and the group is empty, and it is false that the entry
    of [j100] has left [job_logs_consumers] or that the consumer has been
    stopped. *)
Lemma emptied_log_group_keeps_its_consumer :
  sessions last_log_viewer_left !! 5%nat = None
  ∧ consumer_ws 0 (world last_log_viewer_left) = ∅
  ∧ ¬ (job_logs_consumers (app (world last_log_viewer_left)) !! "j100" = None
       ∨ consumer_running 0 (world last_log_viewer_left) = false).
Proof.
  split; [by vm_compute|]. split; [by vm_compute|].
  intros [H|H]; vm_compute in H; discriminate H.
Qed.

(** ** What an iteration of a resource handler can touch *)

Lemma manager_ws_set_ws (m m' : ref) (s : gset conn) (w : World) :
  manager_ws m' (manager_set_ws m s w)
  = if decide (m = m')
    then (if socket_managers w !! m is Some _ then s else ∅)
    else manager_ws m' w.
Proof.
  unfold manager_ws, manager_set_ws. simpl.
  rewrite list_lookup_insert. destruct (decide (m = m')) as [<-|Hne].
  - destruct (socket_managers w !! m) eqn:Hm.
    + apply lookup_lt_Some in Hm. by rewrite decide_True.
    + apply lookup_ge_None in Hm. rewrite decide_False by lia.
      by rewrite (proj2 (lookup_ge_None _ _) Hm).
  - rewrite decide_False; [done|]. by intros [? _].
Qed.

Lemma manager_ws_remove_sockets (m m' : ref) (d : gset conn) (w : World) :
  manager_ws m' (manager_remove_sockets m d w)
  = if decide (m = m') then manager_ws m' w ∖ d else manager_ws m' w.
Proof.
  unfold manager_remove_sockets. rewrite manager_ws_set_ws.
  destruct (decide (m = m')) as [<-|]; [|done].
  unfold manager_ws. destruct (_ !! _); simpl; [done|].
  apply set_eq. intros x. rewrite elem_of_difference, elem_of_empty. tauto.
Qed.

(** The footprint of the closure [handle_job_disconnected_ws]: the caller's
    group loses the connection; when nothing is left in it the key leaves
    [job_resources_ws_mangers]. *)
Lemma handle_job_disconnected_ws_spec s ws w :
  let w' := handle_job_disconnected_ws s ws w in
  let rest := manager_ws (jr_ws_manager s) w ∖ {[ws]} in
  (∀ m, manager_ws m w'
        = if decide (jr_ws_manager s = m) then rest else manager_ws m w)
  ∧ length (socket_managers w') = length (socket_managers w)
  ∧ consumers w' = consumers w
  ∧ audit w' = audit w ∧ sent w' = sent w ∧ cache_reads w' = cache_reads w
  ∧ job_resources_ws_mangers (app w')
    = (if bool_decide (rest = ∅)
       then delete (jr_job_uuid s) (job_resources_ws_mangers (app w))
       else job_resources_ws_mangers (app w))
  ∧ experiment_resources_ws_mangers (app w')
    = experiment_resources_ws_mangers (app w)
  ∧ job_logs_consumers (app w') = job_logs_consumers (app w)
  ∧ experiment_logs_consumers (app w') = experiment_logs_consumers (app w).
Proof.
  simpl. unfold handle_job_disconnected_ws.
  pose proof (manager_ws_remove_sockets (jr_ws_manager s) (jr_ws_manager s)
                {[ws]} w) as Hown.
  rewrite decide_True in Hown by done. rewrite Hown.
  assert (Hm : ∀ m, manager_ws m (manager_remove_sockets (jr_ws_manager s)
                                    {[ws]} w)
               = if decide (jr_ws_manager s = m)
                 then manager_ws (jr_ws_manager s) w ∖ {[ws]}
                 else manager_ws m w).
  { intros m. rewrite manager_ws_remove_sockets. by case_decide; subst. }
  case_bool_decide; simpl; repeat split; try done; apply length_insert.
Qed.

Lemma handle_experiment_disconnected_ws_spec s ws w :
  let w' := handle_experiment_disconnected_ws s ws w in
  let rest := manager_ws (er_ws_manager s) w ∖ {[ws]} in
  (∀ m, manager_ws m w'
        = if decide (er_ws_manager s = m) then rest else manager_ws m w)
  ∧ length (socket_managers w') = length (socket_managers w)
  ∧ consumers w' = consumers w
  ∧ audit w' = audit w ∧ sent w' = sent w ∧ cache_reads w' = cache_reads w
  ∧ job_resources_ws_mangers (app w') = job_resources_ws_mangers (app w)
  ∧ experiment_resources_ws_mangers (app w')
    = (if bool_decide (rest = ∅)
       then delete (er_experiment_uuid s)
              (experiment_resources_ws_mangers (app w))
       else experiment_resources_ws_mangers (app w))
  ∧ job_logs_consumers (app w') = job_logs_consumers (app w)
  ∧ experiment_logs_consumers (app w') = experiment_logs_consumers (app w).
Proof.
  simpl. unfold handle_experiment_disconnected_ws.
  pose proof (manager_ws_remove_sockets (er_ws_manager s) (er_ws_manager s)
                {[ws]} w) as Hown.
  rewrite decide_True in Hown by done. rewrite Hown.
  assert (Hm : ∀ m, manager_ws m (manager_remove_sockets (er_ws_manager s)
                                    {[ws]} w)
               = if decide (er_ws_manager s = m)
                 then manager_ws (er_ws_manager s) w ∖ {[ws]}
                 else manager_ws m w).
  { intros m. rewrite manager_ws_remove_sockets. by case_decide; subst. }
  case_bool_decide; simpl; repeat split; try done; apply length_insert.
Qed.

Lemma job_resources_deliver_Sleep env s resources job n w s' :
  (job_resources_deliver env s resources job n w).2 = Sleep s' →
  s' = {| jr_ws := jr_ws s; jr_job := job; jr_job_uuid := jr_job_uuid s;
          jr_job_name := jr_job_name s; jr_ws_manager := jr_ws_manager s;
          jr_should_check := n |}.
Proof.
  unfold job_resources_deliver.
  repeat case_match; simpl; try done; by intros [= <-].
Qed.

Lemma experiment_resources_deliver_Sleep env s resources experiment n w s' :
  (experiment_resources_deliver env s resources experiment n w).2 = Sleep s' →
  s' = {| er_ws := er_ws s; er_experiment := experiment;
          er_experiment_uuid := er_experiment_uuid s;
          er_ws_manager := er_ws_manager s; er_jobs := er_jobs s;
          er_should_check := n |}.
Proof.
  unfold experiment_resources_deliver.
  repeat case_match; simpl; try done; by intros [= <-].
Qed.

(** C3, as the handlers have it.  A resource handler adds one to
    [should_check] in every iteration, whatever the cache returned.  When
    the result exceeds [RESOURCES_CHECK] = 7 the status is re-read: if it is
    done the group is cleared and the handler returns; if it is not, a
    handler that goes on carries the counter less [CHECK_DELAY] = 5.  A
    handler that goes on without a check carries the counter plus one. *)
Theorem resource_counter_counts_every_cycle (env : CycleEnv) :
  RESOURCES_CHECK = 7 ∧ CHECK_DELAY = 5
  ∧ (∀ (s : JobResourcesSession) (w : World),
       let r := job_resources_cycle env s w in
       (∀ s', r.2 = Sleep s' →
              jr_should_check s' = should_check_after (jr_should_check s))
       ∧ (jr_should_check s + 1 > RESOURCES_CHECK →
          match refresh_job_from_db (env_db env) (jr_job s) with
          | None => r.2 = Uncaught
          | Some job =>
              job_is_done job = true →
              r.2 = Return ∧ manager_ws (jr_ws_manager s) r.1 = ∅
          end))
  ∧ (∀ (s : ExperimentResourcesSession) (w : World),
       let r := experiment_resources_cycle env s w in
       (∀ s', r.2 = Sleep s' →
              er_should_check s' = should_check_after (er_should_check s))
       ∧ (er_should_check s + 1 > RESOURCES_CHECK →
          match refresh_experiment_from_db (env_db env) (er_experiment s) with
          | None => r.2 = Uncaught
          | Some experiment =>
              experiment_is_done experiment = true →
              r.2 = Return ∧ manager_ws (er_ws_manager s) r.1 = ∅
          end)).
Proof.
  split; [done|]. split; [done|]. split.
  - intros s w r. subst r. unfold job_resources_cycle, should_check_after.
    split.
    + intros s'. case_bool_decide.
      * destruct (refresh_job_from_db _ _) as [job|]; [|done].
        destruct (job_is_done job); [done|].
        intros Hs. by rewrite (job_resources_deliver_Sleep _ _ _ _ _ _ _ Hs).
      * intros Hs. by rewrite (job_resources_deliver_Sleep _ _ _ _ _ _ _ Hs).
    + intros Hn. rewrite bool_decide_eq_true_2 by done.
      destruct (refresh_job_from_db _ _) as [job|]; [|done].
      intros ->. split; [done|]. simpl.
      destruct (handle_job_disconnected_ws_spec s (jr_ws s)
                  (manager_set_ws (jr_ws_manager s) ∅
                     (cache_read (ReadJob (jr_job_uuid s) (jr_job_name s)) w)))
        as [Hm _].
      rewrite Hm, decide_True by done. rewrite manager_ws_set_ws.
      rewrite decide_True by done. destruct (_ !! _); set_solver.
  - intros s w r. subst r.
    unfold experiment_resources_cycle, should_check_after. split.
    + intros s'. case_bool_decide.
      * destruct (refresh_experiment_from_db _ _) as [experiment|]; [|done].
        destruct (experiment_is_done experiment); [done|].
        intros Hs.
        by rewrite (experiment_resources_deliver_Sleep _ _ _ _ _ _ _ Hs).
      * intros Hs.
        by rewrite (experiment_resources_deliver_Sleep _ _ _ _ _ _ _ Hs).
    + intros Hn. rewrite bool_decide_eq_true_2 by done.
      destruct (refresh_experiment_from_db _ _) as [experiment|]; [|done].
      intros ->. split; [done|]. simpl.
      destruct (handle_experiment_disconnected_ws_spec s (er_ws s)
                  (manager_set_ws (er_ws_manager s) ∅
                     (cache_read (ReadExperiment (er_jobs s)) w)))
        as [Hm _].
      rewrite Hm, decide_True by done. rewrite manager_ws_set_ws.
      rewrite decide_True by done. destruct (_ !! _); set_solver.
Qed.

Lemma resource_counter_counts_every_cycle_witness :
  (job_resources_cycle (with_snapshot db_job_done []) (job_resources_locals 5 7)
     (world two_resource_viewers)).2 = Return
  ∧ manager_ws 0
      (job_resources_cycle (with_snapshot db_job_done [])
         (job_resources_locals 5 7) (world two_resource_viewers)).1 = ∅
  ∧ jr_should_check (job_resources_locals 5 1) = should_check_after 0.
Proof.
  destruct (resource_counter_counts_every_cycle (with_snapshot db_job_done []))
    as (_ & _ & Hjob & _).
  destruct (Hjob (job_resources_locals 5 7) (world two_resource_viewers))
    as [_ Hcheck].
  split; [exact (proj1 (Hcheck eq_refl eq_refl))|].
  split; [exact (proj2 (Hcheck eq_refl eq_refl))|].
  destruct (resource_counter_counts_every_cycle (with_snapshot db_running []))
    as (_ & _ & Hjob' & _).
  destruct (Hjob' (job_resources_locals 5 0) (world two_resource_viewers))
    as [Hnext _].
  apply (Hnext (job_resources_locals 5 1)). by vm_compute.
Defined.

(** C3, as stated, fails: a viewer of the resources of [j100] gets a
    snapshot in every iteration.  The first iteration already moves the
    counter up, seven of them bring it to 7 with seven snapshots sent, and
    the eighth, which gets a snapshot too, runs the liveness check and closes
    the group of the finished job. *)
Lemma snapshot_cycles_count_towards_the_check :
  truthy (latest_job_resources (with_snapshot db_running []) "j100"
            "master.100") = true
  ∧ ¬ (∀ s', (job_resources_cycle (with_snapshot db_running [])
                (job_resources_locals 5 0) (world two_resource_viewers)).2
             = Sleep s' →
             jr_should_check s' ≤ jr_should_check (job_resources_locals 5 0))
  ∧ (job_resources_run (replicate 7 (with_snapshot db_running []))
       (job_resources_locals 5 0) (world two_resource_viewers)).2
    = Sleep (job_resources_locals 5 7)
  ∧ (job_resources_run (replicate 7 (with_snapshot db_running [])
                          ++ [with_snapshot db_job_done []])
       (job_resources_locals 5 0) (world two_resource_viewers)).2 = Return.
Proof.
  split; [done|]. split.
  - intros H. specialize (H (job_resources_locals 5 1)).
    assert (1 ≤ 0) as Habs by (apply H; by vm_compute). lia.
  - split; by vm_compute.
Qed.

(** The locals used in the scenarios are the ones the handlers hold. *)
Lemma scenario_locals :
  sessions two_log_viewers !! 5%nat = Some (JobLogs (job_logs_locals 5 0))
  ∧ sessions two_log_viewers !! 6%nat = Some (JobLogs (job_logs_locals 6 0))
  ∧ sessions one_log_viewer !! 5%nat = Some (JobLogs (job_logs_locals 5 0))
  ∧ sessions two_resource_viewers !! 5%nat
    = Some (JobResources (job_resources_locals 5 0))
  ∧ sessions two_resource_viewers !! 6%nat
    = Some (JobResources (job_resources_locals 6 0))
  ∧ sessions (run boot [resources_of_e10 5]) !! 5%nat
    = Some (ExperimentResources (experiment_resources_locals 5 0))
  ∧ sessions (run boot [logs_of_e10 5]) !! 5%nat
    = Some (ExperimentLogs (experiment_logs_locals 5 0)).
Proof. repeat split; by vm_compute. Qed.

(** The three ways an iteration of [job_resources] can go: it dies in
    [refresh_from_db]; it sleeps, having sent its snapshot to its own
    connection or nothing; it returns through [handle_job_disconnected_ws],
    called after the group was cleared (job found done), after the send to
    its own connection raised, or after a send that went through or none
    ([_connection_lost]). *)
Lemma job_resources_cycle_shape env s w :
  let q := cache_read (ReadJob (jr_job_uuid s) (jr_job_name s)) w in
  let resources := latest_job_resources env (jr_job_uuid s) (jr_job_name s) in
  let r := job_resources_cycle env s w in
  r = (q, Uncaught)
  ∨ (job_found_done env s = false
     ∧ ∃ w1 s', r = (w1, Sleep s')
       ∧ (w1 = q ∨ (truthy resources = true
                    ∧ ConnectionClosed env 0 (jr_ws s) = false
                    ∧ w1 = ws_send (jr_ws s) (default "" resources) q)))
  ∨ (job_found_done env s = true
     ∧ r = (handle_job_disconnected_ws s (jr_ws s)
              (manager_set_ws (jr_ws_manager s) ∅ q), Return))
  ∨ (job_found_done env s = false
     ∧ ∃ w1, r = (handle_job_disconnected_ws s (jr_ws s) w1, Return)
       ∧ (w1 = q ∨ (truthy resources = true
                    ∧ ConnectionClosed env 0 (jr_ws s) = false
                    ∧ w1 = ws_send (jr_ws s) (default "" resources) q))).
Proof.
  simpl. unfold job_resources_cycle, job_found_done, job_resources_deliver.
  case_bool_decide; simpl.
  - destruct (refresh_job_from_db _ _) as [job|]; simpl; [|by left].
    destruct (job_is_done job); simpl; [by right; right; left|].
    destruct (truthy _) eqn:Ht; [destruct (ConnectionClosed _ _ _) eqn:Hc|];
      destruct (_connection_lost env); naive_solver.
  - destruct (truthy _) eqn:Ht; [destruct (ConnectionClosed _ _ _) eqn:Hc|];
      destruct (_connection_lost env); naive_solver.
Qed.

Lemma experiment_resources_cycle_shape env s w :
  let q := cache_read (ReadExperiment (er_jobs s)) w in
  let resources := latest_experiment_resources env (er_jobs s) in
  let r := experiment_resources_cycle env s w in
  r = (q, Uncaught)
  ∨ (experiment_found_done env s = false
     ∧ ∃ w1 s', r = (w1, Sleep s')
       ∧ (w1 = q ∨ (truthy resources = true
                    ∧ ConnectionClosed env 0 (er_ws s) = false
                    ∧ w1 = ws_send (er_ws s) (default "" resources) q)))
  ∨ (experiment_found_done env s = true
     ∧ r = (handle_experiment_disconnected_ws s (er_ws s)
              (manager_set_ws (er_ws_manager s) ∅ q), Return))
  ∨ (experiment_found_done env s = false
     ∧ ∃ w1, r = (handle_experiment_disconnected_ws s (er_ws s) w1, Return)
       ∧ (w1 = q ∨ (truthy resources = true
                    ∧ ConnectionClosed env 0 (er_ws s) = false
                    ∧ w1 = ws_send (er_ws s) (default "" resources) q))).
Proof.
  simpl. unfold experiment_resources_cycle, experiment_found_done,
    experiment_resources_deliver.
  case_bool_decide; simpl.
  - destruct (refresh_experiment_from_db _ _) as [experiment|]; simpl;
      [|by left].
    destruct (experiment_is_done experiment); simpl; [by right; right; left|].
    destruct (truthy _) eqn:Ht; [destruct (ConnectionClosed _ _ _) eqn:Hc|];
      destruct (_connection_lost env); naive_solver.
  - destruct (truthy _) eqn:Ht; [destruct (ConnectionClosed _ _ _) eqn:Hc|];
      destruct (_connection_lost env); naive_solver.
Qed.

(** What an iteration of [job_resources] sends, and to whom. *)
Lemma job_resources_cycle_sent env s w :
  let resources := latest_job_resources env (jr_job_uuid s) (jr_job_name s) in
  let r := job_resources_cycle env s w in
  (sent r.1 = sent w
   ∨ sent r.1 = sent w ++ [(jr_ws s, default "" resources)])
  ∧ (r.2 ≠ Uncaught → job_found_done env s = false →
     truthy resources = true →
     if ConnectionClosed env 0 (jr_ws s)
     then r.2 = Return ∧ sent r.1 = sent w
          ∧ jr_ws s ∉ manager_ws (jr_ws_manager s) r.1
     else sent r.1 = sent w ++ [(jr_ws s, default "" resources)]).
Proof.
  simpl. unfold job_resources_cycle, job_found_done, job_resources_deliver.
  pose proof (λ w, proj1 (handle_job_disconnected_ws_spec s (jr_ws s) w)
                     (jr_ws_manager s)) as Hm.
  pose proof (λ w, proj1 (proj2 (proj2 (proj2 (proj2
                (handle_job_disconnected_ws_spec s (jr_ws s) w)))))) as Hs.
  simpl in Hm, Hs. setoid_rewrite decide_True in Hm; [|done..].
  case_bool_decide; simpl;
    [destruct (refresh_job_from_db _ _) as [job|]; simpl;
       [destruct (job_is_done job); simpl|]|];
    (destruct (truthy _) eqn:Ht;
       [destruct (ConnectionClosed _ _ _) eqn:Hc|]);
    destruct (_connection_lost env); simpl;
    rewrite ?Hs, ?Hm; simpl; (split; [by auto|]); try done;
    intros _ _ _; repeat split; try done; set_solver.
Qed.

Lemma experiment_resources_cycle_sent env s w :
  let resources := latest_experiment_resources env (er_jobs s) in
  let r := experiment_resources_cycle env s w in
  (sent r.1 = sent w
   ∨ sent r.1 = sent w ++ [(er_ws s, default "" resources)])
  ∧ (r.2 ≠ Uncaught → experiment_found_done env s = false →
     truthy resources = true →
     if ConnectionClosed env 0 (er_ws s)
     then r.2 = Return ∧ sent r.1 = sent w
          ∧ er_ws s ∉ manager_ws (er_ws_manager s) r.1
     else sent r.1 = sent w ++ [(er_ws s, default "" resources)]).
Proof.
  simpl. unfold experiment_resources_cycle, experiment_found_done,
    experiment_resources_deliver.
  pose proof (λ w, proj1 (handle_experiment_disconnected_ws_spec s (er_ws s) w)
                     (er_ws_manager s)) as Hm.
  pose proof (λ w, proj1 (proj2 (proj2 (proj2 (proj2
                (handle_experiment_disconnected_ws_spec s (er_ws s) w))))))
    as Hs.
  simpl in Hm, Hs. setoid_rewrite decide_True in Hm; [|done..].
  case_bool_decide; simpl;
    [destruct (refresh_experiment_from_db _ _) as [experiment|]; simpl;
       [destruct (experiment_is_done experiment); simpl|]|];
    (destruct (truthy _) eqn:Ht;
       [destruct (ConnectionClosed _ _ _) eqn:Hc|]);
    destruct (_connection_lost env); simpl;
    rewrite ?Hs, ?Hm; simpl; (split; [by auto|]); try done;
    intros _ _ _; repeat split; try done; set_solver.
Qed.

(** Unless the job is found done, an iteration of [job_resources] leaves
    every other connection where it was, in every group. *)
Lemma job_resources_cycle_others env s w m ws' :
  job_found_done env s = false → ws' ≠ jr_ws s →
  ws' ∈ manager_ws m (job_resources_cycle env s w).1 ↔ ws' ∈ manager_ws m w.
Proof.
  intros Hq Hne.
  destruct (job_resources_cycle_shape env s w)
    as [->|[(_ & w1 & s' & -> & Hw1)|[[Hq' _]|(_ & w1 & -> & Hw1)]]];
    simpl; [done| |congruence|].
  - by destruct Hw1 as [->|(_&_&->)].
  - destruct (handle_job_disconnected_ws_spec s (jr_ws s) w1) as [Hm _].
    simpl in Hm. rewrite Hm.
    assert (∀ m, manager_ws m w1 = manager_ws m w) as Hw
      by (by destruct Hw1 as [->|(_&_&->)]).
    case_decide; subst; rewrite ?Hw; set_solver.
Qed.

Lemma experiment_resources_cycle_others env s w m ws' :
  experiment_found_done env s = false → ws' ≠ er_ws s →
  ws' ∈ manager_ws m (experiment_resources_cycle env s w).1
  ↔ ws' ∈ manager_ws m w.
Proof.
  intros Hq Hne.
  destruct (experiment_resources_cycle_shape env s w)
    as [->|[(_ & w1 & s' & -> & Hw1)|[[Hq' _]|(_ & w1 & -> & Hw1)]]];
    simpl; [done| |congruence|].
  - by destruct Hw1 as [->|(_&_&->)].
  - destruct (handle_experiment_disconnected_ws_spec s (er_ws s) w1) as [Hm _].
    simpl in Hm. rewrite Hm.
    assert (∀ m, manager_ws m w1 = manager_ws m w) as Hw
      by (by destruct Hw1 as [->|(_&_&->)]).
    case_decide; subst; rewrite ?Hw; set_solver.
Qed.

(** C4, as the handlers have it.  In an iteration of a resource handler the
    only send is of the fetched snapshot, to the handler's own connection.
    When a non-empty snapshot was fetched (and the iteration is not ended by
    the liveness check): if that send goes through, the snapshot is added
    to what the connection received; if it raises [ConnectionClosed],
    nothing is sent, the handler's connection leaves the group and the
    handler returns.  No other connection is sent the snapshot, and none
    leaves or joins a group. *)
Theorem snapshot_goes_to_the_fetching_connection_only (env : CycleEnv) :
  (∀ (s : JobResourcesSession) (w : World),
     let resources :=
       latest_job_resources env (jr_job_uuid s) (jr_job_name s) in
     let r := job_resources_cycle env s w in
     (sent r.1 = sent w
      ∨ sent r.1 = sent w ++ [(jr_ws s, default "" resources)])
     ∧ (r.2 ≠ Uncaught → job_found_done env s = false →
        truthy resources = true →
        if ConnectionClosed env 0 (jr_ws s)
        then r.2 = Return ∧ sent r.1 = sent w
             ∧ jr_ws s ∉ manager_ws (jr_ws_manager s) r.1
        else sent r.1 = sent w ++ [(jr_ws s, default "" resources)])
     ∧ (job_found_done env s = false →
        ∀ m ws', ws' ≠ jr_ws s →
                 ws' ∈ manager_ws m r.1 ↔ ws' ∈ manager_ws m w))
  ∧ (∀ (s : ExperimentResourcesSession) (w : World),
     let resources := latest_experiment_resources env (er_jobs s) in
     let r := experiment_resources_cycle env s w in
     (sent r.1 = sent w
      ∨ sent r.1 = sent w ++ [(er_ws s, default "" resources)])
     ∧ (r.2 ≠ Uncaught → experiment_found_done env s = false →
        truthy resources = true →
        if ConnectionClosed env 0 (er_ws s)
        then r.2 = Return ∧ sent r.1 = sent w
             ∧ er_ws s ∉ manager_ws (er_ws_manager s) r.1
        else sent r.1 = sent w ++ [(er_ws s, default "" resources)])
     ∧ (experiment_found_done env s = false →
        ∀ m ws', ws' ≠ er_ws s →
                 ws' ∈ manager_ws m r.1 ↔ ws' ∈ manager_ws m w)).
Proof.
  split; intros s w resources r.
  - destruct (job_resources_cycle_sent env s w) as [H1 H2].
    split; [done|]. split; [done|].
    intros Hq m ws' Hne. by apply job_resources_cycle_others.
  - destruct (experiment_resources_cycle_sent env s w) as [H1 H2].
    split; [done|]. split; [done|].
    intros Hq m ws' Hne. by apply experiment_resources_cycle_others.
Qed.

Lemma snapshot_goes_to_the_fetching_connection_only_witness :
  (job_resources_cycle (with_snapshot db_running [5%nat])
     (job_resources_locals 5 0) (world two_resource_viewers)).2 = Return
  ∧ (5%nat ∉ manager_ws 0
       (job_resources_cycle (with_snapshot db_running [5%nat])
          (job_resources_locals 5 0) (world two_resource_viewers)).1)
  ∧ (6%nat ∈ manager_ws 0
       (job_resources_cycle (with_snapshot db_running [5%nat])
          (job_resources_locals 5 0) (world two_resource_viewers)).1).
Proof.
  destruct (snapshot_goes_to_the_fetching_connection_only
              (with_snapshot db_running [5%nat])) as [Hjob _].
  destruct (Hjob (job_resources_locals 5 0) (world two_resource_viewers))
    as (_ & Hfail & Hothers).
  assert ((job_resources_cycle (with_snapshot db_running [5%nat])
             (job_resources_locals 5 0) (world two_resource_viewers)).2
          ≠ Uncaught) as Hne by (by vm_compute).
  destruct (Hfail Hne eq_refl eq_refl) as (Hret & _ & Hout).
  split; [exact Hret|]. split; [exact Hout|].
  apply (Hothers eq_refl 0%nat 6%nat); by vm_compute.
Defined.

(** C4, as stated, fails: two viewers are in the group of the resources of
    [j100]; the handler of the first fetches a snapshot and every send would
    go through.  The snapshot reaches the first viewer only. *)
Lemma snapshot_is_not_fanned_out :
  manager_ws 0 (world two_resource_viewers) = {[5%nat; 6%nat]}
  ∧ sent (job_resources_cycle (with_snapshot db_running [])
            (job_resources_locals 5 0) (world two_resource_viewers)).1
    = [(5%nat, "cpu=1")]
  ∧ ¬ (∀ ws, ws ∈ manager_ws 0 (world two_resource_viewers) →
             (ws, "cpu=1")
             ∈ sent (job_resources_cycle (with_snapshot db_running [])
                       (job_resources_locals 5 0)
                       (world two_resource_viewers)).1).
Proof.
  split; [by vm_compute|]. split; [by vm_compute|].
  intros H. specialize (H 6%nat).
  assert ((6%nat, "cpu=1") ∈ [(5%nat, "cpu=1")]) as Hin
    by (apply H; by vm_compute).
  apply list_elem_of_singleton in Hin. discriminate Hin.
Qed.

(** ** Server stop *)

Lemma stop_job_logs_consumers_frame keys w :
  experiment_resources_ws_mangers (app (foldl stop_job_logs_consumer w keys))
  = experiment_resources_ws_mangers (app w).
Proof.
  revert w. induction keys as [|k keys IH]; intros w; [done|]. simpl.
  rewrite IH. unfold stop_job_logs_consumer. by destruct (_ !! _).
Qed.

Lemma stop_experiment_logs_consumers_frame keys w :
  experiment_resources_ws_mangers
    (app (foldl stop_experiment_logs_consumer w keys))
  = experiment_resources_ws_mangers (app w).
Proof.
  revert w. induction keys as [|k keys IH]; intros w; [done|]. simpl.
  rewrite IH. unfold stop_experiment_logs_consumer. by destruct (_ !! _).
Qed.

(** C9.  [notify_server_stopped] does not clear the table
    [experiment_resources_ws_mangers]: it assigns the empty dictionary to an
    attribute of another name, [experiment_resources_ws_manger].  Whatever
    the table holds at shutdown it holds afterwards.  With one viewer on
    each of the four streams, the three other tables are empty after the
    stop and both consumers are stopped, and the socket manager of the
    experiment is still registered. *)
Theorem shutdown_keeps_experiment_resources_managers :
  (∀ w, experiment_resources_ws_mangers (app (notify_server_stopped w))
        = experiment_resources_ws_mangers (app w))
  ∧ experiment_resources_ws_mangers (app (world four_streams)) !! "e10"
    = Some 1%nat
  ∧ experiment_resources_ws_mangers
      (app (notify_server_stopped (world four_streams))) !! "e10"
    = Some 1%nat
  ∧ experiment_resources_ws_manger
      (app (notify_server_stopped (world four_streams))) = Some ∅
  ∧ job_resources_ws_mangers
      (app (notify_server_stopped (world four_streams))) = ∅
  ∧ job_logs_consumers (app (notify_server_stopped (world four_streams))) = ∅
  ∧ experiment_logs_consumers
      (app (notify_server_stopped (world four_streams))) = ∅
  ∧ consumer_running 0 (notify_server_stopped (world four_streams)) = false
  ∧ consumer_running 1 (notify_server_stopped (world four_streams)) = false.
Proof.
  split.
  - intros w. unfold notify_server_stopped.
    by rewrite stop_experiment_logs_consumers_frame,
      stop_job_logs_consumers_frame.
  - repeat split; by vm_compute.
Qed.

(** ** The job list of [experiment_resources] *)

(** An iteration asks the cache one question, about the list held in the
    handler's locals, and leaves that list as it is. *)
Lemma experiment_resources_cycle_reads env s w :
  let r := experiment_resources_cycle env s w in
  cache_reads r.1 = cache_reads w ++ [ReadExperiment (er_jobs s)]
  ∧ ∀ s', r.2 = Sleep s' → er_jobs s' = er_jobs s.
Proof.
  simpl. split.
  - destruct (experiment_resources_cycle_shape env s w)
      as [->|[(_ & w1 & s' & -> & Hw1)|[[_ ->]|(_ & w1 & -> & Hw1)]]];
      simpl; [done| | |].
    + by destruct Hw1 as [->|(_&_&->)].
    + destruct (handle_experiment_disconnected_ws_spec s (er_ws s)
                  (manager_set_ws (er_ws_manager s) ∅
                     (cache_read (ReadExperiment (er_jobs s)) w)))
        as (_&_&_&_&_&->&_). done.
    + destruct (handle_experiment_disconnected_ws_spec s (er_ws s) w1)
        as (_&_&_&_&_&->&_). by destruct Hw1 as [->|(_&_&->)].
  - intros s'. unfold experiment_resources_cycle.
    repeat case_match; try done;
      intros Hs;
      by rewrite (experiment_resources_deliver_Sleep _ _ _ _ _ _ _ Hs).
Qed.

Lemma experiment_resources_run_reads envs s w :
  let r := experiment_resources_run envs s w in
  ∃ k : nat,
    (k ≤ length envs)%nat
    ∧ cache_reads r.1
      = cache_reads w ++ replicate k (ReadExperiment (er_jobs s))
    ∧ ∀ s', r.2 = Sleep s' → k = length envs ∧ er_jobs s' = er_jobs s.
Proof.
  simpl. revert s w. induction envs as [|env envs IH]; intros s w; simpl.
  - exists 0%nat. split; [done|]. split; [by rewrite app_nil_r|].
    by intros s' [= <-].
  - destruct (experiment_resources_cycle_reads env s w) as [Hr Hj].
    destruct (experiment_resources_cycle env s w) as [w1 [s1| |]];
      simpl in *.
    + destruct (IH s1 w1) as (k & Hk & Hreads & Hs).
      rewrite (Hj s1 eq_refl) in Hreads, Hs.
      exists (S k). split; [lia|]. split.
      * rewrite Hreads, Hr. by rewrite <- app_assoc.
      * intros s' Hs'. destruct (Hs s' Hs') as [-> ->]. done.
    + exists 1%nat. split; [lia|]. by split.
    + exists 1%nat. split; [lia|]. by split.
Qed.

(** C10.  The setup of [experiment_resources] computes the list [jobs] from
    the jobs the experiment has at that time, without asking the cache.
    However long the handler then runs, and whatever the database holds in
    each iteration, every question it puts to the cache is about that list;
    a handler that is still running after the iterations has asked once per
    iteration and still holds the list. *)
Theorem experiment_jobs_are_resolved_once
    (db : DB) (request : Request) (ws : conn)
    (username project_name' : string) (experiment_id' : string)
    (w w0 : World) (s0 : ExperimentResourcesSession) :
  experiment_resources_setup db request ws username project_name'
    experiment_id' w = Ok (w0, s0) →
  er_jobs s0 = experiment_jobs db (er_experiment s0)
  ∧ cache_reads w0 = cache_reads w
  ∧ ∀ envs : list CycleEnv,
      let r := experiment_resources_run envs s0 w0 in
      ∃ k : nat,
        (k ≤ length envs)%nat
        ∧ cache_reads r.1
          = cache_reads w
            ++ replicate k (ReadExperiment (experiment_jobs db
                                              (er_experiment s0)))
        ∧ ∀ s', r.2 = Sleep s' →
                k = length envs
                ∧ er_jobs s' = experiment_jobs db (er_experiment s0).
Proof.
  intros Hsetup.
  assert (er_jobs s0 = experiment_jobs db (er_experiment s0)
          ∧ cache_reads w0 = cache_reads w) as [Hjobs Hreads].
  { unfold experiment_resources_setup in Hsetup.
    destruct (_get_project _ _ _) as [project|]; [|done].
    rewrite bind_Ok in Hsetup.
    destruct (_get_running_experiment _ _ _) as [experiment|]; [|done].
    rewrite bind_Ok in Hsetup. simpl in Hsetup.
    unfold ensure_monitored in Hsetup.
    repeat case_match; simplify_eq; simpl; split; reflexivity. }
  split; [done|]. split; [done|]. intros envs r.
  destruct (experiment_resources_run_reads envs s0 w0) as (k & Hk & Hr & Hs).
  exists k. rewrite <- Hjobs, <- Hreads. split; [done|]. split; [done|].
  exact Hs.
Qed.

Lemma experiment_jobs_are_resolved_once_witness :
  cache_reads
    (experiment_resources_run
       [with_snapshot db_two_jobs []; with_snapshot db_two_jobs []]
       (experiment_resources_locals 5 0)
       (world (run boot [resources_of_e10 5]))).1
  = [ReadExperiment [ {| entry_uuid := "j100"; entry_name := "master.100" |} ];
     ReadExperiment [ {| entry_uuid := "j100"; entry_name := "master.100" |} ]]
  ∧ experiment_jobs db_two_jobs (e10 true false)
    = [ {| entry_uuid := "j100"; entry_name := "master.100" |};
        {| entry_uuid := "j101"; entry_name := "worker.101" |} ].
Proof.
  split; [|by vm_compute].
  destruct (experiment_jobs_are_resolved_once db_running as_alice 5 "alice"
              "mnist" "10" started (world (run boot [resources_of_e10 5]))
              (experiment_resources_locals 5 0) eq_refl) as (_ & _ & Hrun).
  destruct (Hrun [with_snapshot db_two_jobs []; with_snapshot db_two_jobs []])
    as (k & Hk & Hreads & Hs).
  destruct (Hs (experiment_resources_locals 5 2)) as [-> _];
    [by vm_compute|].
  exact Hreads.
Defined.

(** ** One shared object per key *)


Lemma setup_prelude e u a is_monitored monitor k w :
  let w1 := ensure_monitored is_monitored monitor k (auditor_record e u a w) in
  app w1 = app w ∧ socket_managers w1 = socket_managers w
  ∧ consumers w1 = consumers w.
Proof. simpl. unfold ensure_monitored. by case_match. Qed.





Lemma grows_refl w : grows w w.
Proof. by repeat split. Qed.

























(** * Further properties of the handlers *)

(** ** Resolution failures *)

Lemma find_None_elem_of {A} (f : A → bool) (l : list A) :
  (∀ x, x ∈ l → f x = false) → find f l = None.
Proof.
  induction l as [|a l IH]; [done|]. intros H. simpl.
  rewrite (H a) by set_solver. apply IH. intros x Hx. apply H. set_solver.
Qed.

Lemma refused_by_the_experiment_lookup
    (settings : Settings) (db : DB) (request : Request) (ws : conn)
    (username project_name' : string) (experiment_id' job_id' : string)
    (g : Gateway) (project : Project) (e : Exception) :
  Project_objects_get db project_name' username = Some project →
  _get_experiment db project experiment_id' = Raise e →
  refused_with settings db request ws username project_name' experiment_id'
    job_id' g e.
Proof.
  intros Hp He.
  assert (Hx : _get_running_experiment db project experiment_id' = Raise e)
    by (unfold _get_running_experiment; by rewrite He).
  assert (H1 : job_resources_setup db request ws username project_name'
                 experiment_id' job_id' (world g) = Raise e)
    by (unfold job_resources_setup, _get_project;
        by rewrite Hp, bind_Ok, Hx).
  assert (H2 : experiment_resources_setup db request ws username
                 project_name' experiment_id' (world g) = Raise e)
    by (unfold experiment_resources_setup, _get_project;
        by rewrite Hp, bind_Ok, Hx).
  assert (H3 : job_logs_setup settings db request ws username project_name'
                 experiment_id' job_id' (world g) = Raise e)
    by (unfold job_logs_setup, _get_project; by rewrite Hp, bind_Ok, Hx).
  assert (H4 : experiment_logs_setup settings db request ws username
                 project_name' experiment_id' (world g) = Raise e)
    by (unfold experiment_logs_setup, _get_project;
        by rewrite Hp, bind_Ok, Hx).
  unfold refused_with, step. simpl. rewrite H1, H2, H3, H4.
  by repeat split; case_bool_decide.
Qed.

(** X1.  A project or an experiment that cannot be resolved stops each of
    the four handlers before anything is built, and the connect leaves the
    gateway as it was.  The project is looked up first: without a project
    of that name under that user the handlers raise [NotFound "Project was
    not found"].  With the project, the experiment segment decides: a
    segment that [int()] does not read raises [ValueError], a numeral
    outside the signed 64-bit range raises [OverflowError], neither of them
    caught; a numeral in the range that is the id of no experiment of the
    project raises [NotFound "Experiment was not found"]. *)
Theorem unresolved_project_or_experiment_is_refused
    (settings : Settings) (db : DB) (request : Request) (ws : conn)
    (username project_name' : string) (experiment_id' job_id' : string)
    (g : Gateway) :
  (Project_objects_get db project_name' username = None →
     refused_with settings db request ws username project_name'
       experiment_id' job_id' g (NotFound "Project was not found"))
  ∧ (∀ project,
       Project_objects_get db project_name' username = Some project →
       (int experiment_id' = None →
          refused_with settings db request ws username project_name'
            experiment_id' job_id' g ValueError)
       ∧ (∀ id, int experiment_id' = Some id →
            ¬ (- 2 ^ 63 ≤ id < 2 ^ 63) →
            refused_with settings db request ws username project_name'
              experiment_id' job_id' g OverflowError)
       ∧ (∀ id, int experiment_id' = Some id →
            - 2 ^ 63 ≤ id < 2 ^ 63 →
            (∀ experiment, experiment ∈ Experiment_objects db →
               experiment_project experiment = project_id project →
               Z.of_nat (experiment_id experiment) ≠ id) →
            refused_with settings db request ws username project_name'
              experiment_id' job_id' g
              (NotFound "Experiment was not found"))).
Proof.
  split.
  - intros Hp.
    assert (H1 : job_resources_setup db request ws username project_name'
                   experiment_id' job_id' (world g)
                 = Raise (NotFound "Project was not found"))
      by (unfold job_resources_setup, _get_project; by rewrite Hp).
    assert (H2 : experiment_resources_setup db request ws username
                   project_name' experiment_id' (world g)
                 = Raise (NotFound "Project was not found"))
      by (unfold experiment_resources_setup, _get_project; by rewrite Hp).
    assert (H3 : job_logs_setup settings db request ws username project_name'
                   experiment_id' job_id' (world g)
                 = Raise (NotFound "Project was not found"))
      by (unfold job_logs_setup, _get_project; by rewrite Hp).
    assert (H4 : experiment_logs_setup settings db request ws username
                   project_name' experiment_id' (world g)
                 = Raise (NotFound "Project was not found"))
      by (unfold experiment_logs_setup, _get_project; by rewrite Hp).
    unfold refused_with, step. simpl. rewrite H1, H2, H3, H4.
    by repeat split; case_bool_decide.
  - intros project Hp. split; [|split].
    + intros Hint. apply (refused_by_the_experiment_lookup _ _ _ _ _ _ _ _ _ project);
        [done|].
      unfold _get_experiment, Experiment_objects_get, lookup_id.
      by rewrite Hint.
    + intros id Hint Hrange.
      apply (refused_by_the_experiment_lookup _ _ _ _ _ _ _ _ _ project);
        [done|].
      unfold _get_experiment, Experiment_objects_get, lookup_id.
      rewrite Hint. by rewrite bool_decide_eq_false_2.
    + intros id Hint Hrange Hrows.
      apply (refused_by_the_experiment_lookup _ _ _ _ _ _ _ _ _ project);
        [done|].
      unfold _get_experiment, Experiment_objects_get, lookup_id.
      rewrite Hint, bool_decide_eq_true_2, bind_Ok by done.
      rewrite find_None_elem_of; [done|].
      intros experiment Hin. apply bool_decide_eq_false_2.
      intros [Hproject Hid]. by apply (Hrows experiment).
Qed.

Lemma unresolved_project_or_experiment_is_refused_witness :
  job_logs_setup settings db_running as_alice 5 "bob" "mnist" "10" "100" started
  = Raise (NotFound "Project was not found")
  ∧ job_logs_setup settings db_running as_alice 5 "alice" "mnist" "abc" "100"
      started
    = Raise ValueError
  ∧ job_logs_setup settings db_running as_alice 5 "alice" "mnist"
      "99999999999999999999" "100" started
    = Raise OverflowError
  ∧ job_logs_setup settings db_running as_alice 5 "alice" "mnist" "11" "100"
      started
    = Raise (NotFound "Experiment was not found").
Proof.
  destruct (unresolved_project_or_experiment_is_refused settings db_running
              as_alice 5 "bob" "mnist" "10" "100" boot) as [H _].
  destruct (unresolved_project_or_experiment_is_refused settings db_running
              as_alice 5 "alice" "mnist" "abc" "100" boot) as [_ Habc].
  destruct (unresolved_project_or_experiment_is_refused settings db_running
              as_alice 5 "alice" "mnist" "99999999999999999999" "100" boot)
    as [_ Hbig].
  destruct (unresolved_project_or_experiment_is_refused settings db_running
              as_alice 5 "alice" "mnist" "11" "100" boot) as [_ H11].
  split; [exact (proj1 (proj2 (proj2 (H eq_refl))))|].
  split; [exact (proj1 (proj2 (proj2
                   (proj1 (Habc mnist eq_refl) eq_refl))))|].
  split.
  - refine (proj1 (proj2 (proj2
              (proj1 (proj2 (Hbig mnist eq_refl))
                 99999999999999999999 eq_refl _)))).
    lia.
  - refine (proj1 (proj2 (proj2
              (proj2 (proj2 (H11 mnist eq_refl)) 11 eq_refl _ _)))).
    + lia.
    + intros experiment Hin _.
      apply list_elem_of_singleton in Hin as ->. by vm_compute.
Defined.

(** ** What a setup leaves behind *)

Lemma get_running_experiment_Ok db project experiment_id' experiment :
  Experiment_objects_get db project experiment_id' = Ok (Some experiment) →
  experiment_is_running experiment = true →
  _get_running_experiment db project experiment_id' = Ok experiment.
Proof.
  intros He Hr. unfold _get_running_experiment, _get_experiment.
  rewrite He. simpl. by rewrite Hr.
Qed.

Lemma get_job_Ok db experiment job_id' job :
  ExperimentJob_objects_get db experiment job_id' = Ok (Some job) →
  job_is_running job = true →
  _get_job db experiment job_id' = Ok job.
Proof. intros Hj Hr. unfold _get_job. by rewrite Hj, bind_Ok, Hr. Qed.

Lemma ensure_monitored_effects K e k actor w :
  setup_effects K e k actor w
    (ensure_monitored (monitored K)
       (match K with
        | JOB_RESOURCES => monitor_job_resources
        | EXPERIMENT_RESOURCES => monitor_experiment_resources
        | JOB_LOGS => monitor_job_logs
        | EXPERIMENT_LOGS => monitor_experiment_logs
        end) k (auditor_record e k actor w)).
Proof.
  unfold setup_effects, ensure_monitored.
  case_bool_decide as Hin; simpl; (split; [done|]); (split; [|done]);
    intros K'; case_decide as HK; subst;
    destruct K; try destruct K'; simpl in *; try done; set_solver.
Qed.

Lemma setup_effects_same_log K e k actor w w1 w' :
  setup_effects K e k actor w w1 →
  audit w' = audit w1 → redis w' = redis w1 → sent w' = sent w1 →
  cache_reads w' = cache_reads w1 →
  setup_effects K e k actor w w'.
Proof.
  intros (?&?&?&?) Ha Hr Hs Hc. unfold setup_effects.
  by rewrite Ha, Hr, Hs, Hc.
Qed.

(** X2.  Once the project, the running experiment and (for the job streams) the
    running job are found, the setup of each handler goes through, whoever
    the user is: it appends one audit record, of the handler's event type,
    for the watched object and the requesting user; it marks the key in the
    cache of its stream and of no other; it sends nothing and asks the cache
    nothing; and the handler starts its loop on its own connection with its
    counter at zero. *)
Theorem setup_goes_through
    (settings : Settings) (db : DB) (request : Request) (ws : conn)
    (username project_name' : string) (experiment_id' job_id' : string)
    (w : World) (project : Project) (experiment : Experiment) :
  Project_objects_get db project_name' username = Some project →
  Experiment_objects_get db project experiment_id' = Ok (Some experiment) →
  experiment_is_running experiment = true →
  let actor := user_id (request_app_user request) in
  (∃ w' s,
     experiment_resources_setup db request ws username project_name'
       experiment_id' w = Ok (w', s)
     ∧ setup_effects EXPERIMENT_RESOURCES EXPERIMENT_RESOURCES_VIEWED
         (experiment_uuid_hex experiment) actor w w'
     ∧ consumers w' = consumers w
     ∧ er_ws s = ws ∧ er_experiment s = experiment
     ∧ er_experiment_uuid s = experiment_uuid_hex experiment
     ∧ er_should_check s = 0)
  ∧ (∃ w' s,
       experiment_logs_setup settings db request ws username project_name'
         experiment_id' w = Ok (w', s)
       ∧ setup_effects EXPERIMENT_LOGS EXPERIMENT_LOGS_VIEWED
           (experiment_uuid_hex experiment) actor w w'
       ∧ socket_managers w' = socket_managers w
       ∧ el_ws s = ws ∧ el_experiment s = experiment
       ∧ el_experiment_uuid s = experiment_uuid_hex experiment
       ∧ el_should_quite s = false ∧ el_num_message_retries s = 0)
  ∧ (∀ job,
       ExperimentJob_objects_get db experiment job_id' = Ok (Some job) →
       job_is_running job = true →
       (∃ w' s,
          job_resources_setup db request ws username project_name'
            experiment_id' job_id' w = Ok (w', s)
          ∧ setup_effects JOB_RESOURCES EXPERIMENT_JOB_RESOURCES_VIEWED
              (job_uuid_hex job) actor w w'
          ∧ consumers w' = consumers w
          ∧ jr_ws s = ws ∧ jr_job s = job
          ∧ jr_job_uuid s = job_uuid_hex job
          ∧ jr_job_name s = job_role job +:+ "." +:+ pretty (job_id job)
          ∧ jr_should_check s = 0)
       ∧ (∃ w' s,
            job_logs_setup settings db request ws username project_name'
              experiment_id' job_id' w = Ok (w', s)
            ∧ setup_effects JOB_LOGS EXPERIMENT_JOB_LOGS_VIEWED
                (job_uuid_hex job) actor w w'
            ∧ socket_managers w' = socket_managers w
            ∧ jl_ws s = ws ∧ jl_job s = job
            ∧ jl_job_uuid s = job_uuid_hex job
            ∧ jl_should_quite s = false ∧ jl_num_message_retries s = 0)).
Proof.
  intros Hp He Hr actor.
  pose proof (get_running_experiment_Ok _ _ _ _ He Hr) as Hx.
  split; [|split].
  - unfold experiment_resources_setup, _get_project.
    rewrite Hp, bind_Ok, Hx, bind_Ok. cbv zeta.
    pose proof (ensure_monitored_effects EXPERIMENT_RESOURCES
                  EXPERIMENT_RESOURCES_VIEWED (experiment_uuid_hex experiment)
                  actor w) as Heff.
    destruct (setup_prelude EXPERIMENT_RESOURCES_VIEWED
                (experiment_uuid_hex experiment) actor
                monitored_experiment_resources monitor_experiment_resources
                (experiment_uuid_hex experiment) w) as (_ & _ & Hc).
    simpl in Heff. fold actor.
    set (w1 := ensure_monitored _ _ _ _) in *.
    destruct (experiment_resources_ws_mangers (app w1) !! _);
      eexists _, _; (split; [reflexivity|]); simpl;
      (split; [by eapply setup_effects_same_log|]); by repeat split.
  - unfold experiment_logs_setup, _get_project.
    rewrite Hp, bind_Ok, Hx, bind_Ok. cbv zeta.
    pose proof (ensure_monitored_effects EXPERIMENT_LOGS
                  EXPERIMENT_LOGS_VIEWED (experiment_uuid_hex experiment)
                  actor w) as Heff.
    destruct (setup_prelude EXPERIMENT_LOGS_VIEWED
                (experiment_uuid_hex experiment) actor
                monitored_experiment_logs monitor_experiment_logs
                (experiment_uuid_hex experiment) w) as (_ & Hs & _).
    simpl in Heff. fold actor.
    set (w1 := ensure_monitored _ _ _ _) in *.
    destruct (experiment_logs_consumers (app w1) !! _);
      eexists _, _; (split; [reflexivity|]); simpl;
      (split; [by eapply setup_effects_same_log|]); by repeat split.
  - intros job Hj Hjr. pose proof (get_job_Ok _ _ _ _ Hj Hjr) as Hy. split.
    + unfold job_resources_setup, _get_project.
      rewrite Hp, bind_Ok, Hx, bind_Ok, Hy, bind_Ok. cbv zeta.
      pose proof (ensure_monitored_effects JOB_RESOURCES
                    EXPERIMENT_JOB_RESOURCES_VIEWED (job_uuid_hex job)
                    actor w) as Heff.
      destruct (setup_prelude EXPERIMENT_JOB_RESOURCES_VIEWED
                  (job_uuid_hex job) actor monitored_job_resources
                  monitor_job_resources (job_uuid_hex job) w)
        as (_ & _ & Hc).
      simpl in Heff. fold actor.
      set (w1 := ensure_monitored _ _ _ _) in *.
      destruct (job_resources_ws_mangers (app w1) !! _);
        eexists _, _; (split; [reflexivity|]); simpl;
        (split; [by eapply setup_effects_same_log|]); by repeat split.
    + unfold job_logs_setup, _get_project.
      rewrite Hp, bind_Ok, Hx, bind_Ok, Hy, bind_Ok. cbv zeta.
      pose proof (ensure_monitored_effects JOB_LOGS
                    EXPERIMENT_JOB_LOGS_VIEWED (job_uuid_hex job)
                    actor w) as Heff.
      destruct (setup_prelude EXPERIMENT_JOB_LOGS_VIEWED
                  (job_uuid_hex job) actor monitored_job_logs
                  monitor_job_logs (job_uuid_hex job) w) as (_ & Hs & _).
      simpl in Heff. fold actor.
      set (w1 := ensure_monitored _ _ _ _) in *.
      destruct (job_logs_consumers (app w1) !! _);
        eexists _, _; (split; [reflexivity|]); simpl;
        (split; [by eapply setup_effects_same_log|]); by repeat split.
Qed.

Lemma setup_goes_through_witness :
  setup_effects JOB_LOGS EXPERIMENT_JOB_LOGS_VIEWED "j100" 2 started
    (world (accept JobLogs 5 boot
              (job_logs_setup settings db_running as_mallory 5 "alice"
                 "mnist" "10" "100" started))).
Proof.
  destruct (setup_goes_through settings db_running as_mallory 5 "alice"
              "mnist" "10" "100" started mnist (e10 true false)
              eq_refl eq_refl eq_refl) as (_ & _ & Hjob).
  destruct (Hjob (j100 true false) eq_refl eq_refl)
    as (_ & w' & s & Hs & Heff & _).
  rewrite Hs. exact Heff.
Defined.

(** ** Leaving a resource stream *)

(** The two ways the closure of [job_resources] ends: with the key popped
    and unmarked when the caller's connection was the last of the group,
    with the table and the marks as they were otherwise. *)
Lemma handle_job_disconnected_ws_cases s ws w :
  let rest := manager_ws (jr_ws_manager s) w ∖ {[ws]} in
  let w1 := manager_remove_sockets (jr_ws_manager s) {[ws]} w in
  manager_ws (jr_ws_manager s) w1 = rest
  ∧ ((rest = ∅
      ∧ handle_job_disconnected_ws s ws w
        = with_app (λ a, set_job_resources_ws_mangers
                           (delete (jr_job_uuid s)
                              (job_resources_ws_mangers a)) a)
            (with_redis (remove_job_resources (jr_job_uuid s)) w1))
     ∨ (rest ≠ ∅ ∧ handle_job_disconnected_ws s ws w = w1)).
Proof.
  simpl. unfold handle_job_disconnected_ws.
  pose proof (manager_ws_remove_sockets (jr_ws_manager s) (jr_ws_manager s)
                {[ws]} w) as Hown.
  rewrite decide_True in Hown by done. rewrite Hown. split; [done|].
  case_bool_decide; [by left|by right].
Qed.

Lemma handle_experiment_disconnected_ws_cases s ws w :
  let rest := manager_ws (er_ws_manager s) w ∖ {[ws]} in
  let w1 := manager_remove_sockets (er_ws_manager s) {[ws]} w in
  manager_ws (er_ws_manager s) w1 = rest
  ∧ ((rest = ∅
      ∧ handle_experiment_disconnected_ws s ws w
        = with_app (λ a, set_experiment_resources_ws_mangers
                           (delete (er_experiment_uuid s)
                              (experiment_resources_ws_mangers a)) a)
            (with_redis (remove_experiment_resources (er_experiment_uuid s))
               w1))
     ∨ (rest ≠ ∅ ∧ handle_experiment_disconnected_ws s ws w = w1)).
Proof.
  simpl. unfold handle_experiment_disconnected_ws.
  pose proof (manager_ws_remove_sockets (er_ws_manager s) (er_ws_manager s)
                {[ws]} w) as Hown.
  rewrite decide_True in Hown by done. rewrite Hown. split; [done|].
  case_bool_decide; [by left|by right].
Qed.

(** What leaving through the closure does, when the closure is called on
    a world that has the tables, the marks and the groups of [w]. *)
Lemma job_resources_leave s w w1 :
  app w1 = app w → redis w1 = redis w →
  socket_managers w1 = socket_managers w →
  let rest := manager_ws (jr_ws_manager s) w ∖ {[jr_ws s]} in
  let w' := handle_job_disconnected_ws s (jr_ws s) w1 in
  manager_ws (jr_ws_manager s) w' = rest
  ∧ sent w' = sent w1
  ∧ (rest = ∅ →
     app w' = set_job_resources_ws_mangers
                (delete (jr_job_uuid s) (job_resources_ws_mangers (app w)))
                (app w)
     ∧ redis w' = remove_job_resources (jr_job_uuid s) (redis w))
  ∧ (rest ≠ ∅ → app w' = app w ∧ redis w' = redis w).
Proof.
  intros Ha Hr Hs. simpl.
  destruct (handle_job_disconnected_ws_cases s (jr_ws s) w1) as [Hm Hc].
  simpl in Hm, Hc.
  assert (manager_ws (jr_ws_manager s) w1 = manager_ws (jr_ws_manager s) w)
    as Hg by (unfold manager_ws; by rewrite Hs).
  rewrite Hg in Hm, Hc.
  destruct Hc as [[He ->]|[He ->]]; simpl.
  - rewrite Ha, Hr. split; [by rewrite <- Hg in Hm |- *|]. by repeat split.
  - rewrite Ha, Hr. by repeat split.
Qed.

Lemma experiment_resources_leave s w w1 :
  app w1 = app w → redis w1 = redis w →
  socket_managers w1 = socket_managers w →
  let rest := manager_ws (er_ws_manager s) w ∖ {[er_ws s]} in
  let w' := handle_experiment_disconnected_ws s (er_ws s) w1 in
  manager_ws (er_ws_manager s) w' = rest
  ∧ sent w' = sent w1
  ∧ (rest = ∅ →
     app w' = set_experiment_resources_ws_mangers
                (delete (er_experiment_uuid s)
                   (experiment_resources_ws_mangers (app w)))
                (app w)
     ∧ redis w' = remove_experiment_resources (er_experiment_uuid s) (redis w))
  ∧ (rest ≠ ∅ → app w' = app w ∧ redis w' = redis w).
Proof.
  intros Ha Hr Hs. simpl.
  destruct (handle_experiment_disconnected_ws_cases s (er_ws s) w1)
    as [Hm Hc].
  simpl in Hm, Hc.
  assert (manager_ws (er_ws_manager s) w1 = manager_ws (er_ws_manager s) w)
    as Hg by (unfold manager_ws; by rewrite Hs).
  rewrite Hg in Hm, Hc.
  destruct Hc as [[He ->]|[He ->]]; simpl.
  - rewrite Ha, Hr. split; [by rewrite <- Hg in Hm |- *|]. by repeat split.
  - rewrite Ha, Hr. by repeat split.
Qed.

(** X3.  A resource handler that notices that its connection is lost, or whose
    send raises [ConnectionClosed], returns in that iteration with its
    connection out of the group.  If no other connection is left in the
    group, the key leaves the table of its stream and is unmarked in the
    cache; if one is left, the table and the marks stay as they were. *)
Theorem last_resource_viewer_releases_the_key (env : CycleEnv) :
  (∀ (s : JobResourcesSession) (w : World),
     let resources :=
       latest_job_resources env (jr_job_uuid s) (jr_job_name s) in
     let rest := manager_ws (jr_ws_manager s) w ∖ {[jr_ws s]} in
     let r := job_resources_cycle env s w in
     job_found_done env s = false → r.2 ≠ Uncaught →
     _connection_lost env = true
     ∨ (truthy resources = true ∧ ConnectionClosed env 0 (jr_ws s) = true) →
     r.2 = Return
     ∧ manager_ws (jr_ws_manager s) r.1 = rest
     ∧ (rest = ∅ →
        app r.1 = set_job_resources_ws_mangers
                    (delete (jr_job_uuid s)
                       (job_resources_ws_mangers (app w))) (app w)
        ∧ redis r.1 = remove_job_resources (jr_job_uuid s) (redis w))
     ∧ (rest ≠ ∅ → app r.1 = app w ∧ redis r.1 = redis w))
  ∧ (∀ (s : ExperimentResourcesSession) (w : World),
     let resources := latest_experiment_resources env (er_jobs s) in
     let rest := manager_ws (er_ws_manager s) w ∖ {[er_ws s]} in
     let r := experiment_resources_cycle env s w in
     experiment_found_done env s = false → r.2 ≠ Uncaught →
     _connection_lost env = true
     ∨ (truthy resources = true ∧ ConnectionClosed env 0 (er_ws s) = true) →
     r.2 = Return
     ∧ manager_ws (er_ws_manager s) r.1 = rest
     ∧ (rest = ∅ →
        app r.1 = set_experiment_resources_ws_mangers
                    (delete (er_experiment_uuid s)
                       (experiment_resources_ws_mangers (app w))) (app w)
        ∧ redis r.1
          = remove_experiment_resources (er_experiment_uuid s) (redis w))
     ∧ (rest ≠ ∅ → app r.1 = app w ∧ redis r.1 = redis w)).
Proof.
  split.
  - intros s w resources rest r. subst r rest resources.
    unfold job_resources_cycle, job_found_done, job_resources_deliver.
    set (q := cache_read _ w).
    pose proof (job_resources_leave s w q eq_refl eq_refl eq_refl) as Hq.
    pose proof (job_resources_leave s w
                  (ws_send (jr_ws s)
                     (default "" (latest_job_resources env (jr_job_uuid s)
                                    (jr_job_name s))) q)
                  eq_refl eq_refl eq_refl) as Hsend.
    simpl in Hq, Hsend.
    destruct Hq as (Hq1 & _ & Hq2 & Hq3).
    destruct Hsend as (Hs1 & _ & Hs2 & Hs3).
    case_bool_decide; simpl;
      [destruct (refresh_job_from_db _ _) as [job|]; simpl;
         [destruct (job_is_done job); simpl|]|];
      intros Hd Hu Hleave; try done;
      destruct (truthy _) eqn:Ht;
      try destruct (ConnectionClosed _ _ _) eqn:Hc;
      destruct (_connection_lost env) eqn:Hl; simpl in *;
      try (by destruct Hleave as [?|[? ?]]); by repeat split.
  - intros s w resources rest r. subst r rest resources.
    unfold experiment_resources_cycle, experiment_found_done,
      experiment_resources_deliver.
    set (q := cache_read _ w).
    pose proof (experiment_resources_leave s w q eq_refl eq_refl eq_refl)
      as Hq.
    pose proof (experiment_resources_leave s w
                  (ws_send (er_ws s)
                     (default "" (latest_experiment_resources env
                                    (er_jobs s))) q)
                  eq_refl eq_refl eq_refl) as Hsend.
    simpl in Hq, Hsend.
    destruct Hq as (Hq1 & _ & Hq2 & Hq3).
    destruct Hsend as (Hs1 & _ & Hs2 & Hs3).
    case_bool_decide; simpl;
      [destruct (refresh_experiment_from_db _ _) as [experiment|]; simpl;
         [destruct (experiment_is_done experiment); simpl|]|];
      intros Hd Hu Hleave; try done;
      destruct (truthy _) eqn:Ht;
      try destruct (ConnectionClosed _ _ _) eqn:Hc;
      destruct (_connection_lost env) eqn:Hl; simpl in *;
      try (by destruct Hleave as [?|[? ?]]); by repeat split.
Qed.

Lemma last_resource_viewer_releases_the_key_witness :
  (job_resources_cycle (cycle db_running None [] [] true)
     (job_resources_locals 5 0) (world (run boot [resources_of_j100 5]))).2
  = Return
  ∧ job_resources_ws_mangers
      (app (job_resources_cycle (cycle db_running None [] [] true)
              (job_resources_locals 5 0)
              (world (run boot [resources_of_j100 5]))).1) !! "j100" = None
  ∧ app (job_resources_cycle (cycle db_running None [] [] true)
           (job_resources_locals 5 0) (world two_resource_viewers)).1
    = app (world two_resource_viewers).
Proof.
  destruct (last_resource_viewer_releases_the_key
              (cycle db_running None [] [] true)) as [Hjob _].
  destruct (Hjob (job_resources_locals 5 0)
              (world (run boot [resources_of_j100 5])))
    as (Hret & _ & Hlast & _); [done| by vm_compute | by left |].
  destruct (Hjob (job_resources_locals 5 0) (world two_resource_viewers))
    as (_ & _ & _ & Hmore); [done| by vm_compute | by left |].
  split; [exact Hret|]. split.
  - destruct Hlast as [-> _]; by vm_compute.
  - apply Hmore. by vm_compute.
Defined.

Lemma empty_difference (X : gset conn) : (∅ : gset conn) ∖ X = ∅.
Proof.
  apply set_eq. intros x. rewrite elem_of_difference, elem_of_empty. tauto.
Qed.

Lemma manager_ws_cleared (m : ref) (w : World) :
  manager_ws m (manager_set_ws m ∅ w) = ∅.
Proof.
  rewrite manager_ws_set_ws, decide_True by done. by destruct (_ !! _).
Qed.

(** X4.  When the liveness check of a resource handler finds its job or
    experiment done, the handler returns in that iteration without sending
    the snapshot it fetched: the group of its key is emptied, whoever was in
    it, the key leaves the table of its stream and is unmarked in the
    cache.  The groups of the other keys are not touched. *)
Theorem finished_job_closes_the_resource_group (env : CycleEnv) :
  (∀ (s : JobResourcesSession) (w : World),
     let r := job_resources_cycle env s w in
     job_found_done env s = true →
     r.2 = Return
     ∧ sent r.1 = sent w
     ∧ manager_ws (jr_ws_manager s) r.1 = ∅
     ∧ (∀ m, m ≠ jr_ws_manager s → manager_ws m r.1 = manager_ws m w)
     ∧ app r.1 = set_job_resources_ws_mangers
                   (delete (jr_job_uuid s)
                      (job_resources_ws_mangers (app w))) (app w)
     ∧ redis r.1 = remove_job_resources (jr_job_uuid s) (redis w))
  ∧ (∀ (s : ExperimentResourcesSession) (w : World),
     let r := experiment_resources_cycle env s w in
     experiment_found_done env s = true →
     r.2 = Return
     ∧ sent r.1 = sent w
     ∧ manager_ws (er_ws_manager s) r.1 = ∅
     ∧ (∀ m, m ≠ er_ws_manager s → manager_ws m r.1 = manager_ws m w)
     ∧ app r.1 = set_experiment_resources_ws_mangers
                   (delete (er_experiment_uuid s)
                      (experiment_resources_ws_mangers (app w))) (app w)
     ∧ redis r.1
       = remove_experiment_resources (er_experiment_uuid s) (redis w)).
Proof.
  split.
  - intros s w r Hd. subst r. unfold job_found_done in Hd.
    apply andb_true_iff in Hd as [Hn Hd].
    unfold job_resources_cycle. rewrite Hn.
    destruct (refresh_job_from_db _ _) as [job|]; [|done].
    simpl in Hd. rewrite Hd. simpl.
    set (q := cache_read _ w).
    set (w0 := manager_set_ws (jr_ws_manager s) ∅ q).
    destruct (job_resources_leave s w0 w0 eq_refl eq_refl eq_refl)
      as (Hm & Hs & Hpop & _).
    destruct (handle_job_disconnected_ws_spec s (jr_ws s) w0) as [Hall _].
    simpl in *. unfold w0 in Hm, Hpop, Hall at 2 3.
    rewrite manager_ws_cleared, empty_difference in Hm, Hpop, Hall.
    destruct (Hpop eq_refl) as [Ha Hr].
    split; [done|]. split; [by rewrite Hs|]. split; [done|].
    split; [|by split].
    intros m Hne. rewrite Hall, decide_False by done.
    unfold w0. rewrite manager_ws_set_ws, decide_False by done. done.
  - intros s w r Hd. subst r. unfold experiment_found_done in Hd.
    apply andb_true_iff in Hd as [Hn Hd].
    unfold experiment_resources_cycle. rewrite Hn.
    destruct (refresh_experiment_from_db _ _) as [experiment|]; [|done].
    simpl in Hd. rewrite Hd. simpl.
    set (q := cache_read _ w).
    set (w0 := manager_set_ws (er_ws_manager s) ∅ q).
    destruct (experiment_resources_leave s w0 w0 eq_refl eq_refl eq_refl)
      as (Hm & Hs & Hpop & _).
    destruct (handle_experiment_disconnected_ws_spec s (er_ws s) w0)
      as [Hall _].
    simpl in *. unfold w0 in Hm, Hpop, Hall at 2 3.
    rewrite manager_ws_cleared, empty_difference in Hm, Hpop, Hall.
    destruct (Hpop eq_refl) as [Ha Hr].
    split; [done|]. split; [by rewrite Hs|]. split; [done|].
    split; [|by split].
    intros m Hne. rewrite Hall, decide_False by done.
    unfold w0. rewrite manager_ws_set_ws, decide_False by done. done.
Qed.

Lemma finished_job_closes_the_resource_group_witness :
  (job_resources_cycle (with_snapshot db_job_done [])
     (job_resources_locals 5 7) (world two_resource_viewers)).2 = Return
  ∧ sent (job_resources_cycle (with_snapshot db_job_done [])
            (job_resources_locals 5 7) (world two_resource_viewers)).1
    = sent (world two_resource_viewers)
  ∧ manager_ws 0
      (job_resources_cycle (with_snapshot db_job_done [])
         (job_resources_locals 5 7) (world two_resource_viewers)).1 = ∅.
Proof.
  destruct (finished_job_closes_the_resource_group
              (with_snapshot db_job_done [])) as [Hjob _].
  destruct (Hjob (job_resources_locals 5 7) (world two_resource_viewers)
              eq_refl) as (Hret & Hsent & Hm & _).
  by repeat split.
Defined.

(** ** Connecting and leaving again *)

Lemma App_eta (a : App) :
  {| job_resources_ws_mangers := job_resources_ws_mangers a;
     experiment_resources_ws_mangers := experiment_resources_ws_mangers a;
     job_logs_consumers := job_logs_consumers a;
     experiment_logs_consumers := experiment_logs_consumers a;
     experiment_resources_ws_manger := experiment_resources_ws_manger a |}
  = a.
Proof. by destruct a. Qed.

Lemma RedisToStream_eta (r : RedisToStream) :
  {| monitored_job_resources := monitored_job_resources r;
     monitored_experiment_resources := monitored_experiment_resources r;
     monitored_job_logs := monitored_job_logs r;
     monitored_experiment_logs := monitored_experiment_logs r |} = r.
Proof. by destruct r. Qed.

(** The setup of [job_resources] on a key that has no entry and no mark. *)
Lemma job_resources_setup_fresh db request ws u p e j w w1 s :
  job_resources_setup db request ws u p e j w = Ok (w1, s) →
  job_resources_ws_mangers (app w) !! jr_job_uuid s = None →
  jr_job_uuid s ∉ monitored_job_resources (redis w) →
  jr_ws s = ws ∧ jr_should_check s = 0
  ∧ app w1 = set_job_resources_ws_mangers
               (<[jr_job_uuid s := jr_ws_manager s]>
                  (job_resources_ws_mangers (app w))) (app w)
  ∧ redis w1 = monitor_job_resources (jr_job_uuid s) (redis w)
  ∧ manager_ws (jr_ws_manager s) w1 = {[ws]}.
Proof.
  unfold job_resources_setup. intros Hsetup.
  destruct (_get_project _ _ _) as [project|]; [|done].
  rewrite bind_Ok in Hsetup.
  destruct (_get_running_experiment _ _ _) as [experiment|]; [|done].
  rewrite bind_Ok in Hsetup.
  destruct (_get_job _ _ _) as [job|]; [|done].
  rewrite bind_Ok in Hsetup. cbv zeta in Hsetup.
  unfold ensure_monitored in Hsetup. simpl in Hsetup.
  case_bool_decide as Hin; simpl in Hsetup;
    destruct (job_resources_ws_mangers (app w) !! job_uuid_hex job) eqn:Hk;
    simpl in Hsetup; injection Hsetup as <- <-; simpl;
    intros Hnone Hmark; try congruence; try done.
  repeat split.
  unfold manager_ws. simpl.
  rewrite list_lookup_insert_eq by (rewrite length_app; simpl; lia).
  simpl. unfold manager_ws. simpl. rewrite list_lookup_middle by done. simpl.
  apply set_eq. intros x. rewrite elem_of_union, elem_of_empty. tauto.
Qed.

Lemma experiment_resources_setup_fresh db request ws u p e w w1 s :
  experiment_resources_setup db request ws u p e w = Ok (w1, s) →
  experiment_resources_ws_mangers (app w) !! er_experiment_uuid s = None →
  er_experiment_uuid s ∉ monitored_experiment_resources (redis w) →
  er_ws s = ws ∧ er_should_check s = 0
  ∧ app w1 = set_experiment_resources_ws_mangers
               (<[er_experiment_uuid s := er_ws_manager s]>
                  (experiment_resources_ws_mangers (app w))) (app w)
  ∧ redis w1 = monitor_experiment_resources (er_experiment_uuid s) (redis w)
  ∧ manager_ws (er_ws_manager s) w1 = {[ws]}.
Proof.
  unfold experiment_resources_setup. intros Hsetup.
  destruct (_get_project _ _ _) as [project|]; [|done].
  rewrite bind_Ok in Hsetup.
  destruct (_get_running_experiment _ _ _) as [experiment|]; [|done].
  rewrite bind_Ok in Hsetup. cbv zeta in Hsetup.
  unfold ensure_monitored in Hsetup. simpl in Hsetup.
  case_bool_decide as Hin; simpl in Hsetup;
    destruct (experiment_resources_ws_mangers (app w)
                !! experiment_uuid_hex experiment) eqn:Hk;
    simpl in Hsetup; injection Hsetup as <- <-; simpl;
    intros Hnone Hmark; try congruence; try done.
  repeat split.
  unfold manager_ws. simpl.
  rewrite list_lookup_insert_eq by (rewrite length_app; simpl; lia).
  simpl. unfold manager_ws. simpl. rewrite list_lookup_middle by done. simpl.
  apply set_eq. intros x. rewrite elem_of_union, elem_of_empty. tauto.
Qed.

Lemma pop_after_register_job (k : string) (m : ref) (a : App) :
  job_resources_ws_mangers a !! k = None →
  set_job_resources_ws_mangers
    (delete k (job_resources_ws_mangers
                 (set_job_resources_ws_mangers
                    (<[k := m]> (job_resources_ws_mangers a)) a)))
    (set_job_resources_ws_mangers (<[k := m]> (job_resources_ws_mangers a)) a)
  = a.
Proof.
  intros Hk. unfold set_job_resources_ws_mangers. simpl.
  rewrite delete_insert_eq, delete_id by done. apply App_eta.
Qed.

Lemma pop_after_register_experiment (k : string) (m : ref) (a : App) :
  experiment_resources_ws_mangers a !! k = None →
  set_experiment_resources_ws_mangers
    (delete k (experiment_resources_ws_mangers
                 (set_experiment_resources_ws_mangers
                    (<[k := m]> (experiment_resources_ws_mangers a)) a)))
    (set_experiment_resources_ws_mangers
       (<[k := m]> (experiment_resources_ws_mangers a)) a)
  = a.
Proof.
  intros Hk. unfold set_experiment_resources_ws_mangers. simpl.
  rewrite delete_insert_eq, delete_id by done. apply App_eta.
Qed.

Lemma unmark_after_mark_job (k : string) (r : RedisToStream) :
  k ∉ monitored_job_resources r →
  remove_job_resources k (monitor_job_resources k r) = r.
Proof.
  intros Hk. unfold remove_job_resources, monitor_job_resources. simpl.
  replace (({[k]} ∪ monitored_job_resources r) ∖ {[k]})
    with (monitored_job_resources r) by set_solver.
  apply RedisToStream_eta.
Qed.

Lemma unmark_after_mark_experiment (k : string) (r : RedisToStream) :
  k ∉ monitored_experiment_resources r →
  remove_experiment_resources k (monitor_experiment_resources k r) = r.
Proof.
  intros Hk.
  unfold remove_experiment_resources, monitor_experiment_resources. simpl.
  replace (({[k]} ∪ monitored_experiment_resources r) ∖ {[k]})
    with (monitored_experiment_resources r) by set_solver.
  apply RedisToStream_eta.
Qed.

(** X5.  A viewer that opens a resource stream on a key nobody watches (no
    entry in the table, no mark in the cache) and whose connection is then
    found lost in its first iteration leaves the application's tables and
    the cache marks exactly as they were before it connected; the handler
    has returned and the group it built is empty. *)
Theorem resource_stream_opened_and_left_restores_the_tables
    (db : DB) (request : Request) (ws : conn)
    (username project_name' : string) (experiment_id' job_id' : string)
    (w : World) (env : CycleEnv) :
  _connection_lost env = true →
  (∀ w1 s,
     job_resources_setup db request ws username project_name'
       experiment_id' job_id' w = Ok (w1, s) →
     job_resources_ws_mangers (app w) !! jr_job_uuid s = None →
     jr_job_uuid s ∉ monitored_job_resources (redis w) →
     let r := job_resources_cycle env s w1 in
     r.2 = Return ∧ app r.1 = app w ∧ redis r.1 = redis w
     ∧ manager_ws (jr_ws_manager s) r.1 = ∅)
  ∧ (∀ w1 s,
       experiment_resources_setup db request ws username project_name'
         experiment_id' w = Ok (w1, s) →
       experiment_resources_ws_mangers (app w) !! er_experiment_uuid s = None →
       er_experiment_uuid s ∉ monitored_experiment_resources (redis w) →
       let r := experiment_resources_cycle env s w1 in
       r.2 = Return ∧ app r.1 = app w ∧ redis r.1 = redis w
       ∧ manager_ws (er_ws_manager s) r.1 = ∅).
Proof.
  intros Hlost. split.
  - intros w1 s Hsetup Hnone Hmark r. subst r.
    destruct (job_resources_setup_fresh _ _ _ _ _ _ _ _ _ _ Hsetup Hnone
                Hmark) as (Hws & Hsc & Ha & Hr & Hg).
    unfold job_resources_cycle, job_resources_deliver.
    rewrite Hsc, Hlost. simpl.
    set (q := cache_read _ w1).
    assert (manager_ws (jr_ws_manager s) w1 ∖ {[jr_ws s]} = ∅) as Hrest
      by (rewrite Hg, Hws; set_solver).
    pose proof (job_resources_leave s w1 q eq_refl eq_refl eq_refl) as Hq.
    pose proof (job_resources_leave s w1
                  (ws_send (jr_ws s)
                     (default "" (latest_job_resources env (jr_job_uuid s)
                                    (jr_job_name s))) q)
                  eq_refl eq_refl eq_refl) as Hsend.
    simpl in Hq, Hsend. rewrite Hrest in Hq, Hsend.
    destruct Hq as (Hq1 & _ & Hq2 & _). destruct (Hq2 eq_refl) as [Hqa Hqr].
    destruct Hsend as (Hs1 & _ & Hs2 & _).
    destruct (Hs2 eq_refl) as [Hsa Hsr].
    rewrite Ha in Hqa, Hsa. rewrite Hr in Hqr, Hsr.
    rewrite pop_after_register_job in Hqa, Hsa by done.
    rewrite unmark_after_mark_job in Hqr, Hsr by done.
    destruct (truthy _); [destruct (ConnectionClosed _ _ _)|]; by repeat split.
  - intros w1 s Hsetup Hnone Hmark r. subst r.
    destruct (experiment_resources_setup_fresh _ _ _ _ _ _ _ _ _ Hsetup Hnone
                Hmark) as (Hws & Hsc & Ha & Hr & Hg).
    unfold experiment_resources_cycle, experiment_resources_deliver.
    rewrite Hsc, Hlost. simpl.
    set (q := cache_read _ w1).
    assert (manager_ws (er_ws_manager s) w1 ∖ {[er_ws s]} = ∅) as Hrest
      by (rewrite Hg, Hws; set_solver).
    pose proof (experiment_resources_leave s w1 q eq_refl eq_refl eq_refl)
      as Hq.
    pose proof (experiment_resources_leave s w1
                  (ws_send (er_ws s)
                     (default "" (latest_experiment_resources env
                                    (er_jobs s))) q)
                  eq_refl eq_refl eq_refl) as Hsend.
    simpl in Hq, Hsend. rewrite Hrest in Hq, Hsend.
    destruct Hq as (Hq1 & _ & Hq2 & _). destruct (Hq2 eq_refl) as [Hqa Hqr].
    destruct Hsend as (Hs1 & _ & Hs2 & _).
    destruct (Hs2 eq_refl) as [Hsa Hsr].
    rewrite Ha in Hqa, Hsa. rewrite Hr in Hqr, Hsr.
    rewrite pop_after_register_experiment in Hqa, Hsa by done.
    rewrite unmark_after_mark_experiment in Hqr, Hsr by done.
    destruct (truthy _); [destruct (ConnectionClosed _ _ _)|]; by repeat split.
Qed.

Lemma resource_stream_opened_and_left_restores_the_tables_witness :
  app (job_resources_cycle (cycle db_running (Some "cpu=1") [] [] true)
         (job_resources_locals 5 0)
         (world (run boot [resources_of_j100 5]))).1 = app started
  ∧ redis (job_resources_cycle (cycle db_running (Some "cpu=1") [] [] true)
             (job_resources_locals 5 0)
             (world (run boot [resources_of_j100 5]))).1 = redis started.
Proof.
  destruct (resource_stream_opened_and_left_restores_the_tables db_running
              as_alice 5 "alice" "mnist" "10" "100" started
              (cycle db_running (Some "cpu=1") [] [] true) eq_refl)
    as [Hjob _].
  destruct (Hjob (world (run boot [resources_of_j100 5]))
              (job_resources_locals 5 0))
    as (_ & Ha & Hr & _); [by vm_compute| by vm_compute | by vm_compute |].
  by split.
Defined.

(** ** The counters *)

Lemma should_check_after_at (n : nat) :
  should_check_after (should_check_at n) = should_check_at (S n).
Proof.
  unfold should_check_after, should_check_at, RESOURCES_CHECK, CHECK_DELAY.
  repeat case_decide; case_bool_decide; Z.div_mod_to_equations; lia.
Qed.

Lemma job_resources_cycle_counter env s w s' :
  (job_resources_cycle env s w).2 = Sleep s' →
  jr_should_check s' = should_check_after (jr_should_check s).
Proof.
  unfold job_resources_cycle, should_check_after.
  repeat case_match; try done;
    intros Hs; by rewrite (job_resources_deliver_Sleep _ _ _ _ _ _ _ Hs).
Qed.

Lemma experiment_resources_cycle_counter env s w s' :
  (experiment_resources_cycle env s w).2 = Sleep s' →
  er_should_check s' = should_check_after (er_should_check s).
Proof.
  unfold experiment_resources_cycle, should_check_after.
  repeat case_match; try done;
    intros Hs;
    by rewrite (experiment_resources_deliver_Sleep _ _ _ _ _ _ _ Hs).
Qed.

Lemma job_resources_run_counter envs s w w' s' (n : nat) :
  jr_should_check s = should_check_at n →
  job_resources_run envs s w = (w', Sleep s') →
  jr_should_check s' = should_check_at (n + length envs).
Proof.
  revert s w n. induction envs as [|env envs IH]; intros s w n Hn; simpl.
  - intros [= <- <-]. by rewrite Nat.add_0_r.
  - pose proof (job_resources_cycle_counter env s w) as Hc.
    destruct (job_resources_cycle env s w) as [w1 [s1| |]]; [|done..].
    intros Hrun. replace (n + S (length envs))%nat
      with (S n + length envs)%nat by lia.
    apply (IH s1 w1); [|done].
    by rewrite (Hc s1 eq_refl), Hn, should_check_after_at.
Qed.

Lemma experiment_resources_run_counter envs s w w' s' (n : nat) :
  er_should_check s = should_check_at n →
  experiment_resources_run envs s w = (w', Sleep s') →
  er_should_check s' = should_check_at (n + length envs).
Proof.
  revert s w n. induction envs as [|env envs IH]; intros s w n Hn; simpl.
  - intros [= <- <-]. by rewrite Nat.add_0_r.
  - pose proof (experiment_resources_cycle_counter env s w) as Hc.
    destruct (experiment_resources_cycle env s w) as [w1 [s1| |]]; [|done..].
    intros Hrun. replace (n + S (length envs))%nat
      with (S n + length envs)%nat by lia.
    apply (IH s1 w1); [|done].
    by rewrite (Hc s1 eq_refl), Hn, should_check_after_at.
Qed.

(** X6.  A resource handler that started with its counter at zero and is still
    running after [n] iterations holds the counter [n] if [n] is at most 7,
    and [3 + (n - 8) mod 5] after that, whatever the cache and the
    database returned on the way.  So the counter never leaves 0..7, and
    the status is re-read in the iteration that follows exactly when [n] is
    7, 12, 17, ...: in the eighth iteration and every fifth one after. *)
Theorem resource_liveness_check_schedule (envs : list CycleEnv) :
  (∀ s w w' s',
     jr_should_check s = 0 →
     job_resources_run envs s w = (w', Sleep s') →
     jr_should_check s' = should_check_at (length envs))
  ∧ (∀ s w w' s',
       er_should_check s = 0 →
       experiment_resources_run envs s w = (w', Sleep s') →
       er_should_check s' = should_check_at (length envs))
  ∧ 0 ≤ should_check_at (length envs) ≤ RESOURCES_CHECK
  ∧ (should_check_at (length envs) + 1 > RESOURCES_CHECK
     ↔ (7 ≤ length envs)%nat ∧ (Z.of_nat (length envs) - 7) `mod` 5 = 0).
Proof.
  split; [|split; [|split]].
  - intros s w w' s' H0 Hrun.
    by apply (job_resources_run_counter envs s w w' s' 0).
  - intros s w w' s' H0 Hrun.
    by apply (experiment_resources_run_counter envs s w w' s' 0).
  - unfold should_check_at, RESOURCES_CHECK. case_decide;
      Z.div_mod_to_equations; lia.
  - unfold should_check_at, RESOURCES_CHECK. case_decide;
      Z.div_mod_to_equations; lia.
Qed.

Lemma resource_liveness_check_schedule_witness :
  jr_should_check (job_resources_locals 5 5)
  = should_check_at (length (replicate 10 (with_snapshot db_running []))).
Proof.
  destruct (resource_liveness_check_schedule
              (replicate 10 (with_snapshot db_running []))) as [Hjob _].
  apply (Hjob (job_resources_locals 5 0) (world two_resource_viewers)
           (job_resources_run (replicate 10 (with_snapshot db_running []))
              (job_resources_locals 5 0) (world two_resource_viewers)).1);
    [done|]. by vm_compute.
Defined.

(** X7.  A log handler that enters an iteration with its retry counter between
    0 and [MAX_RETRIES] and goes on to sleep holds a counter between 0 and
    [MAX_RETRIES] again: the counter, which starts at 0, never exceeds the
    threshold between two iterations and never goes negative. *)
Theorem log_retry_counter_stays_in_bounds (env : CycleEnv) :
  (∀ (s : JobLogsSession) (w : World) s',
     0 ≤ jl_num_message_retries s ≤ MAX_RETRIES →
     (job_logs_cycle env s w).2 = Sleep s' →
     0 ≤ jl_num_message_retries s' ≤ MAX_RETRIES)
  ∧ (∀ (s : ExperimentLogsSession) (w : World) s',
       0 ≤ el_num_message_retries s ≤ MAX_RETRIES →
       (experiment_logs_cycle env s w).2 = Sleep s' →
       0 ≤ el_num_message_retries s' ≤ MAX_RETRIES).
Proof.
  split.
  - intros s w s' Hb. rewrite job_logs_cycle_unfold. cbv zeta.
    set (n := retries_after_drain env (jl_num_message_retries s)).
    assert (0 ≤ n ≤ MAX_RETRIES + 1) as Hn.
    { unfold n, retries_after_drain, MAX_RETRIES in *.
      destruct (get_messages env); lia. }
    case_bool_decide as Hgt.
    + destruct (refresh_job_from_db _ _) as [job|]; [|done].
      destruct (job_is_done job).
      * rewrite job_logs_closing_spec. simpl.
        pose proof (force_closed_group_stays_empty (jl_consumer s)
                      (if _connection_lost env then Some (jl_ws s) else None)
                      (drain env (jl_consumer s) 0 (get_messages env)
                         (jl_num_message_retries s + 1) w).2) as He.
        destruct (_connection_lost env); simpl in *;
          rewrite ?(bool_decide_eq_true_2 _ He); simpl;
          by rewrite ?orb_true_r.
      * rewrite job_logs_closing_spec. simpl.
        destruct (_ || _); [done|]. intros [= <-]. simpl.
        unfold MAX_RETRIES, CHECK_DELAY in *. lia.
    + rewrite job_logs_closing_spec. simpl.
      destruct (_ || _); [done|]. intros [= <-]. simpl. lia.
  - intros s w s' Hb. rewrite experiment_logs_cycle_unfold. cbv zeta.
    set (n := retries_after_drain env (el_num_message_retries s)).
    assert (0 ≤ n ≤ MAX_RETRIES + 1) as Hn.
    { unfold n, retries_after_drain, MAX_RETRIES in *.
      destruct (get_messages env); lia. }
    case_bool_decide as Hgt.
    + destruct (refresh_experiment_from_db _ _) as [experiment|]; [|done].
      destruct (experiment_is_done experiment).
      * rewrite experiment_logs_closing_spec. simpl.
        pose proof (force_closed_group_stays_empty (el_consumer s)
                      (if _connection_lost env then Some (el_ws s) else None)
                      (drain env (el_consumer s) 0 (get_messages env)
                         (el_num_message_retries s + 1) w).2) as He.
        destruct (_connection_lost env); simpl in *;
          rewrite ?(bool_decide_eq_true_2 _ He); simpl;
          by rewrite ?orb_true_r.
      * rewrite experiment_logs_closing_spec. simpl.
        destruct (_ || _); [done|]. intros [= <-]. simpl.
        unfold MAX_RETRIES, CHECK_DELAY in *. lia.
    + rewrite experiment_logs_closing_spec. simpl.
      destruct (_ || _); [done|]. intros [= <-]. simpl. lia.
Qed.

Lemma log_retry_counter_stays_in_bounds_witness :
  0 ≤ jl_num_message_retries (job_logs_locals 5 3) ≤ MAX_RETRIES.
Proof.
  destruct (log_retry_counter_stays_in_bounds
              (cycle db_running None [] [] false)) as [Hjob _].
  apply (Hjob (job_logs_locals 5 7) (world two_log_viewers)).
  - by vm_compute.
  - by vm_compute.
Defined.

(** ** What a viewer of a log stream receives *)

Lemma received_app ws l1 l2 :
  received ws (l1 ++ l2) = received ws l1 ++ received ws l2.
Proof. unfold received. by rewrite filter_app, fmap_app. Qed.

Lemma received_one_pass ws (message : string) (l : list conn) :
  NoDup l →
  received ws ((λ c, (c, message)) <$> l)
  = if decide (ws ∈ l) then [message] else [].
Proof.
  unfold received. induction l as [|c l IH]; intros Hnd; [done|].
  apply NoDup_cons in Hnd as [Hc Hnd]. rewrite fmap_cons.
  destruct (decide (c = ws)) as [->|Hne].
  - rewrite filter_cons_True by done. rewrite fmap_cons, (IH Hnd).
    rewrite (decide_False (P := ws ∈ l)) by done.
    rewrite decide_True by constructor. done.
  - rewrite filter_cons_False by done. rewrite (IH Hnd).
    destruct (decide (ws ∈ l)) as [Hin|Hin].
    + rewrite decide_True; [done|by constructor].
    + rewrite decide_False; [done|].
      intros [?|?]%elem_of_cons; congruence.
Qed.

(** One fan-out, seen from one connection. *)
Lemma fan_out_received env c i message w ws :
  let w' := fan_out env c i message w in
  (ws ∈ consumer_ws c w' ↔
   ws ∈ consumer_ws c w ∧ ConnectionClosed env i ws = false)
  ∧ received ws (sent w')
    = received ws (sent w)
      ++ (if decide (ws ∈ consumer_ws c w
                     ∧ ConnectionClosed env i ws = false)
          then [message] else []).
Proof.
  simpl. unfold fan_out.
  destruct (send_to_all_spec env i message (elements (consumer_ws c w)) w ∅)
    as (_ & _ & Hc & _ & _ & _ & Hs & Hd).
  fold (send_to_all env i message (elements (consumer_ws c w)) w) in *.
  destruct (send_to_all _ _ _ _ _) as [w1 d]. simpl in *.
  rewrite consumer_ws_remove_sockets.
  assert (consumer_ws c w1 = consumer_ws c w) as ->
    by (unfold consumer_ws; by rewrite Hc).
  split.
  - rewrite Hd, elem_of_difference, elem_of_union, elem_of_list_to_set,
      list_elem_of_filter, elem_of_elements.
    destruct (ConnectionClosed env i ws); set_solver.
  - change (sent (consumer_remove_sockets c d w1)) with (sent w1).
    rewrite Hs, received_app. f_equal.
    rewrite received_one_pass
      by (apply NoDup_filter, NoDup_elements).
    assert (ws ∈ filter (λ ws0, ConnectionClosed env i ws0 = false)
                   (elements (consumer_ws c w))
            ↔ ws ∈ consumer_ws c w ∧ ConnectionClosed env i ws = false)
      as Hiff by (rewrite list_elem_of_filter, elem_of_elements; tauto).
    repeat case_decide; tauto.
Qed.

(** One drain, seen from a connection that is in the group and whose first
    failing send, if any, is the [k]-th of the drain. *)
Lemma drain_received env c ws messages :
  ∀ i n w,
    let w' := (drain env c i messages n w).2 in
    (ws ∉ consumer_ws c w →
       (ws ∉ consumer_ws c w') ∧ received ws (sent w') = received ws (sent w))
    ∧ (ws ∈ consumer_ws c w →
       (∀ j, (j < length messages)%nat →
             ConnectionClosed env (i + j) ws = false) →
       ws ∈ consumer_ws c w'
       ∧ received ws (sent w') = received ws (sent w) ++ messages)
    ∧ (ws ∈ consumer_ws c w →
       ∀ k, (k < length messages)%nat →
            (∀ j, (j < k)%nat → ConnectionClosed env (i + j) ws = false) →
            ConnectionClosed env (i + k) ws = true →
            (ws ∉ consumer_ws c w')
            ∧ received ws (sent w')
              = received ws (sent w) ++ take k messages).
Proof.
  induction messages as [|m messages IH]; intros i n w; simpl.
  - split; [done|]. split; [by rewrite app_nil_r|]. intros _ k Hk. lia.
  - destruct (fan_out_received env c i m w ws) as [Hin Hrec]. simpl in *.
    destruct (IH (S i) 0 (fan_out env c i m w)) as (Hout & Hok & Hcut).
    simpl in *. split; [|split].
    + intros Hnot. rewrite decide_False in Hrec by tauto.
      rewrite app_nil_r in Hrec. rewrite <- Hrec. apply Hout. tauto.
    + intros Hws Hall.
      pose proof (Hall 0%nat ltac:(lia)) as H0. rewrite Nat.add_0_r in H0.
      rewrite decide_True in Hrec by done.
      destruct Hok as [Hin' Hrec']; [tauto| |].
      { intros j Hj. replace (S (i + j))%nat with (i + S j)%nat by lia.
        apply Hall. lia. }
      split; [done|]. by rewrite Hrec', Hrec, <- app_assoc.
    + intros Hws k Hk Hbefore Hfail. destruct k as [|k].
      * rewrite Nat.add_0_r in Hfail.
        rewrite decide_False in Hrec by (intros [_ ?]; congruence).
        rewrite app_nil_r in Hrec. simpl. rewrite app_nil_r, <- Hrec.
        apply Hout. rewrite Hin. intros [_ ?]; congruence.
      * pose proof (Hbefore 0%nat ltac:(lia)) as H0.
        rewrite Nat.add_0_r in H0. rewrite decide_True in Hrec by done.
        destruct (Hcut ltac:(tauto) k) as [Hnot Hrec']; [lia| | |].
        { intros j Hj. replace (S (i + j))%nat with (i + S j)%nat by lia.
          apply Hbefore. lia. }
        { by replace (S (i + k))%nat with (i + S k)%nat by lia. }
        split; [done|]. simpl. by rewrite Hrec', Hrec, <- app_assoc.
Qed.

(** After the drain an iteration of a log handler sends nothing more and
    adds nobody to the group. *)
Lemma job_logs_cycle_after_drain env s w :
  let w1 := (drain env (jl_consumer s) 0 (get_messages env)
               (jl_num_message_retries s + 1) w).2 in
  let r := job_logs_cycle env s w in
  sent r.1 = sent w1
  ∧ ∀ ws, ws ∈ consumer_ws (jl_consumer s) r.1 →
          ws ∈ consumer_ws (jl_consumer s) w1.
Proof.
  simpl. rewrite job_logs_cycle_unfold. cbv zeta.
  set (w1 := (drain _ _ _ _ _ _).2).
  assert (∀ job n w0,
    sent w0 = sent w1 →
    (∀ ws, ws ∈ consumer_ws (jl_consumer s) w0 →
           ws ∈ consumer_ws (jl_consumer s) w1) →
    sent (job_logs_closing env s job n w0).1 = sent w1
    ∧ ∀ ws, ws ∈ consumer_ws (jl_consumer s)
                   (job_logs_closing env s job n w0).1 →
            ws ∈ consumer_ws (jl_consumer s) w1) as Hclosing.
  { intros job n w0 Hs Hsub. rewrite job_logs_closing_spec. simpl.
    destruct (_connection_lost env); case_bool_decide; simpl;
      (split; [done|]); intros ws;
      rewrite ?consumer_ws_with_redis, ?consumer_ws_remove_sockets;
      set_solver. }
  case_bool_decide.
  - destruct (refresh_job_from_db _ _) as [job|]; [|done].
    destruct (job_is_done job); apply Hclosing; try done.
    intros ws. rewrite consumer_ws_set_ws_empty. set_solver.
  - by apply Hclosing.
Qed.

Lemma experiment_logs_cycle_after_drain env s w :
  let w1 := (drain env (el_consumer s) 0 (get_messages env)
               (el_num_message_retries s + 1) w).2 in
  let r := experiment_logs_cycle env s w in
  sent r.1 = sent w1
  ∧ ∀ ws, ws ∈ consumer_ws (el_consumer s) r.1 →
          ws ∈ consumer_ws (el_consumer s) w1.
Proof.
  simpl. rewrite experiment_logs_cycle_unfold. cbv zeta.
  set (w1 := (drain _ _ _ _ _ _).2).
  assert (∀ experiment n w0,
    sent w0 = sent w1 →
    (∀ ws, ws ∈ consumer_ws (el_consumer s) w0 →
           ws ∈ consumer_ws (el_consumer s) w1) →
    sent (experiment_logs_closing env s experiment n w0).1 = sent w1
    ∧ ∀ ws, ws ∈ consumer_ws (el_consumer s)
                   (experiment_logs_closing env s experiment n w0).1 →
            ws ∈ consumer_ws (el_consumer s) w1) as Hclosing.
  { intros experiment n w0 Hs Hsub. rewrite experiment_logs_closing_spec.
    simpl.
    destruct (_connection_lost env); case_bool_decide; simpl;
      (split; [done|]); intros ws;
      rewrite ?consumer_ws_with_redis, ?consumer_ws_remove_sockets;
      set_solver. }
  case_bool_decide.
  - destruct (refresh_experiment_from_db _ _) as [experiment|]; [|done].
    destruct (experiment_is_done experiment); apply Hclosing; try done.
    intros ws. rewrite consumer_ws_set_ws_empty. set_solver.
  - by apply Hclosing.
Qed.

(** X8.  In an iteration of a log handler, every connection that is in the
    consumer's group when the iteration starts and whose sends all go
    through receives the drained messages, each once and in the order of
    the drain, whichever viewer's handler runs the iteration; it receives
    nothing else. *)
Theorem log_messages_reach_members_in_order (env : CycleEnv) (ws : conn) :
  (∀ i, ConnectionClosed env i ws = false) →
  (∀ (s : JobLogsSession) (w : World),
     ws ∈ consumer_ws (jl_consumer s) w →
     received ws (sent (job_logs_cycle env s w).1)
     = received ws (sent w) ++ get_messages env)
  ∧ (∀ (s : ExperimentLogsSession) (w : World),
       ws ∈ consumer_ws (el_consumer s) w →
       received ws (sent (experiment_logs_cycle env s w).1)
       = received ws (sent w) ++ get_messages env).
Proof.
  intros Hok. split.
  - intros s w Hin.
    destruct (job_logs_cycle_after_drain env s w) as [-> _].
    destruct (drain_received env (jl_consumer s) ws (get_messages env) 0
                (jl_num_message_retries s + 1) w) as (_ & Hall & _).
    by apply Hall.
  - intros s w Hin.
    destruct (experiment_logs_cycle_after_drain env s w) as [-> _].
    destruct (drain_received env (el_consumer s) ws (get_messages env) 0
                (el_num_message_retries s + 1) w) as (_ & Hall & _).
    by apply Hall.
Qed.

Lemma log_messages_reach_members_in_order_witness :
  received 6 (sent (job_logs_cycle
                      (cycle db_running None ["line1"; "line2"] [] false)
                      (job_logs_locals 5 0) (world two_log_viewers)).1)
  = ["line1"; "line2"].
Proof.
  destruct (log_messages_reach_members_in_order
              (cycle db_running None ["line1"; "line2"] [] false) 6%nat)
    as [Hjob _]; [done|].
  apply (Hjob (job_logs_locals 5 0) (world two_log_viewers)).
  by vm_compute.
Defined.

(** X9.  In an iteration of a log handler, a connection of the group whose
    send of the [k]-th drained message is the first to raise
    [ConnectionClosed] receives the [k] messages before it and none after,
    and is out of the group when the iteration ends. *)
Theorem failed_member_is_cut_off (env : CycleEnv) (ws : conn) (k : nat) :
  (k < length (get_messages env))%nat →
  (∀ j, (j < k)%nat → ConnectionClosed env j ws = false) →
  ConnectionClosed env k ws = true →
  (∀ (s : JobLogsSession) (w : World),
     ws ∈ consumer_ws (jl_consumer s) w →
     received ws (sent (job_logs_cycle env s w).1)
     = received ws (sent w) ++ take k (get_messages env)
     ∧ ws ∉ consumer_ws (jl_consumer s) (job_logs_cycle env s w).1)
  ∧ (∀ (s : ExperimentLogsSession) (w : World),
       ws ∈ consumer_ws (el_consumer s) w →
       received ws (sent (experiment_logs_cycle env s w).1)
       = received ws (sent w) ++ take k (get_messages env)
       ∧ ws ∉ consumer_ws (el_consumer s) (experiment_logs_cycle env s w).1).
Proof.
  intros Hk Hbefore Hfail. split.
  - intros s w Hin.
    destruct (job_logs_cycle_after_drain env s w) as [-> Hsub].
    destruct (drain_received env (jl_consumer s) ws (get_messages env) 0
                (jl_num_message_retries s + 1) w) as (_ & _ & Hcut).
    destruct (Hcut Hin k Hk Hbefore Hfail) as [Hout Hrec].
    split; [done|]. intros Hws. by apply Hout, Hsub.
  - intros s w Hin.
    destruct (experiment_logs_cycle_after_drain env s w) as [-> Hsub].
    destruct (drain_received env (el_consumer s) ws (get_messages env) 0
                (el_num_message_retries s + 1) w) as (_ & _ & Hcut).
    destruct (Hcut Hin k Hk Hbefore Hfail) as [Hout Hrec].
    split; [done|]. intros Hws. by apply Hout, Hsub.
Qed.

Lemma failed_member_is_cut_off_witness :
  received 6 (sent (job_logs_cycle
                      (cycle db_running None ["line1"; "line2"] [6%nat] false)
                      (job_logs_locals 5 0) (world two_log_viewers)).1)
  = []
  ∧ (6%nat ∉ consumer_ws 0
       (job_logs_cycle
          (cycle db_running None ["line1"; "line2"] [6%nat] false)
          (job_logs_locals 5 0) (world two_log_viewers)).1).
Proof.
  destruct (failed_member_is_cut_off
              (cycle db_running None ["line1"; "line2"] [6%nat] false)
              6%nat 0%nat) as [Hjob _].
  - simpl. lia.
  - intros j Hj. lia.
  - by vm_compute.
  - apply (Hjob (job_logs_locals 5 0) (world two_log_viewers)).
    by vm_compute.
Defined.

(** ** Server stop, in general *)

Lemma consumer_running_stop (c c' : ref) (w : World) :
  consumer_running c' (consumer_stop c w)
  = if decide (c = c') then false else consumer_running c' w.
Proof.
  unfold consumer_running, consumer_stop, consumer_alter. simpl.
  destruct (decide (c = c')) as [<-|Hne].
  - rewrite list_lookup_alter_eq. by destruct (_ !! _).
  - by rewrite list_lookup_alter_ne.
Qed.

Lemma stop_footprint_refl w : stop_footprint w w.
Proof. by repeat split. Qed.

Lemma stop_footprint_trans w1 w2 w3 :
  stop_footprint w1 w2 → stop_footprint w2 w3 → stop_footprint w1 w3.
Proof.
  intros (?&?&?&?&?&Hg&Hr) (?&?&?&?&?&Hg'&Hr'). unfold stop_footprint.
  do 5 (split; [congruence|]). split.
  - intros c. by rewrite Hg', Hg.
  - intros c Hc. by apply Hr, Hr'.
Qed.

Lemma stop_job_logs_consumer_step w k :
  let w1 := stop_job_logs_consumer w k in
  job_logs_consumers (app w1) = delete k (job_logs_consumers (app w))
  ∧ experiment_logs_consumers (app w1) = experiment_logs_consumers (app w)
  ∧ stop_footprint w w1
  ∧ (∀ c : ref, consumer_running c w1
        = if decide (job_logs_consumers (app w) !! k = Some c) then false
          else consumer_running c w).
Proof.
  simpl. unfold stop_job_logs_consumer.
  destruct (job_logs_consumers (app w) !! k) as [c0|] eqn:Hk.
  - split; [done|]. split; [done|]. split.
    + unfold stop_footprint. do 5 (split; [done|]). split.
      * intros c. unfold consumer_stop. by rewrite consumer_ws_alter.
      * intros c. rewrite consumer_running_stop. by case_decide.
    + intros c. rewrite consumer_running_stop.
      repeat case_decide; simplify_eq; done.
  - split; [by rewrite delete_id|]. split; [done|].
    split; [apply stop_footprint_refl|]. intros c. by rewrite decide_False.
Qed.

Lemma stop_experiment_logs_consumer_step w k :
  let w1 := stop_experiment_logs_consumer w k in
  experiment_logs_consumers (app w1)
  = delete k (experiment_logs_consumers (app w))
  ∧ job_logs_consumers (app w1) = job_logs_consumers (app w)
  ∧ stop_footprint w w1
  ∧ (∀ c : ref, consumer_running c w1
        = if decide (experiment_logs_consumers (app w) !! k = Some c)
          then false else consumer_running c w).
Proof.
  simpl. unfold stop_experiment_logs_consumer.
  destruct (experiment_logs_consumers (app w) !! k) as [c0|] eqn:Hk.
  - split; [done|]. split; [done|]. split.
    + unfold stop_footprint. do 5 (split; [done|]). split.
      * intros c. unfold consumer_stop. by rewrite consumer_ws_alter.
      * intros c. rewrite consumer_running_stop. by case_decide.
    + intros c. rewrite consumer_running_stop.
      repeat case_decide; simplify_eq; done.
  - split; [by rewrite delete_id|]. split; [done|].
    split; [apply stop_footprint_refl|]. intros c. by rewrite decide_False.
Qed.

(** The loop [for consumer_key in consumer_keys] over the job table. *)
Lemma stop_job_logs_consumers_fold keys :
  ∀ w, let w' := foldl stop_job_logs_consumer w keys in
  (∀ k, job_logs_consumers (app w') !! k
        = if decide (k ∈ keys) then None
          else job_logs_consumers (app w) !! k)
  ∧ experiment_logs_consumers (app w') = experiment_logs_consumers (app w)
  ∧ stop_footprint w w'
  ∧ (∀ k (c : ref), k ∈ keys → job_logs_consumers (app w) !! k = Some c →
                    consumer_running c w' = false)
  ∧ (∀ c : ref, (∀ k, k ∈ keys → job_logs_consumers (app w) !! k ≠ Some c) →
                consumer_running c w' = consumer_running c w).
Proof.
  induction keys as [|k0 keys IH]; intros w; simpl.
  - split; [intros k; first [done | by rewrite decide_False by set_solver]|].
    split; [done|]. split; [apply stop_footprint_refl|].
    split; [intros k c Hk; by apply not_elem_of_nil in Hk|done].
  - destruct (stop_job_logs_consumer_step w k0) as (Ht & He & Hf & Hr).
    destruct (IH (stop_job_logs_consumer w k0)) as (Ht' & He' & Hf' & Hb & Hc).
    simpl in *. split; [|split; [|split; [|split]]].
    + intros k. rewrite Ht', Ht.
      destruct (decide (k = k0)) as [->|Hne].
      * rewrite lookup_delete_eq, (decide_True (P := k0 ∈ k0 :: keys))
          by constructor. by case_decide.
      * rewrite lookup_delete_ne by done.
        repeat case_decide; try done; set_solver.
    + by rewrite He', He.
    + by apply (stop_footprint_trans _ (stop_job_logs_consumer w k0)).
    + intros k c Hk Hkc.
      destruct (decide (job_logs_consumers (app w) !! k0 = Some c))
        as [H0|H0].
      * destruct (consumer_running c _) eqn:Hrun; [|done].
        destruct Hf' as (_&_&_&_&_&_&Hmono). apply Hmono in Hrun.
        rewrite Hr, decide_True in Hrun by done. done.
      * assert (k ≠ k0) as Hne by (intros ->; congruence).
        apply (Hb k c); [set_solver|].
        rewrite Ht. by rewrite lookup_delete_ne.
    + intros c Hnone. rewrite Hc, Hr.
      * rewrite decide_False; [done|]. apply Hnone. by constructor.
      * intros k Hk. rewrite Ht. intros [_ Hk']%lookup_delete_Some.
        apply (Hnone k); [set_solver|done].
Qed.

Lemma stop_experiment_logs_consumers_fold keys :
  ∀ w, let w' := foldl stop_experiment_logs_consumer w keys in
  (∀ k, experiment_logs_consumers (app w') !! k
        = if decide (k ∈ keys) then None
          else experiment_logs_consumers (app w) !! k)
  ∧ job_logs_consumers (app w') = job_logs_consumers (app w)
  ∧ stop_footprint w w'
  ∧ (∀ k (c : ref), k ∈ keys →
                    experiment_logs_consumers (app w) !! k = Some c →
                    consumer_running c w' = false)
  ∧ (∀ c : ref,
       (∀ k, k ∈ keys → experiment_logs_consumers (app w) !! k ≠ Some c) →
       consumer_running c w' = consumer_running c w).
Proof.
  induction keys as [|k0 keys IH]; intros w; simpl.
  - split; [intros k; first [done | by rewrite decide_False by set_solver]|].
    split; [done|]. split; [apply stop_footprint_refl|].
    split; [intros k c Hk; by apply not_elem_of_nil in Hk|done].
  - destruct (stop_experiment_logs_consumer_step w k0) as (Ht & He & Hf & Hr).
    destruct (IH (stop_experiment_logs_consumer w k0))
      as (Ht' & He' & Hf' & Hb & Hc).
    simpl in *. split; [|split; [|split; [|split]]].
    + intros k. rewrite Ht', Ht.
      destruct (decide (k = k0)) as [->|Hne].
      * rewrite lookup_delete_eq, (decide_True (P := k0 ∈ k0 :: keys))
          by constructor. by case_decide.
      * rewrite lookup_delete_ne by done.
        repeat case_decide; try done; set_solver.
    + by rewrite He', He.
    + by apply (stop_footprint_trans _ (stop_experiment_logs_consumer w k0)).
    + intros k c Hk Hkc.
      destruct (decide (experiment_logs_consumers (app w) !! k0 = Some c))
        as [H0|H0].
      * destruct (consumer_running c _) eqn:Hrun; [|done].
        destruct Hf' as (_&_&_&_&_&_&Hmono). apply Hmono in Hrun.
        rewrite Hr, decide_True in Hrun by done. done.
      * assert (k ≠ k0) as Hne by (intros ->; congruence).
        apply (Hb k c); [set_solver|].
        rewrite Ht. by rewrite lookup_delete_ne.
    + intros c Hnone. rewrite Hc, Hr.
      * rewrite decide_False; [done|]. apply Hnone. by constructor.
      * intros k Hk. rewrite Ht. intros [_ Hk']%lookup_delete_Some.
        apply (Hnone k); [set_solver|done].
Qed.

Lemma elem_of_keys (m : gmap string ref) (k : string) :
  k ∈ (map_to_list m).*1 ↔ is_Some (m !! k).
Proof.
  rewrite list_elem_of_fmap. split.
  - intros [[k' c] [-> Hin]]. apply elem_of_map_to_list in Hin. by exists c.
  - intros [c Hc]. exists (k, c). split; [done|].
    by apply elem_of_map_to_list.
Qed.

(** X10.  [notify_server_stopped] empties the table of job socket managers and
    the two tables of log consumers and stops every consumer that was
    registered in one of them, leaving the state of the other consumers as it
    was.  It clears no group, neither of a consumer nor of a socket manager,
    and removes no mark from the cache. *)
Theorem shutdown_stops_every_registered_consumer (w : World) :
  job_resources_ws_mangers (app (notify_server_stopped w)) = ∅
  ∧ job_logs_consumers (app (notify_server_stopped w)) = ∅
  ∧ experiment_logs_consumers (app (notify_server_stopped w)) = ∅
  ∧ (∀ k (c : ref),
       job_logs_consumers (app w) !! k = Some c
       ∨ experiment_logs_consumers (app w) !! k = Some c →
       consumer_running c (notify_server_stopped w) = false)
  ∧ (∀ c : ref,
       (∀ k, job_logs_consumers (app w) !! k ≠ Some c
             ∧ experiment_logs_consumers (app w) !! k ≠ Some c) →
       consumer_running c (notify_server_stopped w) = consumer_running c w)
  ∧ (∀ c, consumer_ws c (notify_server_stopped w) = consumer_ws c w)
  ∧ socket_managers (notify_server_stopped w) = socket_managers w
  ∧ redis (notify_server_stopped w) = redis w.
Proof.
  unfold notify_server_stopped. cbv zeta.
  set (w0 := with_app (set_experiment_resources_ws_manger ∅)
               (with_app (set_job_resources_ws_mangers ∅) w)).
  set (keysJ := (map_to_list (job_logs_consumers (app w0))).*1).
  destruct (stop_job_logs_consumers_fold keysJ w0)
    as (HtJ & HeJ & HfJ & HbJ & HcJ).
  set (wJ := foldl stop_job_logs_consumer w0 keysJ) in *.
  set (keysE := (map_to_list (experiment_logs_consumers (app wJ))).*1).
  destruct (stop_experiment_logs_consumers_fold keysE wJ)
    as (HtE & HjE & HfE & HbE & HcE).
  set (wE := foldl stop_experiment_logs_consumer wJ keysE) in *.
  simpl in HtJ, HeJ, HbJ, HcJ, HtE, HjE, HbE, HcE.
  pose proof (stop_footprint_trans _ _ _ HfJ HfE)
    as (Hjr & _ & _ & Hsm & Hredis & Hg & Hmono).
  assert (∀ k, k ∈ keysJ ↔ is_Some (job_logs_consumers (app w) !! k))
    as HkJ by (intros k; apply elem_of_keys).
  assert (∀ k, k ∈ keysE ↔ is_Some (experiment_logs_consumers (app w) !! k))
    as HkE by (intros k; unfold keysE; rewrite HeJ; apply elem_of_keys).
  split; [by rewrite Hjr|]. split; [|split; [|split; [|split]]].
  - rewrite HjE. apply map_eq. intros k. rewrite HtJ, lookup_empty.
    case_decide as Hk; [done|]. rewrite HkJ in Hk.
    by apply eq_None_not_Some.
  - apply map_eq. intros k. rewrite HtE, lookup_empty.
    case_decide as Hk; [done|]. rewrite HkE in Hk. rewrite HeJ.
    by apply eq_None_not_Some.
  - intros k c [Hk|Hk].
    + destruct (consumer_running c wE) eqn:Hrun; [|done].
      destruct HfE as (_&_&_&_&_&_&HmonoE). apply HmonoE in Hrun.
      rewrite (HbJ k c) in Hrun; [done| |done]. apply HkJ. by exists c.
    + apply (HbE k c); [apply HkE; by exists c|]. by rewrite HeJ.
  - intros c Hnone. rewrite HcE, HcJ; [done| |].
    + intros k _. apply (Hnone k).
    + intros k _. rewrite HeJ. apply (Hnone k).
  - by repeat split.
Qed.

Lemma shutdown_stops_every_registered_consumer_witness :
  consumer_running 0 (notify_server_stopped (world four_streams)) = false
  ∧ consumer_ws 0 (notify_server_stopped (world four_streams)) = {[5%nat]}.
Proof.
  destruct (shutdown_stops_every_registered_consumer (world four_streams))
    as (_ & _ & _ & Hstop & _ & Hgroup & _).
  split.
  - apply (Hstop "j100"). left. by vm_compute.
  - rewrite Hgroup. by vm_compute.
Defined.

(** ** The audit trail *)

Lemma job_resources_setup_effects db request ws u p e j w w' s :
  job_resources_setup db request ws u p e j w = Ok (w', s) →
  setup_effects JOB_RESOURCES EXPERIMENT_JOB_RESOURCES_VIEWED
    (jr_job_uuid s) (user_id (request_app_user request)) w w'.
Proof.
  unfold job_resources_setup. intros Hsetup.
  destruct (_get_project _ _ _) as [project|]; [|done].
  rewrite bind_Ok in Hsetup.
  destruct (_get_running_experiment _ _ _) as [experiment|]; [|done].
  rewrite bind_Ok in Hsetup.
  destruct (_get_job _ _ _) as [job|]; [|done].
  rewrite bind_Ok in Hsetup. cbv zeta in Hsetup.
  pose proof (ensure_monitored_effects JOB_RESOURCES
                EXPERIMENT_JOB_RESOURCES_VIEWED (job_uuid_hex job)
                (user_id (request_app_user request)) w) as Heff.
  simpl in Heff. set (w1 := ensure_monitored _ _ _ _) in *.
  destruct (job_resources_ws_mangers (app w1) !! _);
    simpl in Hsetup; injection Hsetup as <- <-; simpl;
    by eapply setup_effects_same_log.
Qed.

Lemma experiment_resources_setup_effects db request ws u p e w w' s :
  experiment_resources_setup db request ws u p e w = Ok (w', s) →
  setup_effects EXPERIMENT_RESOURCES EXPERIMENT_RESOURCES_VIEWED
    (er_experiment_uuid s) (user_id (request_app_user request)) w w'.
Proof.
  unfold experiment_resources_setup. intros Hsetup.
  destruct (_get_project _ _ _) as [project|]; [|done].
  rewrite bind_Ok in Hsetup.
  destruct (_get_running_experiment _ _ _) as [experiment|]; [|done].
  rewrite bind_Ok in Hsetup. cbv zeta in Hsetup.
  pose proof (ensure_monitored_effects EXPERIMENT_RESOURCES
                EXPERIMENT_RESOURCES_VIEWED (experiment_uuid_hex experiment)
                (user_id (request_app_user request)) w) as Heff.
  simpl in Heff. set (w1 := ensure_monitored _ _ _ _) in *.
  destruct (experiment_resources_ws_mangers (app w1) !! _);
    simpl in Hsetup; injection Hsetup as <- <-; simpl;
    by eapply setup_effects_same_log.
Qed.

Lemma job_logs_setup_effects settings db request ws u p e j w w' s :
  job_logs_setup settings db request ws u p e j w = Ok (w', s) →
  setup_effects JOB_LOGS EXPERIMENT_JOB_LOGS_VIEWED
    (jl_job_uuid s) (user_id (request_app_user request)) w w'.
Proof.
  unfold job_logs_setup. intros Hsetup.
  destruct (_get_project _ _ _) as [project|]; [|done].
  rewrite bind_Ok in Hsetup.
  destruct (_get_running_experiment _ _ _) as [experiment|]; [|done].
  rewrite bind_Ok in Hsetup.
  destruct (_get_job _ _ _) as [job|]; [|done].
  rewrite bind_Ok in Hsetup. cbv zeta in Hsetup.
  pose proof (ensure_monitored_effects JOB_LOGS
                EXPERIMENT_JOB_LOGS_VIEWED (job_uuid_hex job)
                (user_id (request_app_user request)) w) as Heff.
  simpl in Heff. set (w1 := ensure_monitored _ _ _ _) in *.
  destruct (job_logs_consumers (app w1) !! _);
    simpl in Hsetup; injection Hsetup as <- <-; simpl;
    by eapply setup_effects_same_log.
Qed.

Lemma experiment_logs_setup_effects settings db request ws u p e w w' s :
  experiment_logs_setup settings db request ws u p e w = Ok (w', s) →
  setup_effects EXPERIMENT_LOGS EXPERIMENT_LOGS_VIEWED
    (el_experiment_uuid s) (user_id (request_app_user request)) w w'.
Proof.
  unfold experiment_logs_setup. intros Hsetup.
  destruct (_get_project _ _ _) as [project|]; [|done].
  rewrite bind_Ok in Hsetup.
  destruct (_get_running_experiment _ _ _) as [experiment|]; [|done].
  rewrite bind_Ok in Hsetup. cbv zeta in Hsetup.
  pose proof (ensure_monitored_effects EXPERIMENT_LOGS
                EXPERIMENT_LOGS_VIEWED (experiment_uuid_hex experiment)
                (user_id (request_app_user request)) w) as Heff.
  simpl in Heff. set (w1 := ensure_monitored _ _ _ _) in *.
  destruct (experiment_logs_consumers (app w1) !! _);
    simpl in Hsetup; injection Hsetup as <- <-; simpl;
    by eapply setup_effects_same_log.
Qed.

Lemma job_resources_cycle_audit env s w :
  audit (job_resources_cycle env s w).1 = audit w
  ∧ consumers (job_resources_cycle env s w).1 = consumers w.
Proof.
  destruct (job_resources_cycle_shape env s w)
    as [->|[(_ & w1 & s' & -> & Hw1)|[[_ ->]|(_ & w1 & -> & Hw1)]]]; simpl.
  - done.
  - by destruct Hw1 as [->|(_&_&->)].
  - destruct (handle_job_disconnected_ws_spec s (jr_ws s)
                (manager_set_ws (jr_ws_manager s) ∅
                   (cache_read (ReadJob (jr_job_uuid s) (jr_job_name s)) w)))
      as (_&_&->&->&_). done.
  - destruct (handle_job_disconnected_ws_spec s (jr_ws s) w1)
      as (_&_&->&->&_). by destruct Hw1 as [->|(_&_&->)].
Qed.

Lemma experiment_resources_cycle_audit env s w :
  audit (experiment_resources_cycle env s w).1 = audit w
  ∧ consumers (experiment_resources_cycle env s w).1 = consumers w.
Proof.
  destruct (experiment_resources_cycle_shape env s w)
    as [->|[(_ & w1 & s' & -> & Hw1)|[[_ ->]|(_ & w1 & -> & Hw1)]]]; simpl.
  - done.
  - by destruct Hw1 as [->|(_&_&->)].
  - destruct (handle_experiment_disconnected_ws_spec s (er_ws s)
                (manager_set_ws (er_ws_manager s) ∅
                   (cache_read (ReadExperiment (er_jobs s)) w)))
      as (_&_&->&->&_). done.
  - destruct (handle_experiment_disconnected_ws_spec s (er_ws s) w1)
      as (_&_&->&->&_). by destruct Hw1 as [->|(_&_&->)].
Qed.

Lemma settle_world {S} (inj : S → Session) ws g (r : World * Outcome S) :
  world (settle inj ws g r) = r.1.
Proof. unfold settle. by destruct r.2. Qed.

(** X11.  The audit trail is written at setup only.  An iteration of a handler
    leaves it as it is.  A connect either leaves the whole gateway as it is
    (the connection is in use, or the setup raised), or puts a handler to
    sleep on the connection and appends exactly one record: the view event
    of the stream, for the key the handler holds, with the requesting user
    as actor. *)
Theorem audit_trail_records_accepted_connects (g : Gateway) (ev : Event) :
  match viewed ev with
  | None => audit (world (step g ev)) = audit (world g)
  | Some (e, actor) =>
      step g ev = g
      ∨ ∃ x,
          sessions g !! connection_of ev = None
          ∧ sessions (step g ev) = <[connection_of ev := x]> (sessions g)
          ∧ audit (world (step g ev))
            = audit (world g)
              ++ [ {| event_type := e; instance_uuid := key_of x;
                      actor_id := actor |} ]
  end.
Proof.
  destruct ev as [db rq ws u p e j|db rq ws u p e|st db rq ws u p e j
                 |st db rq ws u p e|ws env]; unfold step; simpl.
  - case_bool_decide as Hin; [by left|].
    apply eq_None_not_Some in Hin.
    destruct (job_resources_setup _ _ _ _ _ _ _ _) as [[w' s]|err] eqn:Hs;
      [|by left].
    right. exists (JobResources s). split; [done|]. split; [done|].
    by destruct (job_resources_setup_effects _ _ _ _ _ _ _ _ _ _ Hs).
  - case_bool_decide as Hin; [by left|].
    apply eq_None_not_Some in Hin.
    destruct (experiment_resources_setup _ _ _ _ _ _ _) as [[w' s]|err]
      eqn:Hs; [|by left].
    right. exists (ExperimentResources s). split; [done|]. split; [done|].
    by destruct (experiment_resources_setup_effects _ _ _ _ _ _ _ _ _ Hs).
  - case_bool_decide as Hin; [by left|].
    apply eq_None_not_Some in Hin.
    destruct (job_logs_setup _ _ _ _ _ _ _ _ _) as [[w' s]|err] eqn:Hs;
      [|by left].
    right. exists (JobLogs s). split; [done|]. split; [done|].
    by destruct (job_logs_setup_effects _ _ _ _ _ _ _ _ _ _ _ Hs).
  - case_bool_decide as Hin; [by left|].
    apply eq_None_not_Some in Hin.
    destruct (experiment_logs_setup _ _ _ _ _ _ _ _) as [[w' s]|err] eqn:Hs;
      [|by left].
    right. exists (ExperimentLogs s). split; [done|]. split; [done|].
    by destruct (experiment_logs_setup_effects _ _ _ _ _ _ _ _ _ _ Hs).
  - destruct (sessions g !! ws) as [[s|s|s|s]|]; [..|done];
      rewrite settle_world.
    + apply job_resources_cycle_audit.
    + apply experiment_resources_cycle_audit.
    + by destruct (log_footprint_job_logs_cycle env s (world g))
        as (_&_&->&_).
    + by destruct (log_footprint_experiment_logs_cycle env s (world g))
        as (_&_&->&_).
Qed.

(** ** An iteration and the other groups *)

Lemma consumer_ws_set_ws_ne (c c' : ref) (s : gset conn) (w : World) :
  c ≠ c' → consumer_ws c' (consumer_set_ws c s w) = consumer_ws c' w.
Proof.
  intros Hne. unfold consumer_ws, consumer_set_ws, consumer_alter. simpl.
  by rewrite list_lookup_alter_ne.
Qed.

Lemma fan_out_others env c i message w (c' : ref) :
  c ≠ c' → consumer_ws c' (fan_out env c i message w) = consumer_ws c' w.
Proof.
  intros Hne. unfold fan_out.
  destruct (send_to_all_spec env i message (elements (consumer_ws c w)) w ∅)
    as (_ & _ & Hc & _).
  fold (send_to_all env i message (elements (consumer_ws c w)) w) in *.
  destruct (send_to_all _ _ _ _ _) as [w1 d]. simpl in *.
  unfold consumer_remove_sockets. rewrite consumer_ws_set_ws_ne by done.
  unfold consumer_ws. by rewrite Hc.
Qed.

Lemma drain_others env c messages (c' : ref) :
  c ≠ c' →
  ∀ i n w, consumer_ws c' (drain env c i messages n w).2 = consumer_ws c' w.
Proof.
  intros Hne. induction messages as [|m messages IH]; intros i n w; simpl;
    [done|]. by rewrite IH, fan_out_others.
Qed.

Lemma job_logs_cycle_others env s w (c' : ref) :
  jl_consumer s ≠ c' →
  consumer_ws c' (job_logs_cycle env s w).1 = consumer_ws c' w.
Proof.
  intros Hne. rewrite job_logs_cycle_unfold. cbv zeta.
  pose proof (drain_others env (jl_consumer s) (get_messages env) c' Hne 0
                (jl_num_message_retries s + 1) w) as Hd.
  assert (∀ job n w0, consumer_ws c' w0 = consumer_ws c' w →
            consumer_ws c' (job_logs_closing env s job n w0).1
            = consumer_ws c' w) as Hclosing.
  { intros job n w0 H0. rewrite job_logs_closing_spec. simpl.
    destruct (_connection_lost env); case_bool_decide;
      rewrite ?consumer_ws_with_redis; unfold consumer_remove_sockets;
      by rewrite ?consumer_ws_set_ws_ne. }
  repeat case_match; try done; apply Hclosing; try done.
  by rewrite consumer_ws_set_ws_ne.
Qed.

Lemma experiment_logs_cycle_others env s w (c' : ref) :
  el_consumer s ≠ c' →
  consumer_ws c' (experiment_logs_cycle env s w).1 = consumer_ws c' w.
Proof.
  intros Hne. rewrite experiment_logs_cycle_unfold. cbv zeta.
  pose proof (drain_others env (el_consumer s) (get_messages env) c' Hne 0
                (el_num_message_retries s + 1) w) as Hd.
  assert (∀ experiment n w0, consumer_ws c' w0 = consumer_ws c' w →
            consumer_ws c' (experiment_logs_closing env s experiment n w0).1
            = consumer_ws c' w) as Hclosing.
  { intros experiment n w0 H0. rewrite experiment_logs_closing_spec. simpl.
    destruct (_connection_lost env); case_bool_decide;
      rewrite ?consumer_ws_with_redis; unfold consumer_remove_sockets;
      by rewrite ?consumer_ws_set_ws_ne. }
  repeat case_match; try done; apply Hclosing; try done.
  by rewrite consumer_ws_set_ws_ne.
Qed.

Lemma job_resources_cycle_other_managers env s w (m : ref) :
  jr_ws_manager s ≠ m →
  manager_ws m (job_resources_cycle env s w).1 = manager_ws m w.
Proof.
  intros Hne.
  destruct (job_resources_cycle_shape env s w)
    as [->|[(_ & w1 & s' & -> & Hw1)|[[_ ->]|(_ & w1 & -> & Hw1)]]]; simpl.
  - done.
  - by destruct Hw1 as [->|(_&_&->)].
  - destruct (handle_job_disconnected_ws_spec s (jr_ws s)
                (manager_set_ws (jr_ws_manager s) ∅
                   (cache_read (ReadJob (jr_job_uuid s) (jr_job_name s)) w)))
      as [Hm _]. simpl in Hm.
    rewrite Hm, decide_False by done.
    by rewrite manager_ws_set_ws, decide_False.
  - destruct (handle_job_disconnected_ws_spec s (jr_ws s) w1) as [Hm _].
    simpl in Hm. rewrite Hm, decide_False by done.
    by destruct Hw1 as [->|(_&_&->)].
Qed.

Lemma experiment_resources_cycle_other_managers env s w (m : ref) :
  er_ws_manager s ≠ m →
  manager_ws m (experiment_resources_cycle env s w).1 = manager_ws m w.
Proof.
  intros Hne.
  destruct (experiment_resources_cycle_shape env s w)
    as [->|[(_ & w1 & s' & -> & Hw1)|[[_ ->]|(_ & w1 & -> & Hw1)]]]; simpl.
  - done.
  - by destruct Hw1 as [->|(_&_&->)].
  - destruct (handle_experiment_disconnected_ws_spec s (er_ws s)
                (manager_set_ws (er_ws_manager s) ∅
                   (cache_read (ReadExperiment (er_jobs s)) w)))
      as [Hm _]. simpl in Hm.
    rewrite Hm, decide_False by done.
    by rewrite manager_ws_set_ws, decide_False.
  - destruct (handle_experiment_disconnected_ws_spec s (er_ws s) w1)
      as [Hm _].
    simpl in Hm. rewrite Hm, decide_False by done.
    by destruct Hw1 as [->|(_&_&->)].
Qed.

(** X12.  An iteration of a handler changes the membership of no group but the
    one of the shared object the handler holds, whatever happens in it
    (sends that fail, a lost connection, a finished job).  A resource
    handler changes no consumer at all; a log handler changes no socket
    manager and asks the cache nothing. *)
Theorem iteration_touches_only_its_own_group (env : CycleEnv) :
  (∀ (s : JobResourcesSession) (w : World),
     (∀ m, m ≠ jr_ws_manager s →
           manager_ws m (job_resources_cycle env s w).1 = manager_ws m w)
     ∧ consumers (job_resources_cycle env s w).1 = consumers w)
  ∧ (∀ (s : ExperimentResourcesSession) (w : World),
       (∀ m, m ≠ er_ws_manager s →
             manager_ws m (experiment_resources_cycle env s w).1
             = manager_ws m w)
       ∧ consumers (experiment_resources_cycle env s w).1 = consumers w)
  ∧ (∀ (s : JobLogsSession) (w : World),
       (∀ c, c ≠ jl_consumer s →
             consumer_ws c (job_logs_cycle env s w).1 = consumer_ws c w)
       ∧ socket_managers (job_logs_cycle env s w).1 = socket_managers w
       ∧ cache_reads (job_logs_cycle env s w).1 = cache_reads w)
  ∧ (∀ (s : ExperimentLogsSession) (w : World),
       (∀ c, c ≠ el_consumer s →
             consumer_ws c (experiment_logs_cycle env s w).1
             = consumer_ws c w)
       ∧ socket_managers (experiment_logs_cycle env s w).1
         = socket_managers w
       ∧ cache_reads (experiment_logs_cycle env s w).1 = cache_reads w).
Proof.
  split; [|split; [|split]].
  - intros s w. split; [|apply job_resources_cycle_audit].
    intros m Hne. by apply job_resources_cycle_other_managers.
  - intros s w. split; [|apply experiment_resources_cycle_audit].
    intros m Hne. by apply experiment_resources_cycle_other_managers.
  - intros s w.
    destruct (log_footprint_job_logs_cycle env s w) as (_&Hs&_&Hc&_).
    split; [|done]. intros c Hne. by apply job_logs_cycle_others.
  - intros s w.
    destruct (log_footprint_experiment_logs_cycle env s w) as (_&Hs&_&Hc&_).
    split; [|done]. intros c Hne. by apply experiment_logs_cycle_others.
Qed.

Lemma iteration_touches_only_its_own_group_witness :
  consumer_ws 1 (job_logs_cycle
                   (cycle db_job_done None [] [] true)
                   (job_logs_locals 5 7) (world four_streams)).1
  = {[6%nat]}.
Proof.
  destruct (iteration_touches_only_its_own_group
              (cycle db_job_done None [] [] true)) as (_ & _ & Hjob & _).
  destruct (Hjob (job_logs_locals 5 7) (world four_streams)) as [Hothers _].
  rewrite (Hothers 1%nat); [by vm_compute|done].
Defined.

(** ** The cache key of [job_resources] *)

Lemma job_resources_cycle_reads env s w :
  let r := job_resources_cycle env s w in
  cache_reads r.1
  = cache_reads w ++ [ReadJob (jr_job_uuid s) (jr_job_name s)]
  ∧ ∀ s', r.2 = Sleep s' →
          jr_job_uuid s' = jr_job_uuid s ∧ jr_job_name s' = jr_job_name s.
Proof.
  simpl. split.
  - destruct (job_resources_cycle_shape env s w)
      as [->|[(_ & w1 & s' & -> & Hw1)|[[_ ->]|(_ & w1 & -> & Hw1)]]];
      simpl; [done| | |].
    + by destruct Hw1 as [->|(_&_&->)].
    + destruct (handle_job_disconnected_ws_spec s (jr_ws s)
                  (manager_set_ws (jr_ws_manager s) ∅
                     (cache_read (ReadJob (jr_job_uuid s) (jr_job_name s))
                        w)))
        as (_&_&_&_&_&->&_). done.
    + destruct (handle_job_disconnected_ws_spec s (jr_ws s) w1)
        as (_&_&_&_&_&->&_). by destruct Hw1 as [->|(_&_&->)].
  - intros s'. unfold job_resources_cycle.
    repeat case_match; try done;
      intros Hs; by rewrite (job_resources_deliver_Sleep _ _ _ _ _ _ _ Hs).
Qed.

Lemma job_resources_run_reads envs s w :
  let r := job_resources_run envs s w in
  ∃ k : nat,
    (k ≤ length envs)%nat
    ∧ cache_reads r.1
      = cache_reads w
        ++ replicate k (ReadJob (jr_job_uuid s) (jr_job_name s))
    ∧ ∀ s', r.2 = Sleep s' →
            k = length envs
            ∧ jr_job_uuid s' = jr_job_uuid s
            ∧ jr_job_name s' = jr_job_name s.
Proof.
  simpl. revert s w. induction envs as [|env envs IH]; intros s w; simpl.
  - exists 0%nat. split; [done|]. split; [by rewrite app_nil_r|].
    by intros s' [= <-].
  - destruct (job_resources_cycle_reads env s w) as [Hr Hj].
    destruct (job_resources_cycle env s w) as [w1 [s1| |]]; simpl in *.
    + destruct (IH s1 w1) as (k & Hk & Hreads & Hs).
      destruct (Hj s1 eq_refl) as [E1 E2]. rewrite E1, E2 in Hreads, Hs.
      exists (S k). split; [lia|]. split.
      * rewrite Hreads, Hr. by rewrite <- app_assoc.
      * intros s' Hs'. destruct (Hs s' Hs') as (-> & -> & ->). done.
    + exists 1%nat. split; [lia|]. by split.
    + exists 1%nat. split; [lia|]. by split.
Qed.

(** X13.  However long a [job_resources] handler runs, every question it puts
    to the cache is for the uuid of the job found at setup, under the name
    made at setup of that row's role and id, [role.id], and it asks exactly
    once in each iteration.  After any [n] iterations that ended at
    [asyncio.sleep] the handler has asked [n] times; the iteration that
    follows, whatever it reads from outside and whether it goes to sleep,
    returns or dies, asks exactly once more, for the same uuid and name: a
    row that is re-read with another role does not change the name. *)
Theorem job_resources_asks_for_the_job_of_its_setup
    (db : DB) (request : Request) (ws : conn)
    (username project_name' : string) (experiment_id' job_id' : string)
    (w w0 : World) (s0 : JobResourcesSession) :
  job_resources_setup db request ws username project_name' experiment_id'
    job_id' w = Ok (w0, s0) →
  jr_job_uuid s0 = job_uuid_hex (jr_job s0)
  ∧ jr_job_name s0
    = job_role (jr_job s0) +:+ "." +:+ pretty (job_id (jr_job s0))
  ∧ ∀ (envs : list CycleEnv) (w' : World) (s' : JobResourcesSession),
      job_resources_run envs s0 w0 = (w', Sleep s') →
      cache_reads w'
      = cache_reads w
        ++ replicate (length envs)
             (ReadJob (jr_job_uuid s0) (jr_job_name s0))
      ∧ ∀ env : CycleEnv,
          cache_reads (job_resources_cycle env s' w').1
          = cache_reads w'
            ++ [ReadJob (jr_job_uuid s0) (jr_job_name s0)].
Proof.
  intros Hsetup.
  pose proof (job_resources_setup_effects _ _ _ _ _ _ _ _ _ _ Hsetup)
    as (_ & _ & _ & Hreads).
  assert (jr_job_uuid s0 = job_uuid_hex (jr_job s0)
          ∧ jr_job_name s0
            = job_role (jr_job s0) +:+ "." +:+ pretty (job_id (jr_job s0)))
    as [Hu Hn].
  { unfold job_resources_setup in Hsetup.
    destruct (_get_project _ _ _) as [project|]; [|done].
    rewrite bind_Ok in Hsetup.
    destruct (_get_running_experiment _ _ _) as [experiment|]; [|done].
    rewrite bind_Ok in Hsetup.
    destruct (_get_job _ _ _) as [job|]; [|done].
    rewrite bind_Ok in Hsetup. cbv zeta in Hsetup.
    set (w1 := ensure_monitored _ _ _ _) in *.
    destruct (job_resources_ws_mangers (app w1) !! _);
      simpl in Hsetup; injection Hsetup as <- <-; simpl; by split. }
  split; [done|]. split; [done|]. intros envs w' s' Hrun.
  destruct (job_resources_run_reads envs s0 w0) as (k & Hk & Hr & Hs).
  rewrite Hrun in Hr, Hs. simpl in Hr, Hs.
  destruct (Hs s' eq_refl) as (-> & E1 & E2).
  split; [by rewrite Hr, Hreads|].
  intros env.
  destruct (job_resources_cycle_reads env s' w') as [Hnext _].
  by rewrite Hnext, E1, E2.
Qed.

Lemma job_resources_asks_for_the_job_of_its_setup_witness :
  cache_reads
    (job_resources_cycle (cycle db_job_done (Some "cpu=1") [] [] true)
       (job_resources_locals 5 2)
       (job_resources_run
          [with_snapshot db_job_done []; with_snapshot db_job_done []]
          (job_resources_locals 5 0)
          (world (run boot [resources_of_j100 5]))).1).1
  = [ReadJob "j100" "master.100"; ReadJob "j100" "master.100";
     ReadJob "j100" "master.100"]
  ∧ (job_resources_cycle (cycle db_job_done (Some "cpu=1") [] [] true)
       (job_resources_locals 5 2)
       (job_resources_run
          [with_snapshot db_job_done []; with_snapshot db_job_done []]
          (job_resources_locals 5 0)
          (world (run boot [resources_of_j100 5]))).1).2 = Return.
Proof.
  split; [|by vm_compute].
  destruct (job_resources_asks_for_the_job_of_its_setup db_running as_alice
              5 "alice" "mnist" "10" "100" started
              (world (run boot [resources_of_j100 5]))
              (job_resources_locals 5 0) eq_refl) as (_ & _ & Hrun).
  destruct (Hrun [with_snapshot db_job_done []; with_snapshot db_job_done []]
              (job_resources_run
                 [with_snapshot db_job_done []; with_snapshot db_job_done []]
                 (job_resources_locals 5 0)
                 (world (run boot [resources_of_j100 5]))).1
              (job_resources_locals 5 2)) as [Hreads Hnext];
    [by vm_compute|].
  rewrite (Hnext (cycle db_job_done (Some "cpu=1") [] [] true)), Hreads.
  reflexivity.
Defined.

(** * Numbering of plugin jobs *)

Lemma Forall_filter_keep {A} (P Q : A → Prop) `{!∀ x, Decision (Q x)} l :
  Forall P l → Forall P (filter Q l).
Proof.
  rewrite !Forall_forall. intros HP x [_ Hx]%list_elem_of_filter. by apply HP.
Qed.

Lemma insert_by_pk_snoc pk job rows :
  Forall (plugin_stored pk) rows → insert_by_pk pk job rows = rows ++ [job].
Proof.
  induction 1 as [|row rows [[p [Hp Hlt]] _] _ IH]; [done|].
  simpl. unfold pk_after. rewrite Hp.
  rewrite bool_decide_eq_false_2 by lia. by rewrite IH.
Qed.

Lemma objects_get_elem_of pk t row :
  objects_get pk t = Some row → row ∈ plugin_rows t ∧ plugin_pk row = Some pk.
Proof.
  unfold objects_get. intros H.
  apply head_Some_elem_of in H. by apply list_elem_of_filter in H as [? ?].
Qed.

Lemma objects_get_fresh t :
  Forall (plugin_stored (plugin_next_pk t)) (plugin_rows t) →
  objects_get (plugin_next_pk t) t = None.
Proof.
  intros H. destruct (objects_get _ t) as [row|] eqn:E; [|done].
  apply objects_get_elem_of in E as [Hin Hpk].
  rewrite Forall_forall in H. destruct (H _ Hin) as [[p [Hp Hlt]] _].
  rewrite Hpk in Hp. simplify_eq. lia.
Qed.

Lemma last_of_project_is_greatest project rows a :
  StronglySorted plugin_before rows →
  a ∈ rows →
  project_id (plugin_project a) = project_id project →
  ∃ b, last (filter (λ row, project_id (plugin_project row) = project_id project)
                    rows) = Some b ∧
       b ∈ rows ∧
       project_id (plugin_project b) = project_id project ∧
       (a = b ∨ ∃ m n, plugin_sequence a = Some m ∧ plugin_sequence b = Some n ∧
                       (m < n)%nat).
Proof.
  induction rows as [|x rows IH] using rev_ind; [by intros _ ?%elem_of_nil|].
  intros Hs Ha Hp. rewrite filter_app.
  apply StronglySorted_app in Hs as (Hlt & Hs & _).
  destruct (decide (project_id (plugin_project x) = project_id project)) as [Hx|Hx].
  - rewrite filter_cons_True, filter_nil, last_snoc by done.
    exists x. split; [done|]. split; [set_solver|]. split; [done|].
    apply elem_of_app in Ha as [Ha|Ha%list_elem_of_singleton]; [|by left].
    right. destruct (Hlt a x Ha) as [_ H]; [set_solver|].
    apply H. congruence.
  - rewrite filter_cons_False, filter_nil, app_nil_r by done.
    apply elem_of_app in Ha as [Ha|Ha%list_elem_of_singleton]; [|congruence].
    destruct (IH Hs Ha Hp) as (b & ? & ? & ? & ?).
    exists b. set_solver.
Qed.

Lemma last_of_project_None project rows :
  last (filter (λ row, project_id (plugin_project row) = project_id project)
               rows) = None →
  ∀ a, a ∈ rows → project_id (plugin_project a) ≠ project_id project.
Proof.
  intros H%last_None a Ha Hp.
  assert (a ∈ filter (λ row, project_id (plugin_project row) = project_id project) rows)
    as Hin by by apply list_elem_of_filter.
  rewrite H in Hin. by apply elem_of_nil in Hin.
Qed.

Lemma plugin_stored_mono p q row :
  (p ≤ q)%nat → plugin_stored p row → plugin_stored q row.
Proof. intros ? [[x [? ?]] ?]. split; [exists x; split; [done|lia]|done]. Qed.

(** Creating a job in a numbered table succeeds: the job is appended under
    the next key, with the sequence after the greatest of its project. *)
Lemma plugin_create_numbered project config t :
  numbered t →
  ∃ n, plugin_create project config t =
         inr (let job := {| plugin_pk := Some (plugin_next_pk t);
                            plugin_project := project;
                            plugin_sequence := Some n;
                            plugin_config := config |} in
              (job, {| plugin_rows := plugin_rows t ++ [job];
                       plugin_next_pk := S (plugin_next_pk t) |})) ∧
       (1 ≤ n)%nat ∧
       (∀ a, a ∈ plugin_rows t →
             project_id (plugin_project a) = project_id project →
             ∃ m, plugin_sequence a = Some m ∧ (m < n)%nat) ∧
       (n = 1%nat ∨
        ∃ a, a ∈ plugin_rows t ∧
             project_id (plugin_project a) = project_id project ∧
             plugin_sequence a = Some (n - 1)%nat).
Proof.
  intros [Hs Hst].
  unfold plugin_create, plugin_save, objects_filter. simpl.
  destruct (last _) as [l|] eqn:El.
  - apply last_Some_elem_of in El as Hl.
    apply list_elem_of_filter in Hl as [Hlp Hl].
    rewrite Forall_forall in Hst.
    destruct (Hst _ Hl) as [_ [n [Hn Hn1]]]. rewrite Hn.
    exists (n + 1)%nat. split; [|split; [lia|split]].
    + unfold Model_save. simpl.
      rewrite objects_get_fresh by by apply Forall_forall.
      unfold plugin_set_pk, plugin_set_sequence. simpl.
      rewrite insert_by_pk_snoc by by apply Forall_forall. done.
    + intros a Ha Hp.
      destruct (last_of_project_is_greatest project _ a Hs Ha Hp)
        as (b & Hb & _ & _ & Hab).
      simpl in El. rewrite El in Hb. simplify_eq.
      destruct Hab as [->|(m & n' & Hm & Hn' & Hlt)].
      * exists n. split; [done|lia].
      * exists m. split; [done|]. rewrite Hn in Hn'. simplify_eq. lia.
    + right. exists l. split; [done|]. split; [done|].
      rewrite Hn. f_equal. lia.
  - exists 1%nat. split; [|split; [lia|split]].
    + unfold Model_save. simpl.
      rewrite objects_get_fresh by done.
      unfold plugin_set_pk, plugin_set_sequence. simpl.
      rewrite insert_by_pk_snoc by done. done.
    + intros a Ha Hp. by destruct (last_of_project_None project _ El a Ha).
    + by left.
Qed.

Lemma plugin_create_preserves project config t job t' :
  numbered t → plugin_create project config t = inr (job, t') → numbered t'.
Proof.
  intros Hn H.
  destruct (plugin_create_numbered project config t Hn)
    as (n & E & Hn1 & Hgt & _).
  rewrite E in H. simpl in H. simplify_eq.
  destruct Hn as [Hs Hst]. split; simpl.
  - apply StronglySorted_app_2; [|done|].
    + intros a b Ha ->%list_elem_of_singleton. split; simpl.
      * rewrite Forall_forall in Hst. destruct (Hst _ Ha) as [[p [Hp ?]] _].
        by exists p, (plugin_next_pk t).
      * intros Hp. destruct (Hgt a Ha Hp) as (m & ? & ?). by exists m, n.
    + repeat constructor.
  - apply Forall_app. split.
    + eapply Forall_impl; [done|]. intros ?. apply plugin_stored_mono. lia.
    + constructor; [|done]. split; simpl; [eexists; split; [done|lia]|by exists n].
Qed.

Lemma plugin_delete_preserves pk t : numbered t → numbered (plugin_delete pk t).
Proof.
  intros [Hs Hst]. split; simpl.
  - clear Hst. induction Hs as [|a l Hs IH Ha]; [constructor|].
    destruct (decide (plugin_pk a ≠ Some pk)).
    + rewrite filter_cons_True by done. constructor; [done|].
      by apply Forall_filter_keep.
    + by rewrite filter_cons_False.
  - by apply Forall_filter_keep.
Qed.

Lemma sorted_pk_inj rows a b :
  StronglySorted plugin_before rows →
  a ∈ rows → b ∈ rows → plugin_pk a = plugin_pk b → a = b.
Proof.
  intros Hs Ha Hb Hq.
  apply list_elem_of_split in Ha as (l1 & l2 & E). rewrite E in Hs, Hb.
  apply StronglySorted_app in Hs as (H12 & _ & Hs2).
  apply StronglySorted_cons in Hs2 as [Hr2 _].
  rewrite Forall_forall in Hr2.
  apply elem_of_app in Hb as [Hb|Hb].
  - destruct (H12 b a Hb) as [(p & q & ? & ? & ?) _]; [set_solver|].
    assert (p = q) by congruence. lia.
  - apply elem_of_cons in Hb as [?|Hb]; [done|].
    destruct (Hr2 _ Hb) as [(p & q & ? & ? & ?) _].
    assert (p = q) by congruence. lia.
Qed.

Lemma plugin_update_preserves pk config t row job t' :
  numbered t →
  objects_get pk t = Some row →
  plugin_save (plugin_set_config config row) t = inr (job, t') →
  numbered t'.
Proof.
  intros [Hs Hst] Hrow H.
  apply objects_get_elem_of in Hrow as Hr. destruct Hr as [Hin Hpk].
  assert (∃ n, plugin_sequence row = Some n) as [n Hn].
  { rewrite Forall_forall in Hst. destruct (Hst _ Hin) as [_ [n [Hn _]]].
    by exists n. }
  unfold plugin_save, Model_save in H. simpl in H.
  rewrite Hpk, Hn, Hrow in H. simplify_eq.
  set (f := λ r, if decide (plugin_pk r = Some pk)
                 then plugin_set_config config row else r).
  assert (∀ r, r ∈ plugin_rows t →
               plugin_pk (f r) = plugin_pk r ∧
               plugin_project (f r) = plugin_project r ∧
               plugin_sequence (f r) = plugin_sequence r) as Hf.
  { intros r Hr. unfold f. case_decide as Hd; [|done]. simpl.
    by rewrite (sorted_pk_inj _ r row Hs Hr Hin) by congruence. }
  split; simpl.
  - clear Hst Hin Hrow. fold f.
    induction Hs as [|a l Hs IH Ha]; [constructor|].
    csimpl. constructor.
    + apply IH. intros r Hr. apply Hf. set_solver.
    + rewrite Forall_fmap. rewrite Forall_forall in Ha |- *.
      intros b Hb. unfold compose, plugin_before.
      destruct (Hf a) as (-> & -> & ->); [set_solver|].
      destruct (Hf b) as (-> & -> & ->); [set_solver|].
      by apply Ha.
  - fold f. rewrite Forall_fmap. rewrite Forall_forall in Hst |- *.
    intros r Hr. unfold plugin_stored. simpl.
    destruct (Hf r Hr) as (-> & _ & ->). by apply Hst.
Qed.

Lemma plugin_step_numbered t op : numbered t → numbered (plugin_step t op).
Proof.
  intros Hn. destruct op as [project config|pk config|pk]; simpl.
  - destruct (plugin_create _ _ _) as [|[job t']] eqn:E; [done|].
    by eapply plugin_create_preserves.
  - destruct (objects_get _ _) as [row|] eqn:Er; [|done].
    destruct (plugin_save _ _) as [|[job t']] eqn:E; [done|].
    by eapply plugin_update_preserves.
  - by apply plugin_delete_preserves.
Qed.

Lemma plugin_run_numbered ops t :
  numbered t → numbered (foldl plugin_step t ops).
Proof.
  revert t. induction ops as [|op ops IH]; [done|].
  intros t Hn. simpl. by apply IH, plugin_step_numbered.
Qed.

Lemma plugin_history_numbered ops : numbered (plugin_history ops).
Proof. apply plugin_run_numbered. split; constructor. Qed.

Lemma numbered_sequence_inj t a b :
  numbered t →
  a ∈ plugin_rows t → b ∈ plugin_rows t →
  project_id (plugin_project a) = project_id (plugin_project b) →
  plugin_sequence a = plugin_sequence b →
  a = b.
Proof.
  intros [Hs _] Ha Hb Hp Hq.
  apply list_elem_of_split in Ha as (l1 & l2 & E). rewrite E in Hs, Hb.
  apply StronglySorted_app in Hs as (H12 & _ & Hs2).
  apply StronglySorted_cons in Hs2 as [Hr2 _].
  rewrite Forall_forall in Hr2.
  apply elem_of_app in Hb as [Hb|Hb].
  - destruct (H12 b a Hb) as [_ H]; [set_solver|].
    destruct H as (m & n & ? & ? & ?); [done|].
    assert (m = n) by congruence. lia.
  - apply elem_of_cons in Hb as [?|Hb]; [done|].
    destruct (Hr2 _ Hb) as [_ H].
    destruct H as (m & n & ? & ? & ?); [done|].
    assert (m = n) by congruence. lia.
Qed.

Lemma plugin_delete_created t job :
  Forall (plugin_stored (plugin_next_pk t)) (plugin_rows t) →
  plugin_pk job = Some (plugin_next_pk t) →
  plugin_delete (plugin_next_pk t)
    {| plugin_rows := plugin_rows t ++ [job];
       plugin_next_pk := S (plugin_next_pk t) |} =
  {| plugin_rows := plugin_rows t; plugin_next_pk := S (plugin_next_pk t) |}.
Proof.
  intros Hst Hpk. unfold plugin_delete. simpl. f_equal.
  rewrite filter_app, filter_cons_False, filter_nil, app_nil_r
    by (intros H; by apply H).
  induction Hst as [|row rows [[p [Hp Hlt]] _] _ IH]; [done|].
  rewrite filter_cons_True; [by rewrite IH|].
  rewrite Hp. intros ?. simplify_eq. lia.
Qed.

(** X14.  A new job is saved without an exception and takes the sequence
    after the greatest one of its project
    ([TensorboardJob.save], [NotebookJob.save]).  On a table built by creating,
    re-saving and deleting jobs, saving a new job of a project succeeds; the
    job is appended under the next key; its sequence is at least one and
    greater than the sequence of every row of the project; and it is one
    unless the project has a row with the sequence just below it. *)
Theorem new_plugin_job_takes_the_next_sequence
    (ops : list PluginOp) (project : Project) (config : string) :
  ∃ n,
    plugin_create project config (plugin_history ops) =
      inr ({| plugin_pk := Some (plugin_next_pk (plugin_history ops));
              plugin_project := project;
              plugin_sequence := Some n;
              plugin_config := config |},
           {| plugin_rows :=
                plugin_rows (plugin_history ops) ++
                [{| plugin_pk := Some (plugin_next_pk (plugin_history ops));
                    plugin_project := project;
                    plugin_sequence := Some n;
                    plugin_config := config |}];
              plugin_next_pk := S (plugin_next_pk (plugin_history ops)) |}) ∧
    (1 ≤ n)%nat ∧
    (∀ a, a ∈ plugin_rows (plugin_history ops) →
          project_id (plugin_project a) = project_id project →
          ∃ m, plugin_sequence a = Some m ∧ (m < n)%nat) ∧
    (n = 1%nat ∨
     ∃ a, a ∈ plugin_rows (plugin_history ops) ∧
          project_id (plugin_project a) = project_id project ∧
          plugin_sequence a = Some (n - 1)%nat).
Proof.
  destruct (plugin_create_numbered project config _
              (plugin_history_numbered ops)) as (n & E & ?).
  by exists n.
Qed.

(** X15.  Within a project no two jobs of a class carry the same sequence
    ([TensorboardJob.save], [NotebookJob.save]).  On a table built by
    creating, re-saving and deleting jobs, two rows of the same project with
    the same sequence are the same row. *)
Theorem plugin_sequence_is_unique_within_a_project
    (ops : list PluginOp) (a b : PluginJob)
    (Ha : a ∈ plugin_rows (plugin_history ops))
    (Hb : b ∈ plugin_rows (plugin_history ops))
    (Hproject : project_id (plugin_project a) = project_id (plugin_project b))
    (Hsequence : plugin_sequence a = plugin_sequence b) :
  a = b.
Proof.
  by eapply numbered_sequence_inj; [apply plugin_history_numbered|..].
Qed.

Lemma plugin_sequence_is_unique_within_a_project_witness :
  {| plugin_pk := Some 2%nat; plugin_project := Fixture.mnist;
     plugin_sequence := Some 2%nat; plugin_config := "b" |} =
  {| plugin_pk := Some 2%nat; plugin_project := Fixture.mnist;
     plugin_sequence := Some 2%nat; plugin_config := "b" |}.
Proof.
  apply (plugin_sequence_is_unique_within_a_project
           [CreatePlugin Fixture.mnist "a"; CreatePlugin Fixture.mnist "b"]).
  - vm_compute. set_solver.
  - vm_compute. set_solver.
  - reflexivity.
  - reflexivity.
Defined.

Lemma format_sequence_stored_inj m n :
  format_sequence (Some m) = format_sequence (Some n) → m = n.
Proof. simpl. apply (inj pretty). Qed.

(** X16.  [unique_name] tells the jobs of a project apart
    ([TensorboardJob.unique_name], [NotebookJob.unique_name], with the
    numbering of [save]).  On a table built by creating, re-saving and
    deleting jobs, two rows of the same project and class with the same
    unique name are the same row; and a TensorboardJob and a NotebookJob of
    the same project never have the same unique name, whatever their
    sequences. *)
Theorem plugin_unique_name_tells_jobs_apart
    (project_unique_name : Project → string) (K : PluginClass)
    (ops : list PluginOp) (a b : PluginJob)
    (Ha : a ∈ plugin_rows (plugin_history ops))
    (Hb : b ∈ plugin_rows (plugin_history ops))
    (Hproject : plugin_project a = plugin_project b) :
  (unique_name project_unique_name K a = unique_name project_unique_name K b →
   a = b) ∧
  unique_name project_unique_name TensorboardJob a ≠
    unique_name project_unique_name NotebookJob b.
Proof.
  split.
  - intros Hname.
    pose proof (plugin_history_numbered ops) as Hn.
    eapply numbered_sequence_inj; [done..|by rewrite Hproject|].
    destruct Hn as [_ Hst]. rewrite Forall_forall in Hst.
    destruct (Hst _ Ha) as [_ [m [Hm _]]].
    destruct (Hst _ Hb) as [_ [n [Hn _]]].
    unfold unique_name in Hname. rewrite Hproject, Hm, Hn in Hname.
    apply (inj (String.append _)) in Hname.
    apply (inj (String.append _)) in Hname.
    rewrite Hm, Hn. f_equal. by apply format_sequence_stored_inj.
  - unfold unique_name. rewrite Hproject. intros Hname.
    apply (inj (String.append _)) in Hname. discriminate Hname.
Qed.

Lemma plugin_unique_name_tells_jobs_apart_witness :
  (unique_name (λ p, project_user__username p +:+ "." +:+ project_name p)
     NotebookJob
     {| plugin_pk := Some 2%nat; plugin_project := Fixture.mnist;
        plugin_sequence := Some 2%nat; plugin_config := "b" |} =
   unique_name (λ p, project_user__username p +:+ "." +:+ project_name p)
     NotebookJob
     {| plugin_pk := Some 2%nat; plugin_project := Fixture.mnist;
        plugin_sequence := Some 2%nat; plugin_config := "b" |} →
   {| plugin_pk := Some 2%nat; plugin_project := Fixture.mnist;
      plugin_sequence := Some 2%nat; plugin_config := "b" |} =
   {| plugin_pk := Some 2%nat; plugin_project := Fixture.mnist;
      plugin_sequence := Some 2%nat; plugin_config := "b" |}) ∧
  unique_name (λ p, project_user__username p +:+ "." +:+ project_name p)
    TensorboardJob
    {| plugin_pk := Some 2%nat; plugin_project := Fixture.mnist;
       plugin_sequence := Some 2%nat; plugin_config := "b" |} ≠
  unique_name (λ p, project_user__username p +:+ "." +:+ project_name p)
    NotebookJob
    {| plugin_pk := Some 2%nat; plugin_project := Fixture.mnist;
       plugin_sequence := Some 2%nat; plugin_config := "b" |}.
Proof.
  apply (plugin_unique_name_tells_jobs_apart _ NotebookJob
           [CreatePlugin Fixture.mnist "a"; CreatePlugin Fixture.mnist "b"]).
  - vm_compute. set_solver.
  - vm_compute. set_solver.
  - reflexivity.
Defined.

(** X17.  The number of a deleted job is handed out again
    ([TensorboardJob.save], [NotebookJob.save]).  On a table built by
    creating, re-saving and deleting jobs: a job is created in a project and
    deleted, and another job is created in the project.  Both saves succeed;
    the second job has another key but the sequence of the first, and with it
    the same unique name. *)
Theorem deleted_plugin_job_number_is_reused
    (ops : list PluginOp) (project : Project) (config1 config2 : string) :
  ∃ pk1 job1 t1 job2 t2,
    plugin_create project config1 (plugin_history ops) = inr (job1, t1) ∧
    plugin_pk job1 = Some pk1 ∧
    plugin_create project config2 (plugin_delete pk1 t1) = inr (job2, t2) ∧
    plugin_pk job2 = Some (S pk1) ∧
    plugin_sequence job2 = plugin_sequence job1 ∧
    ∀ project_unique_name K,
      unique_name project_unique_name K job2 =
      unique_name project_unique_name K job1.
Proof.
  pose proof (plugin_history_numbered ops) as Hn.
  set (t := plugin_history ops) in *.
  destruct (plugin_create_numbered project config1 t Hn)
    as (n & E1 & Hn1 & Hgt & Hpred).
  simpl in E1.
  eexists (plugin_next_pk t), _, _. 
  assert (numbered {| plugin_rows := plugin_rows t;
                      plugin_next_pk := S (plugin_next_pk t) |}) as Hn'.
  { destruct Hn as [Hs Hst]. split; [done|]. simpl.
    eapply Forall_impl; [done|]. intros ?. apply plugin_stored_mono. lia. }
  destruct (plugin_create_numbered project config2 _ Hn')
    as (n' & E2 & Hn1' & Hgt' & Hpred').
  simpl in E2, Hgt', Hpred'.
  eexists _, _. split; [exact E1|]. split; [done|].
  rewrite plugin_delete_created by (done || apply Hn).
  split; [exact E2|]. split; [done|].
  assert (n' = n) as ->.
  { destruct Hn as [_ Hst]. rewrite Forall_forall in Hst.
    destruct Hpred as [->|(a & Ha & Hpa & Hsa)];
      destruct Hpred' as [->|(a' & Ha' & Hpa' & Hsa')]; [done|..].
    - destruct (Hgt a' Ha' Hpa') as (m & Hm & Hlt).
      destruct (Hst _ Ha') as [_ [k [Hk Hk1]]].
      assert (m = k) by congruence. assert (k = (n' - 1)%nat) by congruence.
      lia.
    - destruct (Hgt' a Ha Hpa) as (m & Hm & Hlt).
      destruct (Hst _ Ha) as [_ [k [Hk Hk1]]].
      assert (m = k) by congruence. assert (k = (n - 1)%nat) by congruence.
      lia.
    - destruct (Hgt a' Ha' Hpa') as (m & Hm & Hlt).
      destruct (Hgt' a Ha Hpa) as (m' & Hm' & Hlt').
      assert (m = (n' - 1)%nat) by congruence.
      assert (m' = (n - 1)%nat) by congruence.
      lia. }
  done.
Qed.

Lemma head_filter_fmap_pk (f : PluginJob → PluginJob) q rows :
  (∀ r, r ∈ rows → plugin_pk (f r) = plugin_pk r) →
  head (filter (λ row, plugin_pk row = Some q) (f <$> rows)) =
  f <$> head (filter (λ row, plugin_pk row = Some q) rows).
Proof.
  induction rows as [|r rows IH]; [done|]. intros Hf. csimpl.
  destruct (decide (plugin_pk r = Some q)) as [Hq|Hq].
  - rewrite !filter_cons_True; [done..|]. rewrite Hf; [done|set_solver].
  - rewrite !filter_cons_False; [|done|].
    + apply IH. intros. apply Hf. set_solver.
    + rewrite Hf; [done|set_solver].
Qed.

(** X18.  Saving a stored job again does not renumber it
    ([TensorboardJob.save], [NotebookJob.save]: the guard [self.pk is None]).
    On a table built by creating, re-saving and deleting jobs, a row is
    loaded, its configuration changed, and saved.  The save succeeds and
    returns the instance as it was passed; the table has the same keys,
    projects and sequences in the same order and the same next key; the row
    of that key now is the instance, and every other key finds the row it
    found before. *)
Theorem resaved_plugin_job_keeps_its_number
    (ops : list PluginOp) (pk : nat) (config : string) (row : PluginJob)
    (Hrow : objects_get pk (plugin_history ops) = Some row) :
  ∃ t',
    plugin_save (plugin_set_config config row) (plugin_history ops) =
      inr (plugin_set_config config row, t') ∧
    plugin_next_pk t' = plugin_next_pk (plugin_history ops) ∧
    plugin_pk <$> plugin_rows t' =
      plugin_pk <$> plugin_rows (plugin_history ops) ∧
    plugin_project <$> plugin_rows t' =
      plugin_project <$> plugin_rows (plugin_history ops) ∧
    plugin_sequence <$> plugin_rows t' =
      plugin_sequence <$> plugin_rows (plugin_history ops) ∧
    objects_get pk t' = Some (plugin_set_config config row) ∧
    ∀ pk', pk' ≠ pk → objects_get pk' t' = objects_get pk' (plugin_history ops).
Proof.
  pose proof (plugin_history_numbered ops) as [Hs Hst].
  set (t := plugin_history ops) in *.
  apply objects_get_elem_of in Hrow as Hr. destruct Hr as [Hin Hpk].
  assert (∃ n, plugin_sequence row = Some n) as [n Hn].
  { rewrite Forall_forall in Hst. destruct (Hst _ Hin) as [_ [n [Hn _]]].
    by exists n. }
  unfold plugin_save, Model_save. simpl. rewrite Hpk, Hn, Hrow.
  eexists. split; [done|]. simpl.
  set (f := λ r, if decide (plugin_pk r = Some pk)
                 then plugin_set_config config row else r).
  assert (∀ r, r ∈ plugin_rows t →
               plugin_pk (f r) = plugin_pk r ∧
               plugin_project (f r) = plugin_project r ∧
               plugin_sequence (f r) = plugin_sequence r) as Hf.
  { intros r Hr. unfold f. case_decide as Hd; [|done]. simpl.
    by rewrite (sorted_pk_inj _ r row Hs Hr Hin) by congruence. }
  split; [done|].
  rewrite <- !list_fmap_compose.
  split; [|split; [|split]].
  - apply list_fmap_ext. intros i r Hr%list_elem_of_lookup_2. by apply Hf.
  - apply list_fmap_ext. intros i r Hr%list_elem_of_lookup_2. by apply Hf.
  - apply list_fmap_ext. intros i r Hr%list_elem_of_lookup_2. by apply Hf.
  - unfold objects_get in *. simpl.
    split.
    + rewrite head_filter_fmap_pk by (intros; by apply Hf).
      rewrite Hrow. change (Some (f row) = Some (plugin_set_config config row)).
      f_equal. unfold f. by case_decide.
    + intros pk' Hne.
      rewrite head_filter_fmap_pk by (intros; by apply Hf).
      destruct (head (filter (λ row, plugin_pk row = Some pk') _))
        as [r|] eqn:E; [|done].
      apply head_Some_elem_of, list_elem_of_filter in E as [E _].
      change (Some (f r) = Some r). f_equal.
      unfold f. case_decide; [congruence|done].
Qed.

Lemma resaved_plugin_job_keeps_its_number_witness :
  ∃ t',
    plugin_save
      (plugin_set_config "c"
         {| plugin_pk := Some 1%nat; plugin_project := Fixture.mnist;
            plugin_sequence := Some 1%nat; plugin_config := "a" |})
      (plugin_history
         [CreatePlugin Fixture.mnist "a"; CreatePlugin Fixture.mnist "b"]) =
      inr (plugin_set_config "c"
             {| plugin_pk := Some 1%nat; plugin_project := Fixture.mnist;
                plugin_sequence := Some 1%nat; plugin_config := "a" |}, t') ∧
    plugin_next_pk t' =
      plugin_next_pk
        (plugin_history
           [CreatePlugin Fixture.mnist "a"; CreatePlugin Fixture.mnist "b"]) ∧
    plugin_pk <$> plugin_rows t' =
      plugin_pk <$>
        plugin_rows
          (plugin_history
             [CreatePlugin Fixture.mnist "a"; CreatePlugin Fixture.mnist "b"]) ∧
    plugin_project <$> plugin_rows t' =
      plugin_project <$>
        plugin_rows
          (plugin_history
             [CreatePlugin Fixture.mnist "a"; CreatePlugin Fixture.mnist "b"]) ∧
    plugin_sequence <$> plugin_rows t' =
      plugin_sequence <$>
        plugin_rows
          (plugin_history
             [CreatePlugin Fixture.mnist "a"; CreatePlugin Fixture.mnist "b"]) ∧
    objects_get 1 t' =
      Some (plugin_set_config "c"
              {| plugin_pk := Some 1%nat; plugin_project := Fixture.mnist;
                 plugin_sequence := Some 1%nat; plugin_config := "a" |}) ∧
    ∀ pk', pk' ≠ 1%nat →
      objects_get pk' t' =
      objects_get pk'
        (plugin_history
           [CreatePlugin Fixture.mnist "a"; CreatePlugin Fixture.mnist "b"]).
Proof.
  apply (resaved_plugin_job_keeps_its_number
           [CreatePlugin Fixture.mnist "a"; CreatePlugin Fixture.mnist "b"]
           1 "c").
  reflexivity.
Defined.
